(** * SFTP v3 client core (sftp-ws): packet codec, sub-codecs and protocol engine

    A shallow embedding of [packet.ts], [misc.ts] and [client.ts].
    JavaScript numbers are modelled by [Z] (the integer values of the host
    number type); every 32-bit coercion the source performs through [|], [&],
    [<<] and [>>] is written out with [toInt32].  Objects that the source
    mutates in place (packet readers and writers, the session) are threaded
    through a state monad whose failure case keeps the state reached when the
    exception was thrown. *)

From Stdlib Require Import ZArith List Bool Ascii String Lia.
From stdpp Require Import base option gmap strings list fin_maps.
Import ListNotations.

Local Open Scope string_scope.
Local Open Scope list_scope.
Local Open Scope Z_scope.

(** ** JavaScript 32-bit integer operators *)

(** [ToInt32]: wrap an integer into the signed range [-2^31, 2^31). *)
Definition toInt32 (x : Z) : Z := (x + 2147483648) mod 4294967296 - 2147483648.

(** [a & b]: both operands go through [ToInt32]; the conjunction of two
    signed 32-bit values is again one. *)
Definition js_and (a b : Z) : Z := Z.land (toInt32 a) (toInt32 b).

(** [a | b]. *)
Definition js_or (a b : Z) : Z := Z.lor (toInt32 a) (toInt32 b).

(** [a ^ b]. *)
Definition js_xor (a b : Z) : Z := Z.lxor (toInt32 a) (toInt32 b).

(** [a << n]: the shift count is taken modulo 32, the result wraps. *)
Definition js_shl (a n : Z) : Z := toInt32 (Z.shiftl (toInt32 a) (n mod 32)).

(** [a >> n]: arithmetic shift of the signed 32-bit value. *)
Definition js_sar (a n : Z) : Z := Z.shiftr (toInt32 a) (n mod 32).

(** Truthiness of a number. *)
Definition truthy (x : Z) : bool := negb (x =? 0).

(** ** Exceptions and the state monad *)

(** What a run can end with instead of a result: one of the three kinds of
    exception, or [OutOfFuel], which is not an exception of the program but
    marks a run of a [while] loop that the fuel bound cut off. *)
Inductive Thrown : Type :=
  | ThrowSftpError (message : string)
  | ThrowTypeError
  | ThrowRangeError
  | OutOfFuel.

Inductive Res (S A : Type) : Type :=
  | Ok (a : A) (s : S)
  | Throw (e : Thrown) (s : S).
Arguments Ok {S A} a s.
Arguments Throw {S A} e s.

Definition M (S A : Type) : Type := S -> Res S A.

Definition ret {S A} (a : A) : M S A := fun s => Ok a s.

Definition bind {S A B} (m : M S A) (k : A -> M S B) : M S B :=
  fun s => match m s with
           | Ok a s' => k a s'
           | Throw e s' => Throw e s'
           end.

Definition throw {S A} (e : Thrown) : M S A := fun s => Throw e s.
Definition get {S} : M S S := fun s => Ok s s.
Definition gets {S A} (f : S -> A) : M S A := fun s => Ok (f s) s.
Definition modify {S} (f : S -> S) : M S unit := fun s => Ok tt (f s).

Declare Scope monad_scope.
Delimit Scope monad_scope with monad.
Notation "'do' x <- m ; k" := (bind m (fun x => k))
  (at level 10, x name, m at level 100, k at level 200) : monad_scope.
Notation "'run' m ; k" := (bind m (fun _ => k))
  (at level 10, m at level 100, k at level 200) : monad_scope.
Local Open Scope monad_scope.

Definition state_of {S A} (r : Res S A) : S :=
  match r with Ok _ s => s | Throw _ s => s end.

(** ** Typed arrays *)

(** A [Uint8Array] is a list of integers in [0, 255]. *)
Abbreviation Uint8Array := (list Z).

Definition len (b : Uint8Array) : Z := Z.of_nat (List.length b).

(** [b[i]] read as a number inside a bitwise expression: an index outside the
    array gives [undefined], which the operators coerce to 0. *)
Definition js_index (b : Uint8Array) (i : Z) : Z :=
  if i <? 0 then 0 else nth (Z.to_nat i) b 0.

(** [b[i] = v] on a typed array: the value is stored modulo 256 and a store
    outside the array is ignored. *)
Definition js_store (b : Uint8Array) (i v : Z) : Uint8Array :=
  if i <? 0 then b else <[Z.to_nat i := v mod 256]> b.

(** Resolution of a relative index, as [subarray] and [slice] do it. *)
Definition rel_index (n i : Z) : Z :=
  if i <? 0 then Z.max (n + i) 0 else Z.min i n.

Definition subarray (b : Uint8Array) (start end_ : Z) : Uint8Array :=
  let s := rel_index (len b) start in
  let e := rel_index (len b) end_ in
  firstn (Z.to_nat (e - s)) (skipn (Z.to_nat s) b).

(** [slice] copies the same range that [subarray] views. *)
Definition slice (b : Uint8Array) (start end_ : Z) : Uint8Array :=
  subarray b start end_.

(** [new Uint8Array(n)]. *)
Definition zeros (n : Z) : Uint8Array := repeat 0 (Z.to_nat n).

(** [target.set(src, offset)]: a [RangeError] when the source does not fit. *)
Definition Uint8Array_set (target src : Uint8Array) (offset : Z)
  : option Uint8Array :=
  if (offset <? 0) || (len target <? offset + len src) then None
  else Some (firstn (Z.to_nat offset) target ++ src
             ++ skipn (Z.to_nat (offset + len src)) target).

(** ** Character set *)

(** Modelled from the spec: [charsets.ts] ([decodeUTF8], [encodeUTF8]) is not
    among the sources.  The spec only says that strings travel as UTF-8
    bytes behind a 32-bit length.  A string value is represented here by the
    sequence of its UTF-8 code units, so decoding takes the bytes of the
    range [start, end) as they are. *)
Definition decodeUTF8 (b : Uint8Array) (start end_ : Z) : string :=
  string_of_list_ascii
    (map (fun x => ascii_of_N (Z.to_N (Z.land x 255)))
         (firstn (Z.to_nat (end_ - start)) (skipn (Z.to_nat start) b))).

Definition utf8_bytes (s : string) : Uint8Array :=
  map (fun c => Z.of_N (N_of_ascii c)) (list_ascii_of_string s).

(** Modelled from the spec: [encodeUTF8] writes the bytes of the string at
    [offset] and returns how many it wrote, or a negative number when the
    buffer is too small ("insufficient buffer space"). *)
Definition encodeUTF8 (value : string) (b : Uint8Array) (offset : Z)
  : Z * Uint8Array :=
  match Uint8Array_set b (utf8_bytes value) offset with
  | Some b' => (len (utf8_bytes value), b')
  | None => (-1, b)
  end.

(** ** Protocol constants *)

(** Modelled from the spec: [enums.ts] is not among the sources; opcodes,
    status codes and open flags are the fixed integers of SFTP version 3. *)
Module SftpPacketType.
Definition INIT := 1.
Definition VERSION := 2.
Definition OPEN := 3.
Definition CLOSE := 4.
Definition READ := 5.
Definition WRITE := 6.
Definition LSTAT := 7.
Definition FSTAT := 8.
Definition SETSTAT := 9.
Definition FSETSTAT := 10.
Definition OPENDIR := 11.
Definition READDIR := 12.
Definition REMOVE := 13.
Definition MKDIR := 14.
Definition RMDIR := 15.
Definition REALPATH := 16.
Definition STAT := 17.
Definition RENAME := 18.
Definition READLINK := 19.
Definition SYMLINK := 20.
Definition EXTENDED := 200.
Definition STATUS := 101.
Definition HANDLE := 102.
Definition DATA := 103.
Definition NAME := 104.
Definition ATTRS := 105.
Definition EXTENDED_REPLY := 201.
End SftpPacketType.

Module SftpStatusCode.
Definition OK := 0.
Definition EOF := 1.
Definition NO_SUCH_FILE := 2.
Definition PERMISSION_DENIED := 3.
Definition FAILURE := 4.
Definition BAD_MESSAGE := 5.
Definition NO_CONNECTION := 6.
Definition CONNECTION_LOST := 7.
Definition OP_UNSUPPORTED := 8.
End SftpStatusCode.

Module SftpOpenFlags.
Definition READ := 1.
Definition WRITE := 2.
Definition APPEND := 4.
Definition CREATE := 8.
Definition TRUNC := 16.
Definition EXCL := 32.
Definition ALL := 63.
End SftpOpenFlags.

Module RenameFlags.
Definition NONE := 0.
Definition OVERWRITE := 1.
End RenameFlags.

(** ** Packets ([packet.ts]) *)

(** An [SftpHandle]: the raw handle bytes and the session that minted it
    (sessions are told apart by their session id). *)
Record SftpHandle : Type := mkHandle {
  _handle : Uint8Array;
  _this : Z
}.

(** [SftpCommandInfo]: the command name and the optional context fields that
    the operations of [client.ts] put into it. *)
Record SftpCommandInfo : Type := mkInfo {
  command : string;
  path : option string;
  oldPath : option string;
  newPath : option string;
  targetPath : option string;
  linkPath : option string;
  handle : option SftpHandle;
  flags : option Z
}.

(** The object literals [{ command: c }], [{ command: c, path: p }] and
    [{ command: c, handle: h }]. *)
Definition info_of (c : string) : SftpCommandInfo :=
  mkInfo c None None None None None None None.
Definition info_path (c p : string) : SftpCommandInfo :=
  mkInfo c (Some p) None None None None None None.
Definition info_handle (c : string) (h : SftpHandle) : SftpCommandInfo :=
  mkInfo c None None None None None (Some h) None.

(** [SftpPacketType|string], or [null] for a raw reader. *)
Inductive PType : Type :=
  | TNum (n : Z)
  | TStr (s : string)
  | TNull.

(** Value of a string of decimal digits. *)
Fixpoint digits_value (acc : Z) (s : string) : option Z :=
  match s with
  | EmptyString => Some acc
  | String c s' =>
      let d := Z.of_N (N_of_ascii c) - 48 in
      if (0 <=? d) && (d <=? 9) then digits_value (10 * acc + d) s' else None
  end.

(** [t == n] for a numeric constant [n].  A string operand is converted to a
    number first; the conversion is modelled for strings of decimal digits
    (the empty string converts to 0), every other string compares unequal. *)
Definition loose_eq (t : PType) (n : Z) : bool :=
  match t with
  | TNum m => m =? n
  | TStr s => match digits_value 0 s with Some m => m =? n | None => false end
  | TNull => false
  end.

(** [t != n]. *)
Definition loose_ne (t : PType) (n : Z) : bool := negb (loose_eq t n).

(** The fields of [SftpPacket]; [info] is the field that [SftpResponse] adds
    to a reader ([None] until [_process] sets it). *)
Record SftpPacket : Type := mkPacket {
  type_ : PType;
  id_ : option Z;
  buffer : Uint8Array;
  position : Z;
  length_ : Z;
  info : option SftpCommandInfo
}.

(** Assignments to the fields of a packet. *)
Definition set_position (p : Z) (r : SftpPacket) : SftpPacket :=
  mkPacket (type_ r) (id_ r) (buffer r) p (length_ r) (info r).
Definition set_buffer (b : Uint8Array) (r : SftpPacket) : SftpPacket :=
  mkPacket (type_ r) (id_ r) b (position r) (length_ r) (info r).
Definition set_type (t : PType) (r : SftpPacket) : SftpPacket :=
  mkPacket t (id_ r) (buffer r) (position r) (length_ r) (info r).
Definition set_id (i : option Z) (r : SftpPacket) : SftpPacket :=
  mkPacket (type_ r) i (buffer r) (position r) (length_ r) (info r).
Definition set_info (i : option SftpCommandInfo) (r : SftpPacket) : SftpPacket :=
  mkPacket (type_ r) (id_ r) (buffer r) (position r) (length_ r) i.

Abbreviation PM := (M SftpPacket).

Definition EndOfPacket : Thrown := ThrowSftpError "Unexpected end of packet".

(** [SftpPacket.check]. *)
Definition check (count : Z) : PM unit :=
  do remaining <- gets (fun r => length_ r - position r);
  if remaining <? count then throw EndOfPacket else ret tt.

(** [SftpPacket.skip]. *)
Definition skip (count : Z) : PM unit :=
  run check count;
  modify (fun r => set_position (position r + count) r).

(** [this.buffer[this.position++] & 0xFF]. *)
Definition next_byte : PM Z :=
  do r <- get;
  run modify (set_position (position r + 1));
  ret (js_and (js_index (buffer r) (position r)) 255).

(** *** [SftpPacketReader] *)

Definition readByte : PM Z :=
  run check 1;
  do value <- next_byte;
  ret value.

Definition readUint16 : PM Z :=
  run check 2;
  let value := 0 in
  do b1 <- next_byte;
  let value := js_or value (js_shl b1 8) in
  do b2 <- next_byte;
  let value := js_or value b2 in
  ret value.

Definition readInt16 : PM Z :=
  do value <- readUint16;
  ret (if truthy (js_and value 32768) then value - 65536 else value).

(** The word is assembled with [|=] and [<<], so what [readUint32] returns is
    the signed 32-bit reading of the four bytes. *)
Definition readUint32 : PM Z :=
  run check 4;
  let value := 0 in
  do b1 <- next_byte;
  let value := js_or value (js_shl b1 24) in
  do b2 <- next_byte;
  let value := js_or value (js_shl b2 16) in
  do b3 <- next_byte;
  let value := js_or value (js_shl b3 8) in
  do b4 <- next_byte;
  let value := js_or value b4 in
  ret value.

Definition readInt32 : PM Z :=
  do value <- readUint32;
  ret (if truthy (js_and value 2147483648) then value - 4294967296 else value).

Definition readInt64 : PM Z :=
  do hi <- readInt32;
  do lo <- readUint32;
  let value := hi * 4294967296 + lo in
  ret value.

Definition readString : PM string :=
  do length <- readInt32;
  run check length;
  do r <- get;
  let end_ := position r + length in
  let value := decodeUTF8 (buffer r) (position r) end_ in
  run modify (set_position end_);
  ret value.

Definition skipString : PM unit :=
  do length <- readInt32;
  run check length;
  do r <- get;
  let end_ := position r + length in
  modify (set_position end_).

Definition readData (clone : bool) : PM Uint8Array :=
  do length <- readInt32;
  run check length;
  do r <- get;
  let start := position r in
  let end_ := start + length in
  run modify (set_position end_);
  let view := subarray (buffer r) start end_ in
  if clone then
    if length <? 0 then throw ThrowRangeError
    else match Uint8Array_set (zeros length) view 0 with
         | Some b => ret b
         | None => throw ThrowRangeError
         end
  else ret view.

(** [new SftpPacketReader(buffer, raw)]. *)
Definition SftpPacketReader_new (b : Uint8Array) (raw : bool) : Res SftpPacket unit :=
  let this := mkPacket TNull None b 0 (len b) None in
  if raw then Ok tt this
  else
    (do length <- readInt32;
     let length := length + 4 in
     do r <- get;
     if negb (length =? length_ r) then
       throw (ThrowSftpError "Invalid packet received")
     else
       do t <- readByte;
       run modify (set_type (TNum t));
       if (t =? SftpPacketType.INIT) || (t =? SftpPacketType.VERSION) then
         modify (set_id None)
       else
         do i <- readInt32;
         run modify (set_id (Some i));
         if t =? SftpPacketType.EXTENDED then
           do s <- readString;
           modify (set_type (TStr s))
         else ret tt) this.

(** [reader.readStructuredData()]: a raw reader over the data view. *)
Definition readStructuredData : PM SftpPacket :=
  do data <- readData false;
  match SftpPacketReader_new data true with
  | Ok _ sub => ret sub
  | Throw e _ => throw e
  end.

(** *** [SftpPacketWriter] *)

Definition SftpPacketWriter_new (length : Z) : SftpPacket :=
  mkPacket TNull None (zeros length) 0 length None.

(** [this.buffer[this.position++] = v]. *)
Definition put_byte (v : Z) : PM unit :=
  modify (fun r => set_position (position r + 1)
                     (set_buffer (js_store (buffer r) (position r) v) r)).

Definition writeByte (value : Z) : PM unit :=
  run check 1;
  put_byte (js_and value 255).

Definition writeInt32 (value : Z) : PM unit :=
  run check 4;
  run put_byte (js_and (js_sar value 24) 255);
  run put_byte (js_and (js_sar value 16) 255);
  run put_byte (js_and (js_sar value 8) 255);
  put_byte (js_and value 255).

(** [value / 0x100000000] is a floating-point quotient that [| 0] truncates
    toward zero before wrapping. *)
Definition writeInt64 (value : Z) : PM unit :=
  let hi := js_or (Z.quot value 4294967296) 0 in
  let lo := js_or (js_and value 4294967295) 0 in
  run writeInt32 hi;
  writeInt32 lo.

Definition writeString (value : string) : PM unit :=
  do offset <- gets position;
  run writeInt32 0;
  do r <- get;
  let '(bytesWritten, b) := encodeUTF8 value (buffer r) (position r) in
  run modify (set_buffer b);
  if bytesWritten <? 0 then
    throw (ThrowSftpError "Not enough space in the buffer")
  else
    run modify (set_position offset);
    run writeInt32 bytesWritten;
    modify (fun r => set_position (position r + bytesWritten) r).

(** [writeData(data, start, end)]; [range = None] when [start] is omitted. *)
Definition writeData (data : Uint8Array) (range : option (Z * Z)) : PM unit :=
  let data := match range with
              | Some (start, end_) => subarray data start end_
              | None => data
              end in
  let length := len data in
  run writeInt32 length;
  run check length;
  do r <- get;
  match Uint8Array_set (buffer r) data (position r) with
  | None => throw ThrowRangeError
  | Some b =>
      run modify (set_buffer b);
      modify (fun r => set_position (position r + length) r)
  end.

(** The text that [writeString] sends for a packet type that is not a number. *)
Definition type_text (t : PType) : string :=
  match t with
  | TStr s => s
  | TNull => "null"
  | TNum _ => ""
  end.

Definition is_number (t : PType) : bool :=
  match t with TNum _ => true | _ => false end.

Definition start : PM unit :=
  run modify (set_position 0);
  run writeInt32 0;
  do r <- get;
  run (match type_ r with
       | TNum n => writeByte n
       | _ => writeByte SftpPacketType.EXTENDED
       end);
  if loose_eq (type_ r) SftpPacketType.INIT
     || loose_eq (type_ r) SftpPacketType.VERSION then
    ret tt
  else
    run writeInt32 (js_or (match id_ r with Some i => i | None => 0 end) 0);
    if negb (is_number (type_ r)) then writeString (type_text (type_ r))
    else ret tt.

Definition finish : PM Uint8Array :=
  do length <- gets position;
  run modify (set_position 0);
  run writeInt32 (length - 4);
  do r <- get;
  ret (subarray (buffer r) 0 length).

(** Run a computation on a nested reader; only its result (or its exception)
    reaches the enclosing reader. *)
Definition on_sub {A} (sub : SftpPacket) (m : PM A) : PM A :=
  fun r => match m sub with
           | Ok a _ => Ok a r
           | Throw e _ => Throw e r
           end.

(** ** Flags, extensions and attributes ([misc.ts]) *)

Inductive Result (A : Type) : Type :=
  | Value (a : A)
  | Raised (e : Thrown).
Arguments Value {A} a.
Arguments Raised {A} e.

Definition liftR {S A} (r : Result A) : M S A :=
  match r with
  | Value a => ret a
  | Raised e => throw e
  end.

(** The [flags] argument of [open]: declared a string, but a number is let
    through by a [typeof] test. *)
Inductive FlagsArg : Type :=
  | FlagsStr (s : string)
  | FlagsNum (n : Z).

Module SftpFlags.
Import SftpOpenFlags.

Definition or_all (l : list Z) : Z := fold_left js_or l 0.

Definition toNumber (flags : FlagsArg) : Result Z :=
  match flags with
  | FlagsNum n => Value (js_and n ALL)
  | FlagsStr s =>
      if String.eqb s "r" then Value READ
      else if String.eqb s "r+" then Value (or_all [READ; WRITE])
      else if String.eqb s "w" then Value (or_all [WRITE; CREATE; TRUNC])
      else if String.eqb s "w+" then Value (or_all [WRITE; CREATE; TRUNC; READ])
      else if String.eqb s "wx" || String.eqb s "xw" then
        Value (or_all [WRITE; CREATE; EXCL])
      else if String.eqb s "wx+" || String.eqb s "xw+" then
        Value (or_all [WRITE; CREATE; EXCL; READ])
      else if String.eqb s "a" then Value (or_all [WRITE; CREATE; APPEND])
      else if String.eqb s "a+" then Value (or_all [WRITE; CREATE; APPEND; READ])
      else if String.eqb s "ax" || String.eqb s "xa" then
        Value (or_all [WRITE; CREATE; APPEND; EXCL])
      else if String.eqb s "ax+" || String.eqb s "xa+" then
        Value (or_all [WRITE; CREATE; APPEND; EXCL; READ])
      else Raised (ThrowSftpError ("Invalid flags '" +:+ s +:+ "'"))
  end.

(** The four normalisation steps of [fromNumber], before its [switch]. *)
Definition normalize (flags : Z) : Z :=
  let flags := js_and flags ALL in
  let flags := if negb (js_and flags EXCL =? 0)
               then js_and flags (js_xor ALL TRUNC) else flags in
  let flags := if negb (js_and flags TRUNC =? 0)
               then js_and flags (js_xor ALL APPEND) else flags in
  let flags := if js_and flags (js_or READ WRITE) =? 0
               then js_or flags READ else flags in
  let flags := if js_and flags CREATE =? 0
               then js_and flags (js_or READ WRITE)
               else js_or flags WRITE in
  flags.

Definition fromNumber (flags : Z) : Result (list string) :=
  let flags := normalize flags in
  if flags =? 1 then Value ["r"]
  else if (flags =? 2) || (flags =? 3) then Value ["r+"]
  else if flags =? 10 then Value ["wx"; "r+"]
  else if flags =? 11 then Value ["wx+"; "r+"]
  else if flags =? 14 then Value ["a"]
  else if flags =? 15 then Value ["a+"]
  else if flags =? 26 then Value ["w"]
  else if flags =? 27 then Value ["w+"]
  else if flags =? 42 then Value ["wx"]
  else if flags =? 43 then Value ["wx+"]
  else if flags =? 46 then Value ["ax"]
  else if flags =? 47 then Value ["ax+"]
  else Raised (ThrowSftpError "Unsupported flags").
End SftpFlags.

(** What an extension value decodes to. *)
Inductive ExtValue : Type :=
  | EString (s : string)
  | EData (b : Uint8Array)
  | EVendor (vendorName productName productVersion : string) (productBuild : Z).

(** Decimal spelling of a non-negative integer. *)
Fixpoint decimal_pos (fuel : nat) (n : Z) (acc : string) : string :=
  match fuel with
  | O => acc
  | S fuel' =>
      let acc' := String (ascii_of_N (Z.to_N (48 + n mod 10))) acc in
      if n <? 10 then acc' else decimal_pos fuel' (n / 10) acc'
  end.

Definition decimal (n : Z) : string :=
  if n <? 0 then "-" +:+ decimal_pos (Z.to_nat (- n) + 1) (- n) ""
  else decimal_pos (Z.to_nat n + 1) n "".

(** [Array.prototype.join(",")], which is what a typed array's [toString]
    does. *)
Fixpoint join_comma (l : list Z) : string :=
  match l with
  | [] => ""
  | [x] => decimal x
  | x :: rest => decimal x +:+ "," +:+ join_comma rest
  end.

(** A value spliced into a string by [+]. *)
Definition ext_to_string (v : option ExtValue) : string :=
  match v with
  | None => "undefined"
  | Some (EString s) => s
  | Some (EData b) => join_comma b
  | Some (EVendor _ _ _ _) => "[object Object]"
  end.

(** [haystack.indexOf(needle)], -1 when absent. *)
Fixpoint indexOf_from (i : Z) (haystack needle : string) : Z :=
  if String.prefix needle haystack then i
  else match haystack with
       | EmptyString => -1
       | String _ rest => indexOf_from (i + 1) rest needle
       end.

Definition indexOf (haystack needle : string) : Z := indexOf_from 0 haystack needle.

Definition strlen (s : string) : Z := Z.of_nat (String.length s).

Module SftpExtensions.
Definition POSIX_RENAME := "posix-rename@openssh.com".
Definition STATVFS := "statvfs@openssh.com".
Definition FSTATVFS := "fstatvfs@openssh.com".
Definition HARDLINK := "hardlink@openssh.com".
Definition FSYNC := "fsync@openssh.com".
Definition NEWLINE := "newline@sftp.ws".
Definition NEWLINE2 := "newline".
Definition NEWLINE3 := "newline@vandyke.com".
Definition CHARSET := "charset@sftp.ws".
Definition METADATA := "meta@sftp.ws".
Definition VERSIONS := "versions".
Definition VENDOR := "vendor-id".

(** The own property names of the class object [SftpExtensions]: its static
    fields, its static methods, and the own properties every class
    constructor has. *)
Definition ownPropertyNames : list string :=
  [ "POSIX_RENAME"; "STATVFS"; "FSTATVFS"; "HARDLINK"; "FSYNC"; "NEWLINE";
    "NEWLINE2"; "NEWLINE3"; "CHARSET"; "METADATA"; "VERSIONS"; "VENDOR";
    "isKnown"; "contains"; "write"; "read";
    "length"; "name"; "prototype" ].

(** The values of the static string fields: the extension names of the
    registry. *)
Definition registryNames : list string :=
  [ POSIX_RENAME; STATVFS; FSTATVFS; HARDLINK; FSYNC; NEWLINE; NEWLINE2;
    NEWLINE3; CHARSET; METADATA; VERSIONS; VENDOR ].

(** [SftpExtensions.hasOwnProperty(name)]. *)
Definition isKnown (name : string) : bool :=
  existsb (String.eqb name) ownPropertyNames.

Definition contains (values : option ExtValue) (value : string) : bool :=
  0 <=? indexOf ("," +:+ ext_to_string values +:+ ",") ("," +:+ value +:+ ",").

Definition write (name value : string) : PM unit :=
  run writeString name;
  writeString value.

Definition read (name : string) : PM ExtValue :=
  if String.eqb name VENDOR then
    do reader <- readStructuredData;
    on_sub reader
      (do vendorName <- readString;
       do productName <- readString;
       do productVersion <- readString;
       do productBuild <- readInt64;
       ret (EVendor vendorName productName productVersion productBuild))
  else if String.eqb name NEWLINE3 then
    do reader <- readStructuredData;
    on_sub reader (do s <- readString; ret (EString s))
  else if isKnown name then
    do s <- readString; ret (EString s)
  else
    do d <- readData true; ret (EData d).
End SftpExtensions.

Module SftpAttributeFlags.
Definition SIZE := 1.
Definition UIDGID := 2.
Definition PERMISSIONS := 4.
Definition ACMODTIME := 8.
Definition BASIC := 15.
Definition EXTENDED := 2147483648.
End SftpAttributeFlags.

Module FileType.
Definition DIRECTORY := 16384.
Definition REGULAR_FILE := 32768.
Definition SYMLINK := 40960.
Definition ALL := 61440.
End FileType.

(** A [Date] is its time value in milliseconds. *)
Definition Date : Type := Z.

(** [IStats]: every field may be left undefined. *)
Record IStats : Type := mkStats {
  st_mode : option Z;
  st_uid : option Z;
  st_gid : option Z;
  st_size : option Z;
  st_atime : option Date;
  st_mtime : option Date;
  st_nlink : option Z
}.

(** [SftpAttributes]; a field is [None] while it is undefined ([flags] after
    [delete attrs.flags]). *)
Record SftpAttributes : Type := mkAttrs {
  a_flags : option Z;
  size : option Z;
  uid : option Z;
  gid : option Z;
  mode : option Z;
  atime : option Date;
  mtime : option Date;
  nlink : option Z
}.

(** [typeof x !== 'undefined']. *)
Definition defined {A} (o : option A) : bool :=
  match o with Some _ => true | None => false end.

(** A possibly undefined number in an integer context: [undefined] is 0. *)
Definition num (o : option Z) : Z :=
  match o with Some z => z | None => 0 end.

Module SftpAttributes_.
Import SftpAttributeFlags.

(** [new SftpAttributes()]. *)
Definition empty : SftpAttributes :=
  mkAttrs (Some 0) None None None None None None None.

(** [new SftpAttributes(reader)]. *)
Definition decode : PM SftpAttributes :=
  do flags <- readUint32;
  do size <- (if truthy (js_and flags SIZE)
              then do v <- readInt64; ret (Some v) else ret None);
  do ug <- (if truthy (js_and flags UIDGID)
            then do u <- readInt32; do g <- readInt32; ret (Some u, Some g)
            else ret (None, None));
  do mode <- (if truthy (js_and flags PERMISSIONS)
              then do v <- readUint32; ret (Some v) else ret None);
  do am <- (if truthy (js_and flags ACMODTIME)
            then do a <- readUint32; do m <- readUint32;
                 ret (Some (1000 * a), Some (1000 * m))
            else ret (None, None));
  ret (mkAttrs (Some flags) size (fst ug) (snd ug) mode (fst am) (snd am) None).

(** [date.getTime() / 1000] as [writeInt32] sees it: the shifts drop the
    fraction of the quotient.  Calling [getTime] on [undefined] is a
    [TypeError]. *)
Definition seconds (d : option Date) : PM Z :=
  match d with
  | Some ms => ret (Z.quot ms 1000)
  | None => throw ThrowTypeError
  end.

(** [attrs.write(response)]. *)
Definition write (this : SftpAttributes) : PM unit :=
  let flags := num (a_flags this) in
  run writeInt32 flags;
  run (if truthy (js_and flags SIZE) then writeInt64 (num (size this)) else ret tt);
  run (if truthy (js_and flags UIDGID)
       then run writeInt32 (num (uid this)); writeInt32 (num (gid this))
       else ret tt);
  run (if truthy (js_and flags PERMISSIONS)
       then writeInt32 (num (mode this)) else ret tt);
  run (if truthy (js_and flags ACMODTIME)
       then do a <- seconds (atime this); run writeInt32 a;
            do m <- seconds (mtime this); writeInt32 m
       else ret tt);
  if truthy (js_and flags EXTENDED) then writeInt32 0 else ret tt.

(** [attrs.from(stats)] on a fresh [new SftpAttributes()]. *)
Definition from (stats : option IStats) : SftpAttributes :=
  match stats with
  | None => empty
  | Some stats =>
      let flags := 0 in
      let '(flags, size) :=
        match st_size stats with
        | Some s => (js_or flags SIZE, Some (js_or s 0))
        | None => (flags, None)
        end in
      let '(flags, uid, gid) :=
        if defined (st_uid stats) || defined (st_gid stats)
        then (js_or flags UIDGID,
              Some (js_or (num (st_uid stats)) 0),
              Some (js_or (num (st_gid stats)) 0))
        else (flags, None, None) in
      let '(flags, mode) :=
        match st_mode stats with
        | Some m => (js_or flags PERMISSIONS, Some (js_or m 0))
        | None => (flags, None)
        end in
      let '(flags, atime, mtime) :=
        if defined (st_atime stats) || defined (st_mtime stats)
        then (js_or flags ACMODTIME, st_atime stats, st_mtime stats)
        else (flags, None, None) in
      mkAttrs (Some flags) size uid gid mode atime mtime (st_nlink stats)
  end.

Definition isDirectory (this : SftpAttributes) : bool :=
  js_and (num (mode this)) FileType.ALL =? FileType.DIRECTORY.
Definition isFile (this : SftpAttributes) : bool :=
  js_and (num (mode this)) FileType.ALL =? FileType.REGULAR_FILE.
Definition isSymbolicLink (this : SftpAttributes) : bool :=
  js_and (num (mode this)) FileType.ALL =? FileType.SYMLINK.
End SftpAttributes_.

(** ** The protocol engine ([client.ts]) *)

(** [SftpError] objects: the message, the fields that [createError] adds
    (absent on a bare [new SftpError(message)]), and in [context] the command
    context whose fields, other than the command name, [createError] copies
    onto the error. *)
Record SftpError : Type := mkError {
  message : string;
  errno : option Z;
  code : option string;
  nativeCode : option Z;
  description : option string;
  context : option SftpCommandInfo
}.

Definition SftpError_new (msg : string) : SftpError :=
  mkError msg None None None None None.

Record SftpItem : Type := mkItem {
  filename : string;
  longname : string;
  stats : SftpAttributes
}.

(** A caller-supplied callback: a function, known by an identifier, or a
    value that is not a function. *)
Inductive Callback : Type :=
  | Fn (k : nat)
  | NotAFunction.

(** The second argument a callback is invoked with. *)
Inductive Payload : Type :=
  | PUndefined
  | PNull
  | PHandle (h : SftpHandle)
  | PAttrs (a : SftpAttributes)
  | PPath (p : string)
  | PItems (items : list SftpItem)
  | PData (buf : Uint8Array) (bytesRead : Z).

(** One invocation of a callback. *)
Record Call : Type := mkCall {
  c_callback : nat;
  c_err : option SftpError;
  c_value : Payload
}.

(** The response parsers registered with [execute]: the methods
    [parseHandle] ... [parseItems], and the two closures of the source, the
    one [_init] builds (over [host] and [info]) and the one [read] and
    [parseData] build over the arguments of [parseData]. *)
Inductive Parser : Type :=
  | parseInit_ (host : nat) (info : SftpCommandInfo)
  | parseStatus_
  | parseAttribs_
  | parseHandle_
  | parsePath_
  | parseItems_
  | parseData_ (retries : Z) (h : Uint8Array) (buffer : option Uint8Array)
               (offset length position : Z).

Record SftpRequest : Type := mkRequest {
  callback : Callback;
  responseParser : Parser;
  rinfo : SftpCommandInfo
}.

(** The closures handed to [window.setTimeout(..., 0)]: each builds an error
    with [createError] and passes it to the callback. *)
Record Timer : Type := mkTimer {
  t_callback : Callback;
  t_code : Z;
  t_message : string;
  t_info : SftpCommandInfo
}.

(** The session object. [_requests] is the JavaScript array used as a table
    keyed by [request.id], which is [null] for the INIT request. *)
Record SftpClientCore : Type := mkCore {
  _sessionId : Z;
  _host : option nat;
  _id : option Z;
  _requests : gmap (option Z) SftpRequest;
  _ready : bool;
  _extensions : gmap string ExtValue;
  _features : gmap string string;
  _maxReadBlockLength : Z;
  _maxWriteBlockLength : Z;
  _bytesReceived : Z;
  _bytesSent : Z
}.

(** The session together with what it acts on: the packets handed to
    [host.send], the [host.close] calls, the timers scheduled and not yet
    run, and the callback invocations made so far, oldest first. *)
Record World : Type := mkWorld {
  this : SftpClientCore;
  sent : list (nat * Uint8Array);
  closed : list (nat * option Z);
  timers : list Timer;
  calls : list Call
}.

Abbreviation WM := (M World).

Definition upd_this (f : SftpClientCore -> SftpClientCore) (w : World) : World :=
  mkWorld (f (this w)) (sent w) (closed w) (timers w) (calls w).
Definition add_sent (x : nat * Uint8Array) (w : World) : World :=
  mkWorld (this w) (sent w ++ [x]) (closed w) (timers w) (calls w).
Definition add_closed (x : nat * option Z) (w : World) : World :=
  mkWorld (this w) (sent w) (closed w ++ [x]) (timers w) (calls w).
Definition add_timer (t : Timer) (w : World) : World :=
  mkWorld (this w) (sent w) (closed w) (timers w ++ [t]) (calls w).
Definition set_timers (ts : list Timer) (w : World) : World :=
  mkWorld (this w) (sent w) (closed w) ts (calls w).
Definition add_call (c : Call) (w : World) : World :=
  mkWorld (this w) (sent w) (closed w) (timers w) (calls w ++ [c]).

Definition set_host (h : option nat) (c : SftpClientCore) : SftpClientCore :=
  mkCore (_sessionId c) h (_id c) (_requests c) (_ready c) (_extensions c)
         (_features c) (_maxReadBlockLength c) (_maxWriteBlockLength c)
         (_bytesReceived c) (_bytesSent c).
Definition set__id (i : option Z) (c : SftpClientCore) : SftpClientCore :=
  mkCore (_sessionId c) (_host c) i (_requests c) (_ready c) (_extensions c)
         (_features c) (_maxReadBlockLength c) (_maxWriteBlockLength c)
         (_bytesReceived c) (_bytesSent c).
Definition set_requests (r : gmap (option Z) SftpRequest) (c : SftpClientCore)
  : SftpClientCore :=
  mkCore (_sessionId c) (_host c) (_id c) r (_ready c) (_extensions c)
         (_features c) (_maxReadBlockLength c) (_maxWriteBlockLength c)
         (_bytesReceived c) (_bytesSent c).
Definition set_ready (b : bool) (c : SftpClientCore) : SftpClientCore :=
  mkCore (_sessionId c) (_host c) (_id c) (_requests c) b (_extensions c)
         (_features c) (_maxReadBlockLength c) (_maxWriteBlockLength c)
         (_bytesReceived c) (_bytesSent c).
Definition set_extensions (e : gmap string ExtValue) (c : SftpClientCore)
  : SftpClientCore :=
  mkCore (_sessionId c) (_host c) (_id c) (_requests c) (_ready c) e
         (_features c) (_maxReadBlockLength c) (_maxWriteBlockLength c)
         (_bytesReceived c) (_bytesSent c).
Definition set_features (f : gmap string string) (c : SftpClientCore)
  : SftpClientCore :=
  mkCore (_sessionId c) (_host c) (_id c) (_requests c) (_ready c)
         (_extensions c) f (_maxReadBlockLength c) (_maxWriteBlockLength c)
         (_bytesReceived c) (_bytesSent c).
Definition set_bytesReceived (n : Z) (c : SftpClientCore) : SftpClientCore :=
  mkCore (_sessionId c) (_host c) (_id c) (_requests c) (_ready c)
         (_extensions c) (_features c) (_maxReadBlockLength c)
         (_maxWriteBlockLength c) n (_bytesSent c).
Definition set_bytesSent (n : Z) (c : SftpClientCore) : SftpClientCore :=
  mkCore (_sessionId c) (_host c) (_id c) (_requests c) (_ready c)
         (_extensions c) (_features c) (_maxReadBlockLength c)
         (_maxWriteBlockLength c) (_bytesReceived c) n.

(** [new SftpClientCore()], for the session id the static counter hands out. *)
Definition SftpClientCore_new (sessionId : Z) : SftpClientCore :=
  mkCore sessionId None None ∅ false ∅ ∅ (256 * 1024) (32 * 1024) 0 0.

Definition World_new (sessionId : Z) : World :=
  mkWorld (SftpClientCore_new sessionId) [] [] [] [].

Module SftpFeature.
Definition HARDLINK := "LINK".
Definition POSIX_RENAME := "POSIX_RENAME".
End SftpFeature.

(** Run writer (or reader) operations on a packet object held in a local
    variable; an exception leaves the session as it is. *)
Definition writing {A} (p : SftpPacket) (m : PM A) : WM SftpPacket :=
  fun w => match m p with
           | Ok _ p' => Ok p' w
           | Throw e _ => Throw e w
           end.

(** [callback(err, value)]. *)
Definition invoke (cb : Callback) (err : option SftpError) (v : Payload) : WM unit :=
  match cb with
  | Fn k => modify (add_call (mkCall k err v))
  | NotAFunction => throw ThrowTypeError
  end.

(** [window.setTimeout(closure, 0)]. *)
Definition setTimeout (t : Timer) : WM unit := modify (add_timer t).

(** [SftpHandle.toString]. *)
Definition hex_digit (d : Z) : string :=
  String (ascii_of_N (Z.to_N (if d <? 10 then 48 + d else 87 + d))) "".
Definition hex (b : Z) : string :=
  if b <? 16 then hex_digit b else hex_digit (b / 16) +:+ hex_digit (b mod 16).
Definition SftpHandle_toString (h : SftpHandle) : string :=
  fold_left (fun value b => (if b <? 16 then value +:+ "0" else value) +:+ hex b)
            (_handle h) "0x".

(** [createError]. *)
Definition createError (nativeCode : Z) (msg : string) (info : SftpCommandInfo)
  : SftpError :=
  let '(code, errno) :=
    if nativeCode =? SftpStatusCode.EOF then ("EOF", 1)
    else if nativeCode =? SftpStatusCode.NO_SUCH_FILE then ("ENOENT", 34)
    else if nativeCode =? SftpStatusCode.PERMISSION_DENIED then ("EACCES", 3)
    else if (nativeCode =? SftpStatusCode.OK)
            || (nativeCode =? SftpStatusCode.FAILURE)
            || (nativeCode =? SftpStatusCode.BAD_MESSAGE) then ("EFAILURE", -2)
    else if nativeCode =? SftpStatusCode.NO_CONNECTION then ("ENOTCONN", 31)
    else if nativeCode =? SftpStatusCode.CONNECTION_LOST then ("ESHUTDOWN", 46)
    else if nativeCode =? SftpStatusCode.OP_UNSUPPORTED then ("ENOSYS", 35)
    else if nativeCode =? SftpStatusCode.BAD_MESSAGE then ("ESHUTDOWN", 46)
    else ("UNKNOWN", -1) in
  let arg :=
    match path info with
    | Some (String c p) => "'" +:+ String c p +:+ "'"
    | _ => match handle info with
           | Some h => SftpHandle_toString h
           | None => ""
           end
    end in
  mkError (code +:+ ", " +:+ command info +:+ " " +:+ arg)
          (Some errno) (Some code) (Some nativeCode) (Some msg) (Some info).

(** Running a scheduled closure. *)
Definition fire (t : Timer) : WM unit :=
  invoke (t_callback t) (Some (createError (t_code t) (t_message t) (t_info t)))
         PUndefined.

(** One later scheduling turn: the oldest pending timer runs. *)
Definition turn : WM unit :=
  do w <- get;
  match timers w with
  | [] => ret tt
  | t :: rest => run modify (set_timers rest); fire t
  end.

(** [getRequest]. *)
Definition getRequest (type : PType) : WM SftpPacket :=
  do c <- gets this;
  let request := SftpPacketWriter_new (_maxWriteBlockLength c + 1024) in
  let request := set_type type request in
  let request := set_id (_id c) request in
  run (if loose_eq type SftpPacketType.INIT then
         if defined (_id c) then throw (ThrowSftpError "Already initialized")
         else modify (upd_this (set__id (Some 1)))
       else
         modify (upd_this (set__id (Some (js_and (num (_id c) + 1) 4294967295)))));
  writing request start.

(** [writeStats]. *)
Definition writeStats (attrs : option IStats) : PM unit :=
  let pattrs := SftpAttributes_.from attrs in
  SftpAttributes_.write pattrs.

(** [execute].  The logging branch only feeds the log writer and is left
    out. *)
Definition execute (request : SftpPacket) (callback : Callback)
    (responseParser : Parser) (info : SftpCommandInfo) : WM unit :=
  do c <- gets this;
  match _host c with
  | None =>
      setTimeout (mkTimer callback SftpStatusCode.NO_CONNECTION "Not connected" info)
  | Some host =>
      if defined (_requests c !! id_ request) then
        throw (ThrowSftpError "Duplicate request")
      else
        match finish request with
        | Throw e _ => throw e
        | Ok packet _ =>
            run modify (add_sent (host, packet));
            run modify (upd_this (fun c => set_bytesSent (_bytesSent c + len packet) c));
            modify (upd_this (fun c =>
              set_requests (<[id_ request := mkRequest callback responseParser info]>
                              (_requests c)) c))
        end
  end.

(** *** Response parsers

    A parser works on the response object and on the session at once. *)
Abbreviation RM := (M (SftpPacket * World)).

Definition liftP {A} (m : PM A) : RM A :=
  fun s => match m (fst s) with
           | Ok a r => Ok a (r, snd s)
           | Throw e r => Throw e (r, snd s)
           end.

Definition liftW {A} (m : WM A) : RM A :=
  fun s => match m (snd s) with
           | Ok a w => Ok a (fst s, w)
           | Throw e w => Throw e (fst s, w)
           end.

(** [response.info], which [_process] has set. *)
Definition response_info : RM SftpCommandInfo :=
  do r <- liftP get;
  match info r with
  | Some i => ret i
  | None => throw ThrowTypeError
  end.

Definition readStatus : RM (option SftpError) :=
  do nativeCode <- liftP readInt32;
  do message <- liftP readString;
  if nativeCode =? SftpStatusCode.OK then ret None
  else
    do info <- response_info;
    ret (Some (createError nativeCode message info)).

Definition readItem : PM SftpItem :=
  do filename <- readString;
  do longname <- readString;
  do stats <- SftpAttributes_.decode;
  ret (mkItem filename longname stats).

Definition checkResponse (expectedType : Z) (callback : Callback) : RM bool :=
  do r <- liftP get;
  do failed <- (if loose_eq (type_ r) SftpPacketType.STATUS then
                  do error <- readStatus;
                  match error with
                  | Some e => run liftW (invoke callback (Some e) PUndefined); ret true
                  | None => ret false
                  end
                else ret false);
  if failed then ret false
  else if loose_ne (type_ r) expectedType then
    throw (ThrowSftpError "Unexpected packet received")
  else ret true.

Definition parseStatus (callback : Callback) : RM unit :=
  do ok <- checkResponse SftpPacketType.STATUS callback;
  if negb ok then ret tt
  else liftW (invoke callback None PUndefined).

Definition delete_flags (a : SftpAttributes) : SftpAttributes :=
  mkAttrs None (size a) (uid a) (gid a) (mode a) (atime a) (mtime a) (nlink a).

Definition parseAttribs (callback : Callback) : RM unit :=
  do ok <- checkResponse SftpPacketType.ATTRS callback;
  if negb ok then ret tt
  else
    do attrs <- liftP SftpAttributes_.decode;
    let attrs := delete_flags attrs in
    liftW (invoke callback None (PAttrs attrs)).

Definition parseHandle (callback : Callback) : RM unit :=
  do ok <- checkResponse SftpPacketType.HANDLE callback;
  if negb ok then ret tt
  else
    do handle <- liftP (readData true);
    do sid <- liftW (gets (fun w => _sessionId (this w)));
    liftW (invoke callback None (PHandle (mkHandle handle sid))).

Definition parsePath (callback : Callback) : RM unit :=
  do ok <- checkResponse SftpPacketType.NAME callback;
  if negb ok then ret tt
  else
    do count <- liftP readInt32;
    if negb (count =? 1) then throw (ThrowSftpError "Invalid response")
    else
      do path <- liftP readString;
      liftW (invoke callback None (PPath path)).

(** The [for] loop of [parseItems]: [n] further items. *)
Fixpoint readItems (n : nat) (items : list SftpItem) : PM (list SftpItem) :=
  match n with
  | O => ret items
  | S n' => do item <- readItem; readItems n' (items ++ [item])
  end.

Definition parseItems (callback : Callback) : RM unit :=
  do r <- liftP get;
  do done <- (if loose_eq (type_ r) SftpPacketType.STATUS then
                do error <- readStatus;
                match error with
                | Some e =>
                    run (if decide (nativeCode e = Some SftpStatusCode.EOF)
                         then liftW (invoke callback None (PItems []))
                         else liftW (invoke callback (Some e) PNull));
                    ret true
                | None => ret false
                end
              else ret false);
  if done then ret tt
  else if loose_ne (type_ r) SftpPacketType.NAME then
    throw (ThrowSftpError "Unexpected packet received")
  else
    do count <- liftP readInt32;
    do items <- liftP (readItems (Z.to_nat count) []);
    liftW (invoke callback None (PItems items)).

Definition EIO (e : SftpError) : SftpError :=
  mkError (message e) (Some 55) (Some "EIO") (nativeCode e) (description e)
          (context e).

Definition parseData (callback : Callback) (retries : Z) (h : Uint8Array)
    (buffer : option Uint8Array) (offset length position : Z) : RM unit :=
  do r <- liftP get;
  do done <- (if loose_eq (type_ r) SftpPacketType.STATUS then
                do error <- readStatus;
                match error with
                | Some e =>
                    run (if decide (nativeCode e = Some SftpStatusCode.EOF) then
                           let buffer := match buffer with
                                         | Some b => slice b offset 0
                                         | None => zeros 0
                                         end in
                           liftW (invoke callback None (PData buffer 0))
                         else liftW (invoke callback (Some e) PNull));
                    ret true
                | None => ret false
                end
              else ret false);
  if done then ret tt
  else
    do data <- liftP (readData false);
    if length <? len data then throw (ThrowSftpError "Received too much data")
    else
      let length := len data in
      if length =? 0 then
        do info <- response_info;
        if 4 <? retries then
          let error := createError SftpStatusCode.FAILURE "Unable to read data" info in
          liftW (invoke callback (Some (EIO error)) PNull)
        else
          liftW (do request <- getRequest (TNum SftpPacketType.READ);
                 do request <- writing request
                                 (run writeData h None;
                                  run writeInt64 position;
                                  writeInt32 length);
                 execute request callback
                         (parseData_ (retries + 1) h buffer offset length position)
                         info)
      else
        match buffer with
        | None => liftW (invoke callback None (PData data length))
        | Some b =>
            match Uint8Array_set b data offset with
            | None => throw ThrowRangeError
            | Some b' => liftW (invoke callback None (PData b' length))
            end
        end.

(** One pass through the body of the [while] loop of the VERSION handler.
    [val] is computed as the source computes it, and, as in the source, it is
    [value] that is stored. *)
Definition extension_step : RM unit :=
  do extensionName <- liftP readString;
  do value <- liftP (SftpExtensions.read extensionName);
  do exts <- liftW (gets (fun w => _extensions (this w)));
  let val :=
    if indexOf extensionName "@openssh.com" =? strlen extensionName - 12 then
      match exts !! extensionName with
      | None => Some value
      | Some old =>
          Some (EString (ext_to_string (Some old) +:+ "," +:+ ext_to_string (Some value)))
      end
    else None in
  liftW (modify (upd_this (fun c =>
    set_extensions (<[extensionName := value]> (_extensions c)) c))).

Fixpoint extension_loop (fuel : nat) : RM unit :=
  do r <- liftP get;
  if 4 <=? length_ r - position r then
    match fuel with
    | O => throw OutOfFuel
    | S fuel' => run extension_step; extension_loop fuel'
    end
  else ret tt.

Definition host_close (host : nat) (reason : option Z) : WM unit :=
  modify (add_closed (host, reason)).

Definition enable_feature (extension feature : string) : WM unit :=
  do c <- gets this;
  if SftpExtensions.contains (_extensions c !! extension) "1" then
    modify (upd_this (set_features (<[feature := extension]> (_features c))))
  else ret tt.

(** The response handler that [_init] registers. *)
Definition parseInit (fuel : nat) (host : nat) (info : SftpCommandInfo)
    (cb : Callback) : RM unit :=
  do r <- liftP get;
  if loose_ne (type_ r) SftpPacketType.VERSION then
    run liftW (host_close host (Some 3002));
    liftW (invoke cb (Some (SftpError_new "Protocol violation")) PUndefined)
  else
    do version <- liftP readInt32;
    if negb (version =? 3) then
      run liftW (host_close host (Some 3002));
      let error := createError SftpStatusCode.BAD_MESSAGE
                               "Unexpected protocol version" info in
      liftW (invoke cb (Some error) PUndefined)
    else
      run extension_loop fuel;
      run liftW (enable_feature SftpExtensions.HARDLINK SftpFeature.HARDLINK);
      run liftW (enable_feature SftpExtensions.POSIX_RENAME SftpFeature.POSIX_RENAME);
      run liftW (modify (upd_this (set_ready true)));
      liftW (invoke cb None PUndefined).

(** [request.responseParser.call(this, response, request.callback)]. *)
Definition runParser (fuel : nat) (p : Parser) (response : SftpPacket)
    (callback : Callback) : WM unit :=
  fun w =>
    let body :=
      match p with
      | parseInit_ host info => parseInit fuel host info callback
      | parseStatus_ => parseStatus callback
      | parseAttribs_ => parseAttribs callback
      | parseHandle_ => parseHandle callback
      | parsePath_ => parsePath callback
      | parseItems_ => parseItems callback
      | parseData_ retries h buffer offset length position =>
          parseData callback retries h buffer offset length position
      end in
    match body (response, w) with
    | Ok a s => Ok a (snd s)
    | Throw e s => Throw e (snd s)
    end.

(** [_process]; the logging branch is left out. *)
Definition _process (fuel : nat) (packet : Uint8Array) : WM unit :=
  run modify (upd_this (fun c => set_bytesReceived (_bytesReceived c + len packet) c));
  match SftpPacketReader_new packet false with
  | Throw e _ => throw e
  | Ok _ response =>
      do c <- gets this;
      match _requests c !! id_ response with
      | None => throw (ThrowSftpError "Unknown response ID")
      | Some request =>
          run modify (upd_this (fun c =>
                set_requests (delete (id_ response) (_requests c)) c));
          let response := set_info (Some (rinfo request)) response in
          runParser fuel (responseParser request) response (callback request)
      end
  end.

(** *** Argument checks *)

Definition checkCallback (callback : Callback) : WM unit :=
  match callback with
  | Fn _ => ret tt
  | NotAFunction => throw (ThrowSftpError "Callback must be a function")
  end.

(** [toHandle]; [None] is a missing (falsy) handle argument. *)
Definition toHandle (handle : option SftpHandle) : WM Uint8Array :=
  match handle with
  | None => throw (ThrowSftpError "Missing handle")
  | Some h =>
      do sid <- gets (fun w => _sessionId (this w));
      if _this h =? sid then ret (_handle h)
      else throw (ThrowSftpError "Invalid handle")
  end.

(** [checkBuffer]; [None] is a buffer argument that is not a typed array. *)
Definition checkBuffer (buffer : option Uint8Array) (offset length : Z) : WM unit :=
  match buffer with
  | None => throw (ThrowSftpError "Invalid buffer")
  | Some b =>
      if offset <? 0 then throw (ThrowSftpError "Invalid offset")
      else if length <? 0 then throw (ThrowSftpError "Invalid length")
      else if len b <? offset + length then
        throw (ThrowSftpError "Offset or length is out of bands")
      else ret tt
  end.

(** The rewriting of a leading [~] that [checkPath] does. *)
Definition expand_tilde (path : string) : string :=
  match path with
  | String "~" rest =>
      match rest with
      | String "/" _ => "." +:+ rest
      | EmptyString => "."
      | _ => path
      end
  | _ => path
  end.

Definition checkPath (path name : string) : WM string :=
  if strlen path =? 0 then throw (ThrowSftpError ("Empty " +:+ name))
  else ret (expand_tilde path).

(** [checkPosition]; the bound [0x7FFFFFFFFFFFFFFF] is the number 2^63. *)
Definition checkPosition (position : Z) : WM unit :=
  if (position <? 0) || (9223372036854775808 <? position) then
    throw (ThrowSftpError "Invalid position")
  else ret tt.

(** The first argument of [command]: an opcode, a feature name, or the
    [undefined] that [rename] passes on for unsupported flags. *)
Inductive CommandArg : Type :=
  | CNum (n : Z)
  | CStr (s : string)
  | CUndefined.

(** A value used as a property key. *)
Definition key_of (c : CommandArg) : string :=
  match c with
  | CNum n => decimal n
  | CStr s => s
  | CUndefined => "undefined"
  end.

(** [command]. *)
Definition command_ (command : CommandArg) (args : list string)
    (callback : Callback) (responseParser : Parser) (info : SftpCommandInfo)
  : WM unit :=
  do c <- gets this;
  let command : PType :=
    match command with
    | CNum n => TNum n
    | other => match _features c !! key_of other with
               | Some s => TStr s
               | None => TNull
               end
    end in
  let falsy := match command with
               | TNum n => n =? 0
               | TStr s => strlen s =? 0
               | TNull => true
               end in
  if falsy then
    setTimeout (mkTimer callback SftpStatusCode.OP_UNSUPPORTED
                        "Operation not supported" info)
  else
    do request <- getRequest command;
    do request <- writing request
                    (fold_left (fun m a => run m; writeString a) args (ret tt));
    execute request callback responseParser info.

(** *** Operations *)

Definition _init (host : nat) (callback : Callback) : WM unit :=
  do c <- gets this;
  if defined (_host c) then throw (ThrowSftpError "Already bound")
  else
    run modify (upd_this (set_host (Some host)));
    run modify (upd_this (set_extensions ∅));
    do request <- getRequest (TNum SftpPacketType.INIT);
    do request <- writing request (writeInt32 3);
    let info := info_of "init" in
    execute request callback (parseInit_ host info) info.

Definition open (path : string) (flags : FlagsArg) (attrs : option IStats)
    (callback : Callback) : WM unit :=
  run checkCallback callback;
  do path <- checkPath path "path";
  do request <- getRequest (TNum SftpPacketType.OPEN);
  do request <- writing request
                  (run writeString path;
                   do n <- liftR (SftpFlags.toNumber flags);
                   run writeInt32 n;
                   writeStats attrs);
  execute request callback parseHandle_ (info_path "open" path).

(** The handle argument as it goes into the command context. *)
Definition info_handle_arg (c : string) (handle : option SftpHandle)
  : SftpCommandInfo :=
  mkInfo c None None None None None handle None.

Definition close (handle : option SftpHandle) (callback : Callback) : WM unit :=
  run checkCallback callback;
  do h <- toHandle handle;
  do request <- getRequest (TNum SftpPacketType.CLOSE);
  do request <- writing request (writeData h None);
  execute request callback parseStatus_ (info_handle_arg "close" handle).

(** [read]; [buffer = None] is the [null] buffer the caller may pass. *)
Definition read (handle : option SftpHandle) (buffer : option Uint8Array)
    (offset length position : Z) (callback : Callback) : WM unit :=
  run checkCallback callback;
  do h <- toHandle handle;
  run (if defined buffer then checkBuffer buffer offset length else ret tt);
  run checkPosition position;
  do c <- gets this;
  let length := if _maxReadBlockLength c <? length
                then _maxReadBlockLength c else length in
  do request <- getRequest (TNum SftpPacketType.READ);
  do request <- writing request
                  (run writeData h None;
                   run writeInt64 position;
                   writeInt32 length);
  execute request callback (parseData_ 0 h buffer offset length position)
          (info_handle_arg "read" handle).

Definition write (handle : option SftpHandle) (buffer : option Uint8Array)
    (offset length position : Z) (callback : Callback) : WM unit :=
  run checkCallback callback;
  do h <- toHandle handle;
  run checkBuffer buffer offset length;
  run checkPosition position;
  do c <- gets this;
  if _maxWriteBlockLength c <? length then
    throw (ThrowSftpError "Length exceeds maximum allowed data block length")
  else
    do request <- getRequest (TNum SftpPacketType.WRITE);
    do request <- writing request
                    (run writeData h None;
                     run writeInt64 position;
                     writeData (default [] buffer) (Some (offset, offset + length)));
    execute request callback parseStatus_ (info_handle_arg "write" handle).

Definition lstat (path : string) (callback : Callback) : WM unit :=
  run checkCallback callback;
  do path <- checkPath path "path";
  command_ (CNum SftpPacketType.LSTAT) [path] callback parseAttribs_
           (info_path "lstat" path).

Definition fstat (handle : option SftpHandle) (callback : Callback) : WM unit :=
  run checkCallback callback;
  do h <- toHandle handle;
  do request <- getRequest (TNum SftpPacketType.FSTAT);
  do request <- writing request (writeData h None);
  execute request callback parseAttribs_ (info_handle_arg "fstat" handle).

Definition setstat (path : string) (attrs : option IStats) (callback : Callback)
  : WM unit :=
  run checkCallback callback;
  do path <- checkPath path "path";
  do request <- getRequest (TNum SftpPacketType.SETSTAT);
  do request <- writing request (run writeString path; writeStats attrs);
  execute request callback parseStatus_ (info_path "setstat" path).

Definition fsetstat (handle : option SftpHandle) (attrs : option IStats)
    (callback : Callback) : WM unit :=
  run checkCallback callback;
  do h <- toHandle handle;
  do request <- getRequest (TNum SftpPacketType.FSETSTAT);
  do request <- writing request (run writeData h None; writeStats attrs);
  execute request callback parseStatus_ (info_handle_arg "fsetstat" handle).

Definition opendir (path : string) (callback : Callback) : WM unit :=
  run checkCallback callback;
  do path <- checkPath path "path";
  command_ (CNum SftpPacketType.OPENDIR) [path] callback parseHandle_
           (info_path "opendir" path).

Definition readdir (handle : option SftpHandle) (callback : Callback) : WM unit :=
  run checkCallback callback;
  do h <- toHandle handle;
  do request <- getRequest (TNum SftpPacketType.READDIR);
  do request <- writing request (writeData h None);
  execute request callback parseItems_ (info_handle_arg "readdir" handle).

Definition unlink (path : string) (callback : Callback) : WM unit :=
  run checkCallback callback;
  do path <- checkPath path "path";
  command_ (CNum SftpPacketType.REMOVE) [path] callback parseStatus_
           (info_path "unlink" path).

Definition mkdir (path : string) (attrs : option IStats) (callback : Callback)
  : WM unit :=
  run checkCallback callback;
  do path <- checkPath path "path";
  do request <- getRequest (TNum SftpPacketType.MKDIR);
  do request <- writing request (run writeString path; writeStats attrs);
  execute request callback parseStatus_ (info_path "mkdir" path).

Definition rmdir (path : string) (callback : Callback) : WM unit :=
  run checkCallback callback;
  do path <- checkPath path "path";
  command_ (CNum SftpPacketType.RMDIR) [path] callback parseStatus_
           (info_path "rmdir" path).

Definition realpath (path : string) (callback : Callback) : WM unit :=
  run checkCallback callback;
  do path <- checkPath path "path";
  command_ (CNum SftpPacketType.REALPATH) [path] callback parsePath_
           (info_path "realpath" path).

Definition stat (path : string) (callback : Callback) : WM unit :=
  run checkCallback callback;
  do path <- checkPath path "path";
  command_ (CNum SftpPacketType.STAT) [path] callback parseAttribs_
           (info_path "stat" path).

Definition rename (oldPath newPath : string) (flags : Z) (callback : Callback)
  : WM unit :=
  run checkCallback callback;
  do oldPath <- checkPath oldPath "oldPath";
  do newPath <- checkPath newPath "newPath";
  let info := mkInfo "rename" None (Some oldPath) (Some newPath) None None None
                     (Some flags) in
  do command <-
    (if flags =? RenameFlags.OVERWRITE then ret (CStr SftpFeature.POSIX_RENAME)
     else if flags =? RenameFlags.NONE then ret (CNum SftpPacketType.RENAME)
     else
       run setTimeout (mkTimer callback SftpStatusCode.OP_UNSUPPORTED
                               "Unsupported rename flags" info);
       ret CUndefined);
  command_ command [oldPath; newPath] callback parseStatus_ info.

Definition readlink (path : string) (callback : Callback) : WM unit :=
  run checkCallback callback;
  do path <- checkPath path "path";
  command_ (CNum SftpPacketType.READLINK) [path] callback parsePath_
           (info_path "readlink" path).

Definition symlink (targetPath linkPath : string) (callback : Callback) : WM unit :=
  run checkCallback callback;
  do targetPath <- checkPath targetPath "targetPath";
  do linkPath <- checkPath linkPath "linkPath";
  command_ (CNum SftpPacketType.SYMLINK) [targetPath; linkPath] callback
           parseStatus_
           (mkInfo "symlink" None None None (Some targetPath) (Some linkPath)
                   None None).

Definition link (oldPath newPath : string) (callback : Callback) : WM unit :=
  run checkCallback callback;
  do oldPath <- checkPath oldPath "oldPath";
  do newPath <- checkPath newPath "newPath";
  command_ (CStr SftpFeature.HARDLINK) [oldPath; newPath] callback parseStatus_
           (mkInfo "link" None (Some oldPath) (Some newPath) None None None None).

(** The client operations, each with the arguments it takes before the
    callback. *)
Inductive Operation : Type :=
  | Open (path : string) (flags : FlagsArg) (attrs : option IStats)
  | Close (handle : option SftpHandle)
  | Read (handle : option SftpHandle) (buffer : option Uint8Array)
         (offset length position : Z)
  | Write (handle : option SftpHandle) (buffer : option Uint8Array)
          (offset length position : Z)
  | Lstat (path : string)
  | Fstat (handle : option SftpHandle)
  | Setstat (path : string) (attrs : option IStats)
  | Fsetstat (handle : option SftpHandle) (attrs : option IStats)
  | Opendir (path : string)
  | Readdir (handle : option SftpHandle)
  | Unlink (path : string)
  | Mkdir (path : string) (attrs : option IStats)
  | Rmdir (path : string)
  | Realpath (path : string)
  | Stat (path : string)
  | Rename (oldPath newPath : string) (flags : Z)
  | Readlink (path : string)
  | Symlink (targetPath linkPath : string)
  | Link (oldPath newPath : string).

(** Calling an operation with a callback. *)
Definition perform (op : Operation) (callback : Callback) : WM unit :=
  match op with
  | Open path flags attrs => open path flags attrs callback
  | Close handle => close handle callback
  | Read handle buffer offset length position =>
      read handle buffer offset length position callback
  | Write handle buffer offset length position =>
      write handle buffer offset length position callback
  | Lstat path => lstat path callback
  | Fstat handle => fstat handle callback
  | Setstat path attrs => setstat path attrs callback
  | Fsetstat handle attrs => fsetstat handle attrs callback
  | Opendir path => opendir path callback
  | Readdir handle => readdir handle callback
  | Unlink path => unlink path callback
  | Mkdir path attrs => mkdir path attrs callback
  | Rmdir path => rmdir path callback
  | Realpath path => realpath path callback
  | Stat path => stat path callback
  | Rename oldPath newPath flags => rename oldPath newPath flags callback
  | Readlink path => readlink path callback
  | Symlink targetPath linkPath => symlink targetPath linkPath callback
  | Link oldPath newPath => link oldPath newPath callback
  end.

(** *** Shutting down *)

(** [_requests] is a JavaScript array used as a table.  Only a key that is an
    array index (an integer from 0 to 2^32 - 2) makes an element of the
    array; a request stored under [null] or under a negative id is a plain
    property, which [length] and [forEach] do not see. *)
Definition is_index (k : Z) : bool := (0 <=? k) && (k <? 4294967295).

(** [requests.length]: one more than the greatest index in use. *)
Definition array_length (t : gmap (option Z) SftpRequest) : Z :=
  map_fold (fun key _ n =>
              match key with
              | Some k => if is_index k then Z.max n (k + 1) else n
              | None => n
              end) 0 t.

(** The elements [forEach] visits: the indices below [length] in ascending
    order, holes skipped. *)
Definition elements (t : gmap (option Z) SftpRequest) : list SftpRequest :=
  omap (fun k => t !! Some k) (seqZ 0 (array_length t)).

(** [array.forEach(f)]; an exception thrown by [f] ends the iteration. *)
Fixpoint forEach (l : list SftpRequest) (f : SftpRequest -> WM unit) : WM unit :=
  match l with
  | [] => ret tt
  | x :: rest => run f x; forEach rest f
  end.

(** [failRequests]. *)
Definition failRequests (code : Z) (message : string) : WM unit :=
  do c <- gets this;
  let requests := _requests c in
  run modify (upd_this (set_requests ∅));
  forEach (elements requests)
    (fun request =>
       let error := createError code message (rinfo request) in
       invoke (callback request) (Some error) PUndefined).

(** [end]. *)
Definition end_ : WM unit :=
  do c <- gets this;
  run (match _host c with
       | Some host => run modify (upd_this (set_host None)); host_close host None
       | None => ret tt
       end);
  failRequests SftpStatusCode.CONNECTION_LOST "Connection closed".

(** ** The WebSocket transport ([channel.ts]) *)

Module WebSocketChannel.

(** The error objects the channel makes: an [SftpError] with the fields the
    close handler adds to it. *)
Record ChannelError : Type := mkChannelError {
  message : string;
  code : option string;
  level : option string;
  nativeCode : option Z;
  clean : option bool
}.

(** What the channel passes on or throws: an error of its own, an exception
    that [ws.send] raised, or the [TypeError] of calling [null]. *)
Inductive Failure : Type :=
  | Own (e : ChannelError)
  | Foreign (n : nat)
  | NotCallable.

(** The channel object, together with what it has done to its socket and to
    the scheduler: the [ws.close] and [ws.send] calls, the close listeners
    scheduled by [setTimeout] with their argument, and the messages handed to
    the message listener.  [closed] is never initialised, which makes it
    falsy; [onmessage_method] tells whether [this.onmessage] is still the
    method ([close] overwrites it with [null]). *)
Record Channel : Type := mkChannel {
  established : bool;
  closed : bool;
  failed : bool;
  onclose : option nat;
  onmessage_method : bool;
  ws_onmessage : option nat;
  ws_close_calls : list (Z * option string);
  ws_sent : list Uint8Array;
  scheduled : list (nat * option Failure);
  delivered : list (nat * Uint8Array)
}.

(** [new WebSocketChannel(ws, established)]. *)
Definition new (established : bool) : Channel :=
  mkChannel established false false None true None [] [] [] [].

(** [close(reason, description)]; an exception of [ws.close] is swallowed. *)
Definition close (reason : option Z) (description : option string)
    (st : Channel) : Channel :=
  if closed st then st
  else
    let reason := match reason with
                  | Some r => if r =? 0 then 1000 else r
                  | None => 1000
                  end in
    mkChannel (established st) true (failed st) None false (ws_onmessage st)
              (ws_close_calls st ++ [(reason, description)]) (ws_sent st)
              (scheduled st) (delivered st).

Definition refused : Failure :=
  Own (mkChannelError "Connection refused" (Some "ECONNREFUSED") None None None).

(** [_close(kind, err)]: the state it leaves and the exception it throws, if
    any. *)
Definition _close (kind : Z) (err : option Failure) (st : Channel)
  : Channel * option Failure :=
  if closed st then (st, None)
  else
    let listener := onclose st in
    let st := close None None st in
    let err := match err with
               | Some e => Some e
               | None => if established st then None else Some refused
               end in
    match listener with
    | Some l =>
        (mkChannel (established st) (closed st) (failed st) (onclose st)
                   (onmessage_method st) (ws_onmessage st) (ws_close_calls st)
                   (ws_sent st) (scheduled st ++ [(l, err)]) (delivered st),
         None)
    | None => (st, err)
    end.

(** [send(packet)]; [fails] is the exception that [ws.send] raises, if it
    does. *)
Definition send (packet : Uint8Array) (fails : option nat) (st : Channel)
  : Channel * option Failure :=
  if closed st then (st, None)
  else match fails with
       | None =>
           (mkChannel (established st) (closed st) (failed st) (onclose st)
                      (onmessage_method st) (ws_onmessage st) (ws_close_calls st)
                      (ws_sent st ++ [packet]) (scheduled st) (delivered st),
            None)
       | Some n => _close 2 (Some (Foreign n)) st
       end.

(** The message and code that the [switch] of the close handler picks. *)
Definition close_text (reason : Z) (failed : bool) : string * string :=
  if reason =? 1001 then ("Endpoint is going away", "X_GOINGAWAY")
  else if reason =? 1002 then ("Protocol error", "EPROTOTYPE")
  else if reason =? 1006 then
    if failed then ("Connection refused", "ECONNREFUSED")
    else ("Connection aborted", "ECONNABORTED")
  else if reason =? 1007 then ("Invalid message", "EFAILURE")
  else if reason =? 1008 then ("Prohibited message", "EFAILURE")
  else if reason =? 1009 then ("Message too large", "EFAILURE")
  else if reason =? 1010 then ("Connection terminated", "ECONNRESET")
  else if reason =? 1011 then ("Connection reset", "ECONNRESET")
  else if reason =? 1015 then ("Unable to negotiate secure connection", "EFAILURE")
  else ("Connection failed", "EFAILURE").

(** The handler the constructor installs as [ws.onclose]. *)
Definition ws_onclose (reason : Z) (wasClean : bool) (st : Channel)
  : Channel * option Failure :=
  if reason =? 1000 then _close reason None st
  else
    let '(message, code) := close_text reason (failed st) in
    let err := Own (mkChannelError message (Some code) (Some "ws") (Some reason)
                                   (Some wasClean)) in
    _close reason (Some err) st.

(** The handler the constructor installs as [ws.onerror]. *)
Definition ws_onerror (st : Channel) : Channel :=
  mkChannel (established st) (closed st) true (onclose st) (onmessage_method st)
            (ws_onmessage st) (ws_close_calls st) (ws_sent st) (scheduled st)
            (delivered st).

(** The handler that [onmessage] installs as [ws.onmessage], run on a binary
    message. *)
Definition ws_message (packet : Uint8Array) (st : Channel) : Channel :=
  match ws_onmessage st with
  | None => st
  | Some l =>
      if closed st then st
      else mkChannel (established st) (closed st) (failed st) (onclose st)
                     (onmessage_method st) (ws_onmessage st) (ws_close_calls st)
                     (ws_sent st) (scheduled st) (delivered st ++ [(l, packet)])
  end.

(** [on(event, listener)]; [listener = None] is a value that is not a
    function. *)
Definition on (event : string) (listener : option nat) (st : Channel)
  : Channel * option Failure :=
  match listener with
  | None => (st, Some (Own (mkChannelError "Listener must be a function"
                                           None None None None)))
  | Some l =>
      if String.eqb event "message" then
        if onmessage_method st then
          (mkChannel (established st) (closed st) (failed st) (onclose st)
                     (onmessage_method st) (Some l) (ws_close_calls st)
                     (ws_sent st) (scheduled st) (delivered st), None)
        else (st, Some NotCallable)
      else if String.eqb event "close" then
        (mkChannel (established st) (closed st) (failed st) (Some l)
                   (onmessage_method st) (ws_onmessage st) (ws_close_calls st)
                   (ws_sent st) (scheduled st) (delivered st), None)
      else (st, None)
  end.

(** [_init()]. *)
Definition _init (st : Channel) : Channel :=
  mkChannel true (closed st) (failed st) None (onmessage_method st)
            (ws_onmessage st) (ws_close_calls st) (ws_sent st) (scheduled st)
            (delivered st).

(** What can happen to a channel: a call of one of its methods, or an event
    of its socket. *)
Inductive Event : Type :=
  | Close (reason : option Z) (description : option string)
  | Send (packet : Uint8Array) (fails : option nat)
  | On (event : string) (listener : option nat)
  | Init
  | SocketClosed (reason : Z) (wasClean : bool)
  | SocketError
  | SocketMessage (packet : Uint8Array).

(** The state after an event; an exception that escapes to the caller leaves
    what was done before it. *)
Definition step (st : Channel) (ev : Event) : Channel :=
  match ev with
  | Close reason description => close reason description st
  | Send packet fails => fst (send packet fails st)
  | On event listener => fst (on event listener st)
  | Init => _init st
  | SocketClosed reason wasClean => fst (ws_onclose reason wasClean st)
  | SocketError => ws_onerror st
  | SocketMessage packet => ws_message packet st
  end.

Definition play (evs : list Event) (st : Channel) : Channel :=
  fold_left step evs st.

(** Everything the channel has done to the outside. *)
Definition effects (st : Channel) :=
  (ws_close_calls st, ws_sent st, scheduled st, delivered st).

End WebSocketChannel.

(** * Vocabulary of the properties

    Definitions that the statements below use: observations of a run,
    scenarios, and the readings of the claims. *)

(** ** Open flags *)

(** Checking a decidable property on every integer of [0, n). *)
Fixpoint below (n : nat) (p : Z -> bool) : bool :=
  match n with
  | O => true
  | S n' => p (Z.of_nat n') && below n' p
  end.

Module FlagsLaws.
Import SftpFlags.

(** The case labels of the [switch] in [fromNumber]. *)
Definition case_labels : list Z := [1; 2; 3; 10; 11; 14; 15; 26; 27; 42; 43; 46; 47].

(** The mode strings of the [switch] in [toNumber]. *)
Definition mode_strings : list string :=
  ["r"; "r+"; "w"; "w+"; "wx"; "xw"; "wx+"; "xw+"; "a"; "a+"; "ax"; "xa"; "ax+"; "xa+"].

(** [toMask(fromMask(mask)[0]) == mask] after normalisation. *)
Definition mask_roundtrip (mask : Z) : Prop :=
  exists l, fromNumber mask = Value l
            /\ toNumber (FlagsStr (hd "" l)) = Value (normalize mask).

(** [fromMask(toMask(s))] contains [s]. *)
Definition mode_roundtrip (s : string) : Prop :=
  exists m l, toNumber (FlagsStr s) = Value m /\ fromNumber m = Value l /\ In s l.

(** [toMask(fromMask(mask)[0])] is [back]. *)
Definition mask_to (mask back : Z) : Prop :=
  exists l, fromNumber mask = Value l /\ toNumber (FlagsStr (hd "" l)) = Value back.

(** [fromMask(toMask(s))] is the single spelling [canonical]. *)
Definition mode_to (s canonical : string) : Prop :=
  exists m, toNumber (FlagsStr s) = Value m /\ fromNumber m = Value [canonical].
End FlagsLaws.

(** ** Reader bounds *)

(** The bytes between position and length. *)
Definition remaining (r : SftpPacket) : Z := length_ r - position r.

(** The packet with its position moved on by [n]. *)
Definition advance (n : Z) (r : SftpPacket) : SftpPacket :=
  set_position (position r + n) r.

(** The read primitives of [SftpPacketReader]. *)
Inductive Primitive : Type :=
  | Byte_ | Int16_ | Uint16_ | Int32_ | Uint32_ | Int64_ | String_
  | Data_ (clone : bool).

(** What a read primitive returns. *)
Inductive PrimValue : Type :=
  | VNum (n : Z)
  | VStr (s : string)
  | VBytes (b : Uint8Array).

(** Calling a read primitive. *)
Definition read_primitive (p : Primitive) : PM PrimValue :=
  match p with
  | Byte_ => do v <- readByte; ret (VNum v)
  | Int16_ => do v <- readInt16; ret (VNum v)
  | Uint16_ => do v <- readUint16; ret (VNum v)
  | Int32_ => do v <- readInt32; ret (VNum v)
  | Uint32_ => do v <- readUint32; ret (VNum v)
  | Int64_ => do v <- readInt64; ret (VNum v)
  | String_ => do v <- readString; ret (VStr v)
  | Data_ clone => do v <- readData clone; ret (VBytes v)
  end.

(** The octet at index [i] of a typed array. *)
Definition octet (b : Uint8Array) (i : Z) : Z := js_index b i mod 256.

(** The length that a string or data field announces: the four bytes at the
    position, taken as an unsigned big-endian word. *)
Definition announced_length (r : SftpPacket) : Z :=
  octet (buffer r) (position r) * 16777216
  + octet (buffer r) (position r + 1) * 65536
  + octet (buffer r) (position r + 2) * 256
  + octet (buffer r) (position r + 3).

(** The number of bytes a primitive has to find between position and
    length: the width of a number, and for a string or a data block the
    length word and the bytes it announces. *)
Definition bytes_needed (p : Primitive) (r : SftpPacket) : Z :=
  match p with
  | Byte_ => 1
  | Int16_ | Uint16_ => 2
  | Int32_ | Uint32_ => 4
  | Int64_ => 8
  | String_ | Data_ _ => 4 + announced_length r
  end.

(** The primitives that begin with a length word. *)
Definition length_prefixed (p : Primitive) : bool :=
  match p with
  | String_ | Data_ _ => true
  | _ => false
  end.

(** The length word of a length-prefixed read is below 2^31. *)
Definition short_prefix (p : Primitive) (r : SftpPacket) : Prop :=
  length_prefixed p = true -> announced_length r < 2147483648.




(** ** Effects of an operation *)

(** What a caller can observe of the session's effects: the callback
    invocations, the packets sent and the timers scheduled. *)
Definition obs (w : World) : list Call * list (nat * Uint8Array) * list Timer :=
  (calls w, sent w, timers w).

(** A step that leaves all three untouched, whether it returns or throws. *)
Definition silent {A} (m : WM A) : Prop :=
  forall w, obs (state_of (m w)) = obs w.

(** Outcome of an operation in terms of the observable effects [o] it
    started from. *)
Definition op_outcome (o : list Call * list (nat * Uint8Array) * list Timer)
    {A} (res : Res World A) : Prop :=
  match res with
  | Ok _ w' =>
      calls w' = o.1.1
      /\ ((exists p, sent w' = o.1.2 ++ [p])
          \/ (sent w' = o.1.2 /\ exists t ts, timers w' = o.2 ++ t :: ts))
  | Throw _ w' => calls w' = o.1.1 /\ sent w' = o.1.2
  end.

(** An operation whose every run has such an outcome. *)
Definition well_behaved {A} (m : WM A) : Prop :=
  forall w, op_outcome (obs w) (m w).

(** A fresh session (session id 1) bound to transport 0. *)
Definition bound_session : World :=
  upd_this (set_host (Some 0%nat)) (World_new 1).

(** ** Scenarios of the protocol engine *)

(** A STATUS packet for request 1 with code EOF and the message "EOF". *)
Definition eof_status_packet : Uint8Array :=
  [0; 0; 0; 20; 101; 0; 0; 0; 1; 0; 0; 0; 1; 0; 0; 0; 3; 69; 79; 70;
   0; 0; 0; 0].

(** A session bound to transport 0 that has completed the handshake. *)
Definition ready_session : WM unit :=
  run _init 0%nat (Fn 0);
  _process 0 [0; 0; 0; 5; 2; 0; 0; 0; 3].






(** One name/value pair of a VERSION reply (both shorter than 256 bytes). *)
Definition extension_pair (name value : string) : Uint8Array :=
  [0; 0; 0; strlen name] ++ utf8_bytes name
  ++ [0; 0; 0; strlen value] ++ utf8_bytes value.

(** A VERSION reply (version 3) that announces "hardlink@openssh.com" twice,
    first with the value "1", then with the value "2". *)
Definition repeated_hardlink_reply : Uint8Array :=
  [0; 0; 0; 63; 2; 0; 0; 0; 3]
  ++ extension_pair SftpExtensions.HARDLINK "1"
  ++ extension_pair SftpExtensions.HARDLINK "2".

(** ** Request correlation *)

(** The reader that [_process] builds from a packet. *)
Definition response_of (packet : Uint8Array) : option SftpPacket :=
  match SftpPacketReader_new packet false with
  | Ok _ r => Some r
  | Throw _ _ => None
  end.

(** The request id a response packet bears. *)
Definition packet_id (packet : Uint8Array) : option (option Z) :=
  option_map id_ (response_of packet).

(** Delivering response packets one after the other. *)
Fixpoint process_all (fuel : nat) (packets : list Uint8Array) : WM unit :=
  match packets with
  | [] => ret tt
  | p :: rest => run _process fuel p; process_all fuel rest
  end.

(** Three operations issued one after the other on a ready session: a stat
    (request 1, callback 1), a realpath (request 2, callback 2) and an unlink
    (request 3, callback 3). *)
Definition three_pending : World :=
  state_of ((run ready_session;
             run stat "/a" (Fn 1);
             run realpath "/b" (Fn 2);
             unlink "/c" (Fn 3)) (World_new 1)).

(** Their responses in reverse order: STATUS(OK) for request 3, a NAME with
    the single entry "/b" for request 2, ATTRS with mode 0100644 for
    request 1. *)
Definition reverse_responses : list Uint8Array :=
  [ [0; 0; 0; 19; 101; 0; 0; 0; 3; 0; 0; 0; 0; 0; 0; 0; 2; 79; 75; 0; 0; 0; 0];
    [0; 0; 0; 25; 104; 0; 0; 0; 2; 0; 0; 0; 1; 0; 0; 0; 2; 47; 98;
     0; 0; 0; 2; 47; 98; 0; 0; 0; 0];
    [0; 0; 0; 13; 105; 0; 0; 0; 1; 0; 0; 0; 4; 0; 0; 129; 164] ].

(** ** Attributes on the wire *)

(** The four bytes that [writeInt32] stores. *)
Definition bytes32 (v : Z) : list Z :=
  [js_and (js_sar v 24) 255; js_and (js_sar v 16) 255;
   js_and (js_sar v 8) 255; js_and v 255].

(** The word that [readUint32] assembles from four bytes. *)
Definition assemble (b1 b2 b3 b4 : Z) : Z :=
  js_or (js_or (js_or (js_or 0 (js_shl (js_and b1 255) 24))
                      (js_shl (js_and b2 255) 16))
               (js_shl (js_and b3 255) 8))
        (js_and b4 255).

(** A packet whose cursor is inside its buffer. *)
Definition wf (p : SftpPacket) : Prop :=
  0 <= position p <= length_ p /\ length_ p = len (buffer p).

(** The bytes before the cursor (written so far) and from the cursor on
    (still to be read). *)
Definition out (p : SftpPacket) : list Z :=
  firstn (Z.to_nat (position p)) (buffer p).
Definition rest (p : SftpPacket) : list Z :=
  skipn (Z.to_nat (position p)) (buffer p).

(** [m] appends the bytes [bs] whenever there is room for them. *)
Definition writes (m : PM unit) (bs : list Z) : Prop :=
  forall w, wf w -> position w + len bs <= length_ w ->
    exists w', m w = Ok tt w' /\ wf w' /\ out w' = out w ++ bs
               /\ length_ w' = length_ w.

(** [m] consumes the bytes [bs] and returns [a]. *)
Definition reads {A} (m : PM A) (bs : list Z) (a : A) : Prop :=
  forall r post, wf r -> rest r = bs ++ post ->
    exists r', m r = Ok a r' /\ wf r' /\ rest r' = post.

(** What [readInt32] returns for a word that [readUint32] reads as [x]: the
    subtraction is applied to the already signed value. *)
Definition int32_image (x : Z) : Z :=
  if truthy (js_and x 2147483648) then x - 4294967296 else x.

(** Whether a flag bit is set, as the codec tests it. *)
Definition has (flags bit : Z) : bool := truthy (js_and flags bit).

(** The bytes that [write] produces for an attributes record. *)
Definition attr_fields (x : SftpAttributes) : list Z :=
  let flags := num (a_flags x) in
  bytes32 flags
  ++ (if has flags SftpAttributeFlags.SIZE
      then bytes32 (js_or (Z.quot (num (size x)) 4294967296) 0)
           ++ bytes32 (js_or (js_and (num (size x)) 4294967295) 0)
      else [])
  ++ (if has flags SftpAttributeFlags.UIDGID
      then bytes32 (num (uid x)) ++ bytes32 (num (gid x)) else [])
  ++ (if has flags SftpAttributeFlags.PERMISSIONS
      then bytes32 (num (mode x)) else [])
  ++ (if has flags SftpAttributeFlags.ACMODTIME
      then bytes32 (Z.quot (num (atime x)) 1000)
           ++ bytes32 (Z.quot (num (mtime x)) 1000)
      else [])
  ++ [].

(** The empty extended-pair count that follows them when the EXTENDED bit is
    set. *)
Definition attr_extended (x : SftpAttributes) : list Z :=
  if has (num (a_flags x)) SftpAttributeFlags.EXTENDED then bytes32 0 else [].

(** The record that [decode] builds from those bytes. *)
Definition wire_image (x : SftpAttributes) : SftpAttributes :=
  let flags := toInt32 (num (a_flags x)) in
  let size' :=
    if has flags SftpAttributeFlags.SIZE
    then Some (int32_image (toInt32 (js_or (Z.quot (num (size x)) 4294967296) 0))
               * 4294967296
               + toInt32 (js_or (js_and (num (size x)) 4294967295) 0))
    else None in
  let ug :=
    if has flags SftpAttributeFlags.UIDGID
    then (Some (int32_image (toInt32 (num (uid x)))),
          Some (int32_image (toInt32 (num (gid x)))))
    else (None, None) in
  let mode' :=
    if has flags SftpAttributeFlags.PERMISSIONS
    then Some (toInt32 (num (mode x))) else None in
  let am :=
    if has flags SftpAttributeFlags.ACMODTIME
    then (Some (1000 * toInt32 (Z.quot (num (atime x)) 1000)),
          Some (1000 * toInt32 (Z.quot (num (mtime x)) 1000)))
    else (None, None) in
  mkAttrs (Some flags) size' (fst ug) (snd ug) mode' (fst am) (snd am) None.

(** The times are there when the ACMODTIME bit announces them. *)
Definition times_present (x : SftpAttributes) : Prop :=
  has (num (a_flags x)) SftpAttributeFlags.ACMODTIME = true ->
  defined (atime x) = true /\ defined (mtime x) = true.

(** [encode]: the bytes that [write] leaves in a fresh writer of the given
    capacity; [decode_bytes]: [new SftpAttributes(reader)] on a raw reader
    over such bytes. *)
Definition encode (capacity : Z) (x : SftpAttributes) : Result Uint8Array :=
  match SftpAttributes_.write x (SftpPacketWriter_new capacity) with
  | Ok _ w => Value (subarray (buffer w) 0 (position w))
  | Throw e _ => Raised e
  end.

(** Decoding the attributes at the start of a byte sequence. *)
Definition decode_bytes (b : Uint8Array) : Result SftpAttributes :=
  match SftpPacketReader_new b true with
  | Ok _ r =>
      match SftpAttributes_.decode r with
      | Ok a _ => Value a
      | Throw e _ => Raised e
      end
  | Throw e _ => Raised e
  end.

(** [decode(encode(x))]. *)
Definition roundtrip (capacity : Z) (x : SftpAttributes) : Result SftpAttributes :=
  match encode capacity x with
  | Value b => decode_bytes b
  | Raised e => Raised e
  end.

(** A value that the 32-bit fields carry unchanged. *)
Definition in_range (v : option Z) : Prop :=
  match v with
  | Some z => 0 <= z < 2147483648
  | None => True
  end.

(** A date on a whole second that the 32-bit time fields carry unchanged. *)
Definition whole_seconds (d : option Date) : Prop :=
  match d with
  | Some ms => ms mod 1000 = 0 /\ 0 <= ms < 2147483648000
  | None => True
  end.

(** A metadata object that defines [uid] alone. *)
Definition uid_only : IStats := mkStats None (Some 5) None None None None None.

(** ** Vocabulary of the further properties *)

(** *** Words, blocks and frames on the wire *)

(** The bytes a writer operation leaves in a fresh writer of the given
    capacity. *)
Definition written (capacity : Z) (m : PM unit) : Result Uint8Array :=
  match m (SftpPacketWriter_new capacity) with
  | Ok _ w => Value (subarray (buffer w) 0 (position w))
  | Throw e _ => Raised e
  end.

(** What a reader operation returns on a raw reader over the given bytes. *)
Definition reading {A} (m : PM A) (b : Uint8Array) : Result A :=
  match SftpPacketReader_new b true with
  | Ok _ r => match m r with
              | Ok a _ => Value a
              | Throw e _ => Raised e
              end
  | Throw e _ => Raised e
  end.

(** The four bytes of the big-endian 32-bit representation of [v], and the
    eight bytes of its 64-bit representation. *)
Definition be32 (v : Z) : list Z :=
  [(v / 16777216) mod 256; (v / 65536) mod 256; (v / 256) mod 256; v mod 256].
Definition be64 (v : Z) : list Z := be32 (v / 4294967296) ++ be32 v.

(** A packet as the client builds it: a fresh writer gets its type and id,
    [start] writes the header, the body follows and [finish] fills in the
    length. *)
Definition frame (t : PType) (i : option Z) (capacity : Z) (body : PM unit)
  : Result Uint8Array :=
  match (run start; run body; finish)
          (set_id i (set_type t (SftpPacketWriter_new capacity))) with
  | Ok packet _ => Value packet
  | Throw e _ => Raised e
  end.

(** Packet types whose header carries no request id. *)
Definition unnumbered (t : Z) : bool :=
  (t =? SftpPacketType.INIT) || (t =? SftpPacketType.VERSION).

(** The header that [start] writes for a numeric packet type. *)
Definition header (t : Z) (i : option Z) : list Z :=
  bytes32 0 ++ [js_and t 255]
  ++ (if unnumbered t then []
      else bytes32 (js_or (match i with Some i => i | None => 0 end) 0)).

(** *** Open flags, every mask *)

(** What [fromNumber] promises for one mask: it returns a non-empty list of
    mode strings, [toNumber] accepts each of them and maps it to a mask that
    the normalisation leaves alone, and the normalisation is idempotent on
    the mask. *)
Definition flags_sound (mask : Z) : bool :=
  match SftpFlags.fromNumber mask with
  | Value l =>
      negb (Nat.eqb (List.length l) 0)
      && forallb (fun s => match SftpFlags.toNumber (FlagsStr s) with
                           | Value m => SftpFlags.normalize m =? m
                           | Raised _ => false
                           end) l
      && (SftpFlags.normalize (SftpFlags.normalize mask) =? SftpFlags.normalize mask)
  | Raised _ => false
  end.

(** *** Shutting down, and running without a transport *)

(** [typeof callback === 'function']. *)
Definition is_function (cb : Callback) : bool :=
  match cb with Fn _ => true | NotAFunction => false end.


(** What must not move while no transport is bound: the binding itself, the
    request table, the negotiated features, the packets sent, the transports
    closed and the callbacks invoked. *)
Definition standing (w : World) :=
  (_host (this w), _requests (this w), _features (this w),
   sent w, closed w, calls w).

(** A step that changes none of that and schedules nothing. *)
Definition quiet {A} (m : WM A) : Prop :=
  forall w, standing (state_of (m w)) = standing w
            /\ timers (state_of (m w)) = timers w.

(** A timer that reports a refusal to the callback [cb]. *)
Definition refusal (cb : Callback) (t : Timer) : Prop :=
  t_callback t = cb
  /\ (t_code t = SftpStatusCode.NO_CONNECTION
      \/ t_code t = SftpStatusCode.OP_UNSUPPORTED).

(** From [w] to [w'] nothing of that has moved, and the timers added all
    report a refusal to [cb]. *)
Definition refused (cb : Callback) (w w' : World) : Prop :=
  standing w' = standing w
  /\ exists new, timers w' = timers w ++ new /\ Forall (refusal cb) new.

(** A step that, on a session without a transport, at most schedules
    refusals for [cb]. *)
Definition refuses {A} (cb : Callback) (m : WM A) : Prop :=
  forall w, _host (this w) = None -> refused cb w (state_of (m w)).

(** The session object [c'] differs from [c] at most in the request id
    counter. *)
Definition same_but_id (c c' : SftpClientCore) : Prop :=
  c' = set__id (_id c') c.

(** A step that, on a session without a transport, changes nothing of the
    session object but the request id counter. *)
Definition idles {A} (m : WM A) : Prop :=
  forall w, _host (this w) = None ->
            same_but_id (this w) (this (state_of (m w))).

(** *** Requests and the handshake *)

(** The request that [read] registers. *)
Definition read_request (hd : SftpHandle) (n pos : Z) (k : nat) : SftpRequest :=
  mkRequest (Fn k) (parseData_ 0 (_handle hd) None 0 n pos)
            (info_handle_arg "read" (Some hd)).

(** The ids that [n] requests of one type get, one after the other. *)
Fixpoint request_ids (n : nat) (t : PType) : WM (list (option Z)) :=
  match n with
  | O => ret []
  | S n' =>
      do request <- getRequest t;
      do rest <- request_ids n' t;
      ret (id_ request :: rest)
  end.

(** The request that [_init] registers, under the [null] id. *)
Definition init_request (host k : nat) : SftpRequest :=
  mkRequest (Fn k) (parseInit_ host (info_of "init")) (info_of "init").

(** The session that [_init] leaves. *)
Definition handshaking (sid : Z) (host k : nat) : World :=
  mkWorld (mkCore sid (Some host) (Some 1)
                  (<[None := init_request host k]> ∅) false ∅ ∅
                  (256 * 1024) (32 * 1024) 0 9)
          [(host, [0; 0; 0; 5; 1; 0; 0; 0; 3])] [] [] [].

(** *** Comma-separated values *)

(** A string without a comma. *)
Fixpoint comma_free (s : string) : bool :=
  match s with
  | EmptyString => true
  | String c rest => negb (Ascii.eqb c ",") && comma_free rest
  end.

(** [s.split(",")]. *)
Fixpoint tokens (s : string) : list string :=
  match s with
  | EmptyString => [""]
  | String c rest =>
      if Ascii.eqb c "," then "" :: tokens rest
      else match tokens rest with
           | t :: ts => String c t :: ts
           | [] => [String c ""]
           end
  end.

(** *** Outcomes of an operation *)

(** The local validation of the arguments of an operation: a non-empty
    path, a handle minted by this session, a range inside the buffer, a
    position from 0 to 2^63, a known mode string (or a number) as open
    flags, and access and modification times given together. *)
Definition good_path (p : string) : bool := negb (strlen p =? 0).

Definition good_handle (w : World) (h : option SftpHandle) : bool :=
  match h with
  | Some hd => _this hd =? _sessionId (this w)
  | None => false
  end.

Definition good_range (buf : option Uint8Array) (offset requested : Z) : bool :=
  match buf with
  | Some b => (0 <=? offset) && (0 <=? requested) && (offset + requested <=? len b)
  | None => false
  end.

Definition good_position (pos : Z) : bool :=
  (0 <=? pos) && (pos <=? 9223372036854775808).

Definition good_flags (f : FlagsArg) : bool :=
  match f with
  | FlagsNum _ => true
  | FlagsStr s => existsb (String.eqb s) FlagsLaws.mode_strings
  end.

Definition good_attrs (attrs : option IStats) : bool :=
  match attrs with
  | Some st => Bool.eqb (defined (st_atime st)) (defined (st_mtime st))
  | None => true
  end.

(** The arguments of an operation pass local validation. *)
Definition valid_arguments (op : Operation) (cb : Callback) (w : World) : bool :=
  is_function cb
  && match op with
     | Open p f attrs => good_path p && good_flags f && good_attrs attrs
     | Close h | Fstat h | Readdir h => good_handle w h
     | Fsetstat h attrs => good_handle w h && good_attrs attrs
     | Read h buf offset requested pos =>
         good_handle w h
         && (negb (defined buf) || good_range buf offset requested)
         && good_position pos
     | Write h buf offset requested pos =>
         good_handle w h && good_range buf offset requested
         && good_position pos
         && (requested <=? _maxWriteBlockLength (this w))
     | Lstat p | Opendir p | Unlink p | Rmdir p | Realpath p | Stat p
     | Readlink p => good_path p
     | Setstat p attrs | Mkdir p attrs => good_path p && good_attrs attrs
     | Rename p q _ | Symlink p q | Link p q => good_path p && good_path q
     end.

(** The feature an operation depends on has been negotiated: [link] needs
    the hard-link feature, [rename] with the OVERWRITE flag the POSIX rename
    feature, and [rename] supports no flags but NONE and OVERWRITE. *)
Definition available (op : Operation) (w : World) : bool :=
  match op with
  | Link _ _ => defined (_features (this w) !! SftpFeature.HARDLINK)
  | Rename _ _ f =>
      if f =? RenameFlags.OVERWRITE
      then defined (_features (this w) !! SftpFeature.POSIX_RENAME)
      else f =? RenameFlags.NONE
  | _ => true
  end.

(** The feature table holds nothing but what the handshake can put there. *)
Definition negotiated (w : World) : Prop :=
  forall key name, _features (this w) !! key = Some name ->
    (key = SftpFeature.HARDLINK /\ name = SftpExtensions.HARDLINK)
    \/ (key = SftpFeature.POSIX_RENAME /\ name = SftpExtensions.POSIX_RENAME).

Definition handle_size (h : option SftpHandle) : Z :=
  match h with Some hd => len (_handle hd) | None => 0 end.

(** The bytes of variable size that the request of an operation carries:
    its paths, its handle and the block a [write] sends. *)
Definition payload (op : Operation) : Z :=
  match op with
  | Open p _ _ | Lstat p | Setstat p _ | Opendir p | Unlink p | Mkdir p _
  | Rmdir p | Realpath p | Stat p | Readlink p => strlen p
  | Close h | Read h _ _ _ _ | Fstat h | Fsetstat h _ | Readdir h =>
      handle_size h
  | Write h _ _ requested _ => handle_size h + requested
  | Rename p q _ | Symlink p q | Link p q => strlen p + strlen q
  end.

(** The request fits the packet buffer of the session, whose capacity is the
    maximal write block and 1024 bytes: 64 bytes are more than the fixed
    fields of any request take. *)
Definition roomy (op : Operation) (w : World) : Prop :=
  payload op + 64 <= _maxWriteBlockLength (this w) + 1024.

(** A run that ended with an exception. *)
Definition thrown {S A} (res : Res S A) : Prop :=
  match res with
  | Throw _ _ => True
  | Ok _ _ => False
  end.

(** A timer that reports the failure [code] to the callback [cb]. *)
Definition reports (cb : Callback) (code : Z) (t : Timer) : Prop :=
  t_callback t = cb /\ t_code t = code.

(** From [w] to [w'] one request went to the transport [host] and was
    registered, with the callback [cb], under the request id the session
    stood at; nothing was scheduled. *)
Definition sends (cb : Callback) (host : nat) (w w' : World) : Prop :=
  (exists packet, sent w' = sent w ++ [(host, packet)])
  /\ timers w' = timers w
  /\ exists rq, _requests (this w')
                = <[_id (this w) := rq]> (_requests (this w))
                /\ callback rq = cb.

(** From [w] to [w'] nothing was sent or registered, and the failure [code]
    was scheduled for the callback [cb]. *)
Definition declines (cb : Callback) (code : Z) (w w' : World) : Prop :=
  sent w' = sent w /\ _requests (this w') = _requests (this w)
  /\ exists new, timers w' = timers w ++ new /\ new <> []
                 /\ Forall (reports cb code) new.

(** A run that, if it ended with an exception, has changed nothing of what
    [standing] lists and has scheduled nothing. *)
Definition clean_run {A} (w : World) (res : Res World A) : Prop :=
  match res with
  | Throw _ w' => standing w' = standing w /\ timers w' = timers w
  | Ok _ _ => True
  end.

(** A step all of whose runs are such. *)
Definition clean {A} (m : WM A) : Prop :=
  forall w, negotiated w -> clean_run w (m w).

(** A writer operation that succeeds wherever [n] bytes are free, moves the
    position on by at most [n] and keeps the type and the id of the packet. *)
Definition room (n : Z) (m : PM unit) : Prop :=
  forall p, wf p -> position p + n <= length_ p ->
    exists p', m p = Ok tt p' /\ wf p'
               /\ position p <= position p' <= position p + n
               /\ length_ p' = length_ p /\ id_ p' = id_ p
               /\ type_ p' = type_ p.

(** A writer operation that throws whatever the packet. *)
Definition always_throws {A} (m : PM A) : Prop :=
  forall p, exists e p', m p = Throw e p'.

(** The shape of a request: its type, the room its body takes, and the
    place it has in the packet buffer. *)
Definition fits (ty : PType) (n : Z) (w : World) : Prop :=
  loose_eq ty SftpPacketType.INIT = false /\ 0 <= n
  /\ 9 + (if is_number ty then 0 else 4 + strlen (type_text ty)) + n
     <= _maxWriteBlockLength (this w) + 1024.

(** *** Request ids with bit 31 set *)

(** The ready session of the scenarios with its request id counter at
    2^31 - 1. *)
Definition wrapping_session : World :=
  upd_this (set__id (Some 2147483647)) (state_of (ready_session (World_new 1))).

(** Two operations issued on it: a stat with callback 1, which gets the
    request id 2^31 - 1, and a stat with callback 2, which gets the next
    id. *)
Definition two_stats : World :=
  state_of ((run stat "/a" (Fn 1); stat "/b" (Fn 2)) wrapping_session).

(** ATTRS replies (mode 0100644) that echo the id words of the two requests,
    7f ff ff ff and 80 00 00 00. *)
Definition low_reply : Uint8Array :=
  [0; 0; 0; 13; 105; 127; 255; 255; 255; 0; 0; 0; 4; 0; 0; 129; 164].
Definition high_reply : Uint8Array :=
  [0; 0; 0; 13; 105; 128; 0; 0; 0; 0; 0; 0; 4; 0; 0; 129; 164].

(** *** Replies on the wire and their results *)

(** The attributes a reply carries: each field is there or not, the owner
    as a pair of user and group id, the times (in seconds) as a pair of
    access and modification time. *)
Record WireAttrs : Type := mkWire {
  w_size : option Z;
  w_owner : option (Z * Z);
  w_mode : option Z;
  w_times : option (Z * Z)
}.

(** The presence mask that precedes the fields. *)
Definition wire_mask (a : WireAttrs) : Z :=
  (if defined (w_size a) then SftpAttributeFlags.SIZE else 0)
  + (if defined (w_owner a) then SftpAttributeFlags.UIDGID else 0)
  + (if defined (w_mode a) then SftpAttributeFlags.PERMISSIONS else 0)
  + (if defined (w_times a) then SftpAttributeFlags.ACMODTIME else 0).

(** The wire form of attributes, of a string and of a data block. *)
Definition wire_attrs (a : WireAttrs) : list Z :=
  be32 (wire_mask a)
  ++ match w_size a with Some s => be64 s | None => [] end
  ++ match w_owner a with Some (u, g) => be32 u ++ be32 g | None => [] end
  ++ match w_mode a with Some m => be32 m | None => [] end
  ++ match w_times a with Some (t1, t2) => be32 t1 ++ be32 t2 | None => [] end.

Definition wire_string (s : string) : list Z := be32 (strlen s) ++ utf8_bytes s.

Definition wire_data (d : list Z) : list Z := be32 (len d) ++ d.

(** The replies of SFTP version 3: a status with its code, message and
    language tag, a handle, a data block, a list of names (file name, long
    name, attributes) and an attribute block. *)
Inductive Reply : Type :=
  | RStatus (code : Z) (msg lang : string)
  | RHandle (h : list Z)
  | RData (d : list Z)
  | RName (entries : list (string * string * WireAttrs))
  | RAttrs (a : WireAttrs).

Definition reply_type (reply : Reply) : Z :=
  match reply with
  | RStatus _ _ _ => SftpPacketType.STATUS
  | RHandle _ => SftpPacketType.HANDLE
  | RData _ => SftpPacketType.DATA
  | RName _ => SftpPacketType.NAME
  | RAttrs _ => SftpPacketType.ATTRS
  end.

Definition wire_entry (e : string * string * WireAttrs) : list Z :=
  wire_string e.1.1 ++ wire_string e.1.2 ++ wire_attrs e.2.

Definition reply_body (reply : Reply) : list Z :=
  match reply with
  | RStatus code msg lang => be32 code ++ wire_string msg ++ wire_string lang
  | RHandle h => wire_data h
  | RData d => wire_data d
  | RName entries => be32 (Z.of_nat (length entries))
                     ++ concat (map wire_entry entries)
  | RAttrs a => wire_attrs a
  end.

(** The packet that answers the request [id] with [reply]: the length of
    what follows, the type, the id and the body. *)
Definition reply_packet (a : Z * Reply) : Uint8Array :=
  let content := [reply_type a.2] ++ be32 a.1 ++ reply_body a.2 in
  be32 (len content) ++ content.

(** Numbers that the reader returns as they stand: 32-bit fields below 2^31,
    and a safe size whose low word is below 2^31. *)
Definition wire_ok (a : WireAttrs) : Prop :=
  match w_size a with
  | Some s => 0 <= s < 9007199254740992 /\ s mod 4294967296 < 2147483648
  | None => True
  end
  /\ match w_owner a with
     | Some (u, g) => 0 <= u < 2147483648 /\ 0 <= g < 2147483648
     | None => True
     end
  /\ match w_mode a with Some m => 0 <= m < 2147483648 | None => True end
  /\ match w_times a with
     | Some (t1, t2) => 0 <= t1 < 2147483648 /\ 0 <= t2 < 2147483648
     | None => True
     end.

Definition reply_ok (reply : Reply) : Prop :=
  match reply with
  | RStatus code _ _ => 0 <= code < 2147483648
  | RName entries => Forall (fun e => wire_ok e.2) entries
  | RAttrs a => wire_ok a
  | _ => True
  end.

(** The record that stands for the attributes [a]: with the mask, as a
    directory entry has it, and without it, as [stat] hands it out.  Times
    are in milliseconds. *)
Definition stats_of (mask : option Z) (a : WireAttrs) : SftpAttributes :=
  mkAttrs mask (w_size a)
          (option_map fst (w_owner a)) (option_map snd (w_owner a))
          (w_mode a)
          (option_map (fun t => 1000 * fst t) (w_times a))
          (option_map (fun t => 1000 * snd t) (w_times a))
          None.

Definition item_of (e : string * string * WireAttrs) : SftpItem :=
  mkItem e.1.1 e.1.2 (stats_of (Some (wire_mask e.2)) e.2).

(** The result that a reply gives the operation whose registered parser is
    [p] and whose command context is [i], on the session [sid]: the error
    and the value for the callback; [None] where the reply does not complete
    the operation (a reply of the wrong type, a name list that is not a
    single name for a path, an empty or overlong data block, a block that
    does not fit the caller's buffer). *)
Definition outcome (sid : Z) (p : Parser) (i : SftpCommandInfo) (reply : Reply)
  : option (option SftpError * Payload) :=
  match reply with
  | RStatus code msg _ =>
      if code =? SftpStatusCode.OK then
        match p with
        | parseStatus_ => Some (None, PUndefined)
        | _ => None
        end
      else
        match p with
        | parseStatus_ | parseAttribs_ | parseHandle_ | parsePath_ =>
            Some (Some (createError code msg i), PUndefined)
        | parseItems_ =>
            if code =? SftpStatusCode.EOF then Some (None, PItems [])
            else Some (Some (createError code msg i), PNull)
        | parseData_ _ _ _ _ _ _ =>
            if code =? SftpStatusCode.EOF then Some (None, PData [] 0)
            else Some (Some (createError code msg i), PNull)
        | parseInit_ _ _ => None
        end
  | RHandle h =>
      match p with
      | parseHandle_ => Some (None, PHandle (mkHandle h sid))
      | _ => None
      end
  | RAttrs a =>
      match p with
      | parseAttribs_ => Some (None, PAttrs (stats_of None a))
      | _ => None
      end
  | RName entries =>
      match p with
      | parsePath_ =>
          match entries with
          | [e] => Some (None, PPath e.1.1)
          | _ => None
          end
      | parseItems_ => Some (None, PItems (map item_of entries))
      | _ => None
      end
  | RData d =>
      match p with
      | parseData_ _ _ buf offset requested _ =>
          if (len d =? 0) || (requested <? len d) then None
          else match buf with
               | None => Some (None, PData d (len d))
               | Some b =>
                   match Uint8Array_set b d offset with
                   | Some b' => Some (None, PData b' (len d))
                   | None => None
                   end
               end
      | _ => None
      end
  end.

(** The callback invocation that the answer [a] (a request id and a reply)
    is to produce on the session [w]: the callback registered under the id,
    with the result of the reply for the operation registered there. *)
Definition completion (w : World) (a : Z * Reply) : option Call :=
  match _requests (this w) !! Some a.1 with
  | Some rq =>
      match callback rq,
            outcome (_sessionId (this w)) (responseParser rq) (rinfo rq) a.2 with
      | Fn k, Some (err, v) => Some (mkCall k err v)
      | _, _ => None
      end
  | None => None
  end.

(** An answer whose request id is below 2^31, whose numbers are in range
    and whose packet is shorter than 2^31 bytes. *)
Definition deliverable (a : Z * Reply) : Prop :=
  0 <= a.1 < 2147483648 /\ reply_ok a.2 /\ len (reply_packet a) < 2147483648.

(** The table of pending requests once the answers have been taken out. *)
Definition answered (t : gmap (option Z) SftpRequest) (answers : list (Z * Reply))
  : gmap (option Z) SftpRequest :=
  foldl (fun t a => delete (Some a.1) t) t answers.

(** Answers, in reverse order of the requests, to the three operations of
    [three_pending]: success for the unlink, the name "/b" for the realpath,
    attributes with mode 0100644 for the stat. *)
Definition reverse_answers : list (Z * Reply) :=
  [ (3, RStatus SftpStatusCode.OK "OK" "");
    (2, RName [("/b", "/b", mkWire None None None None)]);
    (1, RAttrs (mkWire None None (Some 33188) None)) ].

(** * Properties *)

(** ** Integer operators *)

Lemma toInt32_range x : -2147483648 <= toInt32 x < 2147483648.
Proof. unfold toInt32. pose proof (Z.mod_pos_bound (x + 2147483648) 4294967296). lia. Qed.

Lemma toInt32_small x : -2147483648 <= x < 2147483648 -> toInt32 x = x.
Proof. intros H. unfold toInt32. rewrite Z.mod_small; lia. Qed.

Lemma js_or_0_r x : js_or x 0 = toInt32 x.
Proof. unfold js_or. change (toInt32 0) with 0. apply Z.lor_0_r. Qed.

Lemma js_or_0_l x : js_or 0 x = toInt32 x.
Proof. unfold js_or. change (toInt32 0) with 0. apply Z.lor_0_l. Qed.

Lemma js_and_low_bits x n :
  0 <= n < 31 -> js_and x (Z.ones n) = toInt32 x mod 2 ^ n.
Proof.
  intros Hn. unfold js_and.
  rewrite (toInt32_small (Z.ones n)).
  - apply Z.land_ones. lia.
  - rewrite Z.ones_equiv.
    assert (0 < 2 ^ n) by (apply Z.pow_pos_nonneg; lia).
    assert (2 ^ n <= 2 ^ 30) by (apply Z.pow_le_mono_r; lia).
    change (2 ^ 30) with 1073741824 in *. lia.
Qed.

Lemma below_spec n p : below n p = true -> forall x, 0 <= x < Z.of_nat n -> p x = true.
Proof.
  induction n as [|n IH]; simpl; intros H x Hx; [lia|].
  apply andb_true_iff in H as [H1 H2].
  destruct (Z.eq_dec x (Z.of_nat n)) as [->|Hne]; [exact H1|].
  apply IH; [exact H2 | lia].
Qed.

(** ** Open flags (claim C2) *)

Lemma normalize_masks flags :
  SftpFlags.normalize flags = SftpFlags.normalize (toInt32 flags mod 64).
Proof.
  unfold SftpFlags.normalize.
  assert (H : js_and flags SftpOpenFlags.ALL = toInt32 flags mod 64)
    by (apply (js_and_low_bits flags 6); lia).
  rewrite H.
  assert (H' : js_and (toInt32 flags mod 64) SftpOpenFlags.ALL = toInt32 flags mod 64).
  { change SftpOpenFlags.ALL with (Z.ones 6). rewrite js_and_low_bits by lia.
    pose proof (Z.mod_pos_bound (toInt32 flags) 64).
    rewrite toInt32_small by lia. change (2 ^ 6) with 64.
    apply Z.mod_mod. lia. }
  rewrite H'. reflexivity.
Qed.

(** Normalisation always lands on one of the case labels, so the final
    [throw] of [SftpFlags.fromNumber] is never reached. *)
Lemma normalize_legal flags : In (SftpFlags.normalize flags) FlagsLaws.case_labels.
Proof.
  rewrite normalize_masks.
  pose proof (Z.mod_pos_bound (toInt32 flags) 64) as Hb.
  set (m := toInt32 flags mod 64) in *.
  assert (H : existsb (Z.eqb (SftpFlags.normalize m)) FlagsLaws.case_labels = true).
  { apply (below_spec 64 (fun m => existsb (Z.eqb (SftpFlags.normalize m))
                                           FlagsLaws.case_labels));
      [vm_compute; reflexivity | lia]. }
  apply existsb_exists in H as (x & Hin & Heq).
  apply Z.eqb_eq in Heq. rewrite Heq. exact Hin.
Qed.

Lemma fromNumber_total flags : exists l, SftpFlags.fromNumber flags = Value l.
Proof.
  unfold SftpFlags.fromNumber. pose proof (normalize_legal flags) as H.
  set (n := SftpFlags.normalize flags) in *. clearbody n.
  unfold FlagsLaws.case_labels in H.
  repeat (destruct H as [H|H]; [subst n; eexists; reflexivity|]).
  destruct H.
Qed.

(** Membership in an explicit list. *)
Ltac in_list := repeat (try (left; reflexivity); right).

(** C2, as stated, fails: the normalised mask 10 (CREATE|WRITE) is a case
    label of [fromNumber], yet going to its first mode string and back gives
    42; and the mode string "xw" does not come back from its own mask 42. *)
Lemma C2_flags_counterexample :
  In 10 FlagsLaws.case_labels /\ SftpFlags.normalize 10 = 10
  /\ ~ FlagsLaws.mask_roundtrip 10
  /\ In "xw" FlagsLaws.mode_strings
  /\ ~ FlagsLaws.mode_roundtrip "xw".
Proof.
  split; [unfold FlagsLaws.case_labels; in_list|]. split; [reflexivity|]. split.
  - intros (l & Hl & Hback). vm_compute in Hl. injection Hl as <-.
    vm_compute in Hback. discriminate.
  - split; [unfold FlagsLaws.mode_strings; in_list|].
    intros (m & l & Hm & Hl & Hin). vm_compute in Hm. injection Hm as <-.
    vm_compute in Hl. injection Hl as <-.
    destruct Hin as [H|[]]. discriminate.
Qed.

Lemma mask_roundtrip_intro mask l :
  SftpFlags.fromNumber mask = Value l ->
  SftpFlags.toNumber (FlagsStr (hd "" l)) = Value (SftpFlags.normalize mask) ->
  FlagsLaws.mask_roundtrip mask.
Proof. intros H1 H2. exists l. split; assumption. Qed.

Lemma mode_roundtrip_intro s m l :
  SftpFlags.toNumber (FlagsStr s) = Value m ->
  SftpFlags.fromNumber m = Value l -> In s l ->
  FlagsLaws.mode_roundtrip s.
Proof. intros H1 H2 H3. exists m, l. repeat split; assumption. Qed.

Ltac mask_case :=
  eapply mask_roundtrip_intro; [vm_compute; reflexivity | vm_compute; reflexivity].
Ltac mode_case :=
  eapply mode_roundtrip_intro;
    [vm_compute; reflexivity | vm_compute; reflexivity | in_list].
Ltac to_case :=
  eexists; split; [vm_compute; reflexivity | vm_compute; reflexivity].

(** C2, amended: for the normalised masks 1, 3, 14, 15, 26, 27, 42, 43, 46
    and 47, [toNumber(fromNumber(mask)[0])] is the mask again, while 2, 10 and
    11 come back as 3, 42 and 43; for the mode strings r, r+, w, w+, wx, wx+,
    a, a+, ax and ax+, [fromNumber(toNumber(s))] contains [s], while xw, xw+,
    xa and xa+ come back as the one spelling wx, wx+, ax and ax+. *)
Theorem C2_flags_law :
  Forall FlagsLaws.mask_roundtrip [1; 3; 14; 15; 26; 27; 42; 43; 46; 47]
  /\ FlagsLaws.mask_to 2 3 /\ FlagsLaws.mask_to 10 42 /\ FlagsLaws.mask_to 11 43
  /\ Forall FlagsLaws.mode_roundtrip
            ["r"; "r+"; "w"; "w+"; "wx"; "wx+"; "a"; "a+"; "ax"; "ax+"]
  /\ FlagsLaws.mode_to "xw" "wx" /\ FlagsLaws.mode_to "xw+" "wx+"
  /\ FlagsLaws.mode_to "xa" "ax" /\ FlagsLaws.mode_to "xa+" "ax+".
Proof.
  split; [repeat (constructor; [mask_case|]); constructor|].
  split; [to_case|]. split; [to_case|]. split; [to_case|].
  split; [repeat (constructor; [mode_case|]); constructor|].
  split; [to_case|]. split; [to_case|]. split; to_case.
Qed.

(** ** Extension decoding (claim C7) *)

(** No extension name of the registry is an own property name of the class,
    so [isKnown] answers [false] for every one of them. *)
Lemma isKnown_registry :
  forallb (fun name => negb (SftpExtensions.isKnown name))
          SftpExtensions.registryNames = true.
Proof. vm_compute. reflexivity. Qed.

(** C7, on the code: [isKnown] tests the property names of the class
    ([HARDLINK], ...), not the extension names they hold, so the value of the
    registry name "hardlink@openssh.com" is decoded with [readData(true)]
    into raw bytes: the value "1" comes back as the one-byte array [49], not
    as a string.  The same goes for every name of the registry other than
    "vendor-id" and "newline@vandyke.com". *)
Theorem C7_registry_name_read_as_data :
  SftpExtensions.isKnown SftpExtensions.HARDLINK = false
  /\ SftpExtensions.read SftpExtensions.HARDLINK
       (mkPacket TNull None [0; 0; 0; 1; 49] 0 5 None)
     = Ok (EData [49]) (mkPacket TNull None [0; 0; 0; 1; 49] 5 5 None)
  /\ Forall (fun name =>
               name = SftpExtensions.VENDOR \/ name = SftpExtensions.NEWLINE3
               \/ forall r, SftpExtensions.read name r
                            = (do d <- readData true; ret (EData d)) r)
            SftpExtensions.registryNames.
Proof.
  split; [vm_compute; reflexivity|]. split; [vm_compute; reflexivity|].
  unfold SftpExtensions.registryNames.
  repeat (constructor;
          [first [ left; reflexivity
                 | right; left; reflexivity
                 | right; right; intros r; reflexivity ]|]).
  constructor.
Qed.

(** ** Bounds checks of the reader *)

Lemma check_fail n r : remaining r < n -> check n r = Throw EndOfPacket r.
Proof.
  unfold remaining, check, bind, gets, throw. intros H.
  destruct (Z.ltb_spec (length_ r - position r) n); [reflexivity | lia].
Qed.

Lemma check_ok n r : n <= remaining r -> check n r = Ok tt r.
Proof.
  unfold remaining, check, bind, gets, ret. intros H.
  destruct (Z.ltb_spec (length_ r - position r) n); [lia | reflexivity].
Qed.

Lemma advance_fields n r :
  type_ (advance n r) = type_ r /\ id_ (advance n r) = id_ r
  /\ buffer (advance n r) = buffer r /\ length_ (advance n r) = length_ r
  /\ info (advance n r) = info r /\ position (advance n r) = position r + n.
Proof. repeat split. Qed.

Lemma readUint32_fail r : remaining r < 4 -> readUint32 r = Throw EndOfPacket r.
Proof. intros H. unfold readUint32, bind. rewrite check_fail by lia. reflexivity. Qed.

Lemma readUint32_ok r :
  4 <= remaining r -> exists v, readUint32 r = Ok v (advance 4 r).
Proof.
  intros H. unfold readUint32, bind. rewrite check_ok by lia.
  unfold next_byte, bind, get, modify, ret. cbn [position buffer set_position].
  eexists. f_equal. unfold advance, set_position. cbn. f_equal. lia.
Qed.

Lemma readInt32_fail r : remaining r < 4 -> readInt32 r = Throw EndOfPacket r.
Proof. intros H. unfold readInt32, bind. rewrite readUint32_fail by lia. reflexivity. Qed.

Lemma readInt32_ok r :
  4 <= remaining r -> exists v, readInt32 r = Ok v (advance 4 r).
Proof.
  intros H. destruct (readUint32_ok r H) as [v Hv].
  unfold readInt32, bind, ret. rewrite Hv. eexists. reflexivity.
Qed.

Lemma readUint16_fail r : remaining r < 2 -> readUint16 r = Throw EndOfPacket r.
Proof. intros H. unfold readUint16, bind. rewrite check_fail by lia. reflexivity. Qed.

Lemma remaining_advance n r : remaining (advance n r) = remaining r - n.
Proof. unfold remaining, advance, set_position. cbn. lia. Qed.

(** ** Scheduling of failure callbacks (claim C10) *)

Lemma silent_ret {A} (a : A) : silent (ret a).
Proof. intros w. reflexivity. Qed.

Lemma silent_throw {A} e : silent (@throw World A e).
Proof. intros w. reflexivity. Qed.

Lemma silent_bind {A B} (m : WM A) (k : A -> WM B) :
  silent m -> (forall a, silent (k a)) -> silent (bind m k).
Proof.
  intros Hm Hk w. unfold bind. specialize (Hm w).
  destruct (m w) as [a w1|e w1]; cbn in *.
  - rewrite <- Hm. apply Hk.
  - exact Hm.
Qed.

Lemma well_behaved_bind {A B} (m : WM A) (k : A -> WM B) :
  silent m -> (forall a, well_behaved (k a)) -> well_behaved (bind m k).
Proof.
  intros Hm Hk w. unfold bind. specialize (Hm w).
  destruct (m w) as [a w1|e w1]; cbn in *.
  - rewrite <- Hm. apply Hk.
  - unfold obs in Hm. injection Hm as H1 H2 H3. split; assumption.
Qed.

Lemma silent_gets {A} (f : World -> A) : silent (gets f).
Proof. intros w. reflexivity. Qed.

Lemma silent_upd_this f : silent (modify (upd_this f)).
Proof. intros w. reflexivity. Qed.

Lemma silent_writing {A} p (m : PM A) : silent (writing p m).
Proof. intros w. unfold writing. destruct (m p); reflexivity. Qed.

Lemma silent_checkCallback cb : silent (checkCallback cb).
Proof. destruct cb; [apply silent_ret | apply silent_throw]. Qed.

Lemma silent_checkPath path name : silent (checkPath path name).
Proof.
  unfold checkPath. destruct (strlen path =? 0); [apply silent_throw | apply silent_ret].
Qed.

Lemma silent_toHandle handle : silent (toHandle handle).
Proof.
  destruct handle as [h|]; [|apply silent_throw].
  apply silent_bind; [apply silent_gets|]. intros sid.
  destruct (_this h =? sid); [apply silent_ret | apply silent_throw].
Qed.

Lemma silent_checkBuffer buffer offset length : silent (checkBuffer buffer offset length).
Proof.
  destruct buffer as [b|]; [|apply silent_throw]. cbn.
  destruct (offset <? 0); [apply silent_throw|].
  destruct (length <? 0); [apply silent_throw|].
  destruct (len b <? offset + length); [apply silent_throw | apply silent_ret].
Qed.

Lemma silent_checkPosition position : silent (checkPosition position).
Proof.
  unfold checkPosition.
  destruct ((position <? 0) || (9223372036854775808 <? position));
    [apply silent_throw | apply silent_ret].
Qed.

Lemma silent_getRequest type : silent (getRequest type).
Proof.
  unfold getRequest. apply silent_bind; [apply silent_gets|]. intros c.
  apply silent_bind; [|intros; apply silent_writing].
  destruct (loose_eq type SftpPacketType.INIT).
  - destruct (defined (_id c)); [apply silent_throw | apply silent_upd_this].
  - apply silent_upd_this.
Qed.

Lemma well_behaved_setTimeout t : well_behaved (setTimeout t).
Proof.
  intros w. cbn. split; [reflexivity|]. right. split; [reflexivity|].
  exists t, []. reflexivity.
Qed.

Lemma well_behaved_throw {A} e : well_behaved (@throw World A e).
Proof. intros w. cbn. split; reflexivity. Qed.

Lemma well_behaved_execute request cb parser info :
  well_behaved (execute request cb parser info).
Proof.
  intros w. unfold execute, bind, gets.
  destruct (_host (this w)) as [host|]; [|apply well_behaved_setTimeout].
  destruct (defined (_requests (this w) !! id_ request)); [apply well_behaved_throw|].
  destruct (finish request) as [packet rq|e rq]; [|apply well_behaved_throw].
  cbn. split; [reflexivity|]. left. exists (host, packet). reflexivity.
Qed.

Lemma well_behaved_command c args cb parser info :
  well_behaved (command_ c args cb parser info).
Proof.
  unfold command_. intros w. unfold bind at 1, gets.
  match goal with |- context [getRequest ?t] => set (ty := t) end.
  clearbody ty.
  match goal with |- context [if ?b then _ else _] => destruct b end.
  - apply well_behaved_setTimeout.
  - revert w. apply well_behaved_bind; [apply silent_getRequest|]. intros request.
    apply well_behaved_bind; [apply silent_writing|]. intros request'.
    apply well_behaved_execute.
Qed.

Ltac silent_step :=
  first [ apply silent_checkCallback | apply silent_checkPath
        | apply silent_toHandle | apply silent_checkBuffer
        | apply silent_checkPosition | apply silent_getRequest
        | apply silent_writing | apply silent_gets | apply silent_ret ].

Ltac well_behaved_steps :=
  repeat first
    [ apply well_behaved_execute
    | apply well_behaved_command
    | apply well_behaved_throw
    | apply well_behaved_bind; [silent_step | intros ?] ].

Lemma well_behaved_after_timer {A} t (k : WM A) :
  well_behaved k -> well_behaved (bind (setTimeout t) (fun _ => k)).
Proof.
  intros Hk w. unfold bind. cbn.
  specialize (Hk (add_timer t w)).
  destruct (k (add_timer t w)) as [a w'|e w']; cbn in *.
  - destruct Hk as [Hc [[p Hp]|[Hs (t' & ts & Ht)]]].
    + split; [exact Hc|]. left. exists p. exact Hp.
    + split; [exact Hc|]. right. split; [exact Hs|].
      exists t, (t' :: ts). rewrite Ht. rewrite <- app_assoc. reflexivity.
  - exact Hk.
Qed.

Lemma well_behaved_rename oldPath newPath flags cb :
  well_behaved (rename oldPath newPath flags cb).
Proof.
  unfold rename.
  apply well_behaved_bind; [silent_step | intros ?].
  apply well_behaved_bind; [silent_step | intros oldPath'].
  apply well_behaved_bind; [silent_step | intros newPath'].
  destruct (flags =? RenameFlags.OVERWRITE).
  - apply well_behaved_bind; [silent_step | intros ?]. apply well_behaved_command.
  - destruct (flags =? RenameFlags.NONE).
    + apply well_behaved_bind; [silent_step | intros ?]. apply well_behaved_command.
    + intros w. unfold bind at 1. unfold bind at 1.
      change (op_outcome (obs w)
                (bind (setTimeout (mkTimer cb SftpStatusCode.OP_UNSUPPORTED
                         "Unsupported rename flags"
                         (mkInfo "rename" None (Some oldPath') (Some newPath')
                                 None None None (Some flags))))
                      (fun _ => command_ CUndefined [oldPath'; newPath'] cb
                                  parseStatus_
                                  (mkInfo "rename" None (Some oldPath')
                                          (Some newPath') None None None
                                          (Some flags))) w)).
      apply well_behaved_after_timer. apply well_behaved_command.
Qed.

Lemma well_behaved_perform op cb : well_behaved (perform op cb).
Proof.
  destruct op; cbn [perform].
  - unfold open. well_behaved_steps.
  - unfold close. well_behaved_steps.
  - unfold read. well_behaved_steps.
    apply well_behaved_bind.
    { match goal with |- context [defined ?b] => destruct (defined b) end;
        [apply silent_checkBuffer | apply silent_ret]. }
    intros ?. well_behaved_steps.
  - unfold write. well_behaved_steps.
    match goal with |- context [if ?c then _ else _] => destruct c end;
      well_behaved_steps.
  - unfold lstat. well_behaved_steps.
  - unfold fstat. well_behaved_steps.
  - unfold setstat. well_behaved_steps.
  - unfold fsetstat. well_behaved_steps.
  - unfold opendir. well_behaved_steps.
  - unfold readdir. well_behaved_steps.
  - unfold unlink. well_behaved_steps.
  - unfold mkdir. well_behaved_steps.
  - unfold rmdir. well_behaved_steps.
  - unfold realpath. well_behaved_steps.
  - unfold stat. well_behaved_steps.
  - apply well_behaved_rename.
  - unfold readlink. well_behaved_steps.
  - unfold symlink. well_behaved_steps.
  - unfold link. well_behaved_steps.
Qed.

Lemma strlen_nonempty (s : string) : s <> "" -> (strlen s =? 0) = false.
Proof.
  intros H. destruct s; [congruence|]. unfold strlen. cbn [String.length].
  apply Z.eqb_neq. lia.
Qed.

Lemma checkPath_ok path name w :
  path <> "" -> checkPath path name w = Ok (expand_tilde path) w.
Proof. intros H. unfold checkPath. rewrite strlen_nonempty by exact H. reflexivity. Qed.

(** C10: whether or not a transport is bound, [rename] with non-empty paths
    and a flags value other than NONE and OVERWRITE sends nothing and
    schedules two closures over the same callback, the first with the
    "Unsupported rename flags" error of the flags switch and the second with
    the "Operation not supported" error of [command]; when they run, the
    callback is invoked twice.  (The feature table never has an entry named
    "undefined": only "LINK" and "POSIX_RENAME" are ever stored.) *)
Theorem C10_rename_unsupported_flags (w : World) (oldPath newPath : string)
    (flags : Z) (k : nat) :
  oldPath <> "" -> newPath <> "" ->
  flags <> RenameFlags.NONE -> flags <> RenameFlags.OVERWRITE ->
  _features (this w) !! "undefined" = None ->
  let info := mkInfo "rename" None (Some (expand_tilde oldPath))
                     (Some (expand_tilde newPath)) None None None (Some flags) in
  let t1 := mkTimer (Fn k) SftpStatusCode.OP_UNSUPPORTED "Unsupported rename flags" info in
  let t2 := mkTimer (Fn k) SftpStatusCode.OP_UNSUPPORTED "Operation not supported" info in
  let c1 := mkCall k (Some (createError SftpStatusCode.OP_UNSUPPORTED
                                        "Unsupported rename flags" info)) PUndefined in
  let c2 := mkCall k (Some (createError SftpStatusCode.OP_UNSUPPORTED
                                        "Operation not supported" info)) PUndefined in
  rename oldPath newPath flags (Fn k) w
  = Ok tt (mkWorld (this w) (sent w) (closed w) (timers w ++ [t1; t2]) (calls w))
  /\ (timers w = [] ->
      (run rename oldPath newPath flags (Fn k); run turn; turn) w
      = Ok tt (mkWorld (this w) (sent w) (closed w) [] (calls w ++ [c1; c2]))).
Proof.
  intros Hold Hnew Hnone Hover Hfeat info t1 t2 c1 c2.
  assert (Hrename : rename oldPath newPath flags (Fn k) w
                    = Ok tt (mkWorld (this w) (sent w) (closed w)
                                     (timers w ++ [t1; t2]) (calls w))).
  { unfold rename, bind. cbn [checkCallback ret].
    rewrite (checkPath_ok oldPath) by exact Hold.
    rewrite (checkPath_ok newPath) by exact Hnew.
    destruct (Z.eqb_spec flags RenameFlags.OVERWRITE) as [->|_]; [congruence|].
    destruct (Z.eqb_spec flags RenameFlags.NONE) as [->|_]; [congruence|].
    unfold setTimeout, modify, ret, command_, bind, gets, add_timer.
    cbn [this key_of sent closed timers calls]. rewrite Hfeat.
    unfold setTimeout, modify, add_timer.
    cbn [this sent closed timers calls].
    rewrite <- app_assoc. reflexivity. }
  split; [exact Hrename|].
  intros Htimers. unfold bind at 1. rewrite Hrename. rewrite Htimers.
  subst t1 t2 c1 c2. rewrite app_nil_l.
  cbv beta iota delta [bind turn get modify fire invoke set_timers add_call ret
                       timers this sent closed calls
                       t_callback t_code t_message t_info].
  rewrite <- app_assoc. reflexivity.
Qed.

Lemma C10_rename_unsupported_flags_witness :
  rename "a" "~/b" 2 (Fn 7) bound_session
  = Ok tt
      (mkWorld (this bound_session) [] []
         [ mkTimer (Fn 7) 8 "Unsupported rename flags"
             (mkInfo "rename" None (Some "a") (Some "./b") None None None (Some 2));
           mkTimer (Fn 7) 8 "Operation not supported"
             (mkInfo "rename" None (Some "a") (Some "./b") None None None (Some 2)) ]
         []).
Proof.
  refine (proj1 (C10_rename_unsupported_flags bound_session
                   "a" "~/b" 2 7 _ _ _ _ _)).
  - discriminate.
  - discriminate.
  - discriminate.
  - discriminate.
  - reflexivity.
Defined.

(** ** Reading a status (claim C4) *)

Lemma readUint32_result r :
  readUint32 r = Throw EndOfPacket r \/ exists v, readUint32 r = Ok v (advance 4 r).
Proof.
  destruct (Z.leb_spec 4 (remaining r)).
  - right. apply readUint32_ok. assumption.
  - left. apply readUint32_fail. assumption.
Qed.

Lemma readInt32_info r v r' : readInt32 r = Ok v r' -> info r' = info r.
Proof.
  unfold readInt32, bind, ret.
  destruct (readUint32_result r) as [H|[u H]]; rewrite H; [discriminate|].
  intros [= _ <-]. reflexivity.
Qed.

Lemma readString_info r v r' : readString r = Ok v r' -> info r' = info r.
Proof.
  unfold readString, bind.
  destruct (readInt32 r) as [n r1|e r1] eqn:H1; [|discriminate].
  apply readInt32_info in H1.
  unfold check, bind, gets, throw, ret, get, modify.
  destruct (length_ r1 - position r1 <? n); [discriminate|].
  intros [= _ <-]. exact H1.
Qed.

(** A status response whose code is not OK becomes the error that
    [createError] builds from the code, the message and the command context. *)
Lemma readStatus_error r r1 r2 code msg i w :
  readInt32 r = Ok code r1 -> readString r1 = Ok msg r2 -> info r = Some i ->
  code <> SftpStatusCode.OK ->
  readStatus (r, w) = Ok (Some (createError code msg i)) (r2, w).
Proof.
  intros H1 H2 Hi Hcode.
  unfold readStatus, bind, liftP. cbn [fst snd]. rewrite H1. cbn [fst snd].
  rewrite H2.
  destruct (Z.eqb_spec code SftpStatusCode.OK) as [->|_]; [congruence|].
  unfold response_info, bind, liftP, get. cbn [fst snd].
  rewrite (readString_info _ _ _ H2), (readInt32_info _ _ _ H1), Hi.
  reflexivity.
Qed.

Lemma slice_to_0 (b : Uint8Array) (offset : Z) : slice b offset 0 = [].
Proof.
  unfold slice, subarray, rel_index.
  assert (Hn : 0 <= len b) by (unfold len; lia).
  change (0 <? 0) with false. cbv iota.
  replace (Z.to_nat (Z.min 0 (len b) - _)) with O; [reflexivity|].
  destruct (Z.ltb_spec offset 0); lia.
Qed.

(** C4: a read whose response is a STATUS packet carrying the EOF code (and a
    readable message) completes without error: the callback is invoked once,
    with a null error, an empty buffer and [bytesRead] 0. *)
Theorem C4_eof_status (fuel : nat) (w : World) (r r1 r2 : SftpPacket)
    (msg : string) (i : SftpCommandInfo) (k : nat) (retries : Z)
    (h : Uint8Array) (buf : option Uint8Array) (offset length position : Z) :
  type_ r = TNum SftpPacketType.STATUS ->
  readInt32 r = Ok SftpStatusCode.EOF r1 ->
  readString r1 = Ok msg r2 ->
  info r = Some i ->
  runParser fuel (parseData_ retries h buf offset length position) r (Fn k) w
  = Ok tt (add_call (mkCall k None (PData [] 0)) w).
Proof.
  intros Ht H1 H2 Hi.
  unfold runParser, parseData. unfold bind at 1. unfold liftP at 1, get at 1.
  cbn [fst snd]. rewrite Ht. change (loose_eq _ _) with true. cbv iota.
  unfold bind at 1. unfold bind at 1.
  rewrite (readStatus_error r r1 r2 SftpStatusCode.EOF msg i w H1 H2 Hi)
    by discriminate.
  cbn [nativeCode createError].
  destruct (decide (nativeCode (createError SftpStatusCode.EOF msg i)
                    = Some SftpStatusCode.EOF)) as [_|Hne];
    [|exfalso; apply Hne; reflexivity].
  assert (Hbuf : match buf with Some b => slice b offset 0 | None => zeros 0 end = [])
    by (destruct buf; [apply slice_to_0 | reflexivity]).
  rewrite Hbuf. reflexivity.
Qed.

Lemma C4_eof_status_witness :
  runParser 0 (parseData_ 0 [1] (Some [7; 7; 7; 7]) 0 4 0)
            (set_info (Some (info_of "read"))
               (state_of (SftpPacketReader_new eof_status_packet false)))
            (Fn 5) (World_new 1)
  = Ok tt (add_call (mkCall 5 None (PData [] 0)) (World_new 1)).
Proof.
  eapply (C4_eof_status 0 (World_new 1) _ _ _ "EOF" (info_of "read")).
  - reflexivity.
  - vm_compute. reflexivity.
  - vm_compute. reflexivity.
  - reflexivity.
Defined.

(** ** The empty-read workaround (claim C3) *)




(** Case analysis on every innermost scrutinee of the goal. *)
Ltac split_matches :=
  repeat (match goal with
          | |- context [match ?x with _ => _ end] =>
              lazymatch x with
              | context [match _ with _ => _ end] => fail
              | context [if _ then _ else _] => fail
              | _ => destruct x eqn:?
              end
          | |- context [if ?x then _ else _] =>
              lazymatch x with
              | context [match _ with _ => _ end] => fail
              | context [if _ then _ else _] => fail
              | _ => destruct x eqn:?
              end
          end; cbv beta iota zeta).

Lemma getRequest_table t w rq w1 :
  getRequest t w = Ok rq w1 ->
  _host (this w1) = _host (this w) /\ _requests (this w1) = _requests (this w).
Proof.
  unfold getRequest, bind, gets, modify, writing, throw.
  destruct (loose_eq t SftpPacketType.INIT).
  - destruct (defined (_id (this w))); [discriminate|].
    match goal with |- context [start ?p] => destruct (start p) end;
      [|discriminate].
    intros [= _ <-]. split; reflexivity.
  - match goal with |- context [start ?p] => destruct (start p) end;
      [|discriminate].
    intros [= _ <-]. split; reflexivity.
Qed.

(** A read that is sent registers the parser with no retries made, for the
    handle bytes, the position and the (clamped) length it asked for. *)
Lemma read_registers w w' hd buf offset requested pos k host :
  _host (this w) = Some host ->
  read (Some hd) buf offset requested pos (Fn k) w = Ok tt w' ->
  exists key,
    _requests (this w') !! key
    = Some (mkRequest (Fn k)
              (parseData_ 0 (_handle hd) buf offset
                 (if _maxReadBlockLength (this w) <? requested
                  then _maxReadBlockLength (this w) else requested) pos)
              (info_handle "read" hd)).
Proof.
  intros Hhost.
  cbv beta iota zeta delta
    [read bind checkCallback toHandle checkBuffer checkPosition execute writing
     ret gets throw modify].
  split_matches; try discriminate.
  all: match goal with
       | H : getRequest _ _ = Ok _ _ |- _ =>
           destruct (getRequest_table _ _ _ _ H) as [Hh _]
       end.
  all: try congruence.
  all: intros [= <-]; eexists; cbn; apply lookup_insert_eq.
Qed.

(** ** Repeated extensions in the VERSION reply (claim C6) *)

(** The body of the extension loop stores the value just read under the name
    just read, whatever the table held for that name before. *)
Lemma extension_step_overwrites r w name r1 value r2 :
  readString r = Ok name r1 ->
  SftpExtensions.read name r1 = Ok value r2 ->
  extension_step (r, w)
  = Ok tt (r2, upd_this (fun c => set_extensions
                                    (<[name := value]> (_extensions c)) c) w).
Proof.
  intros Hname Hvalue. unfold extension_step, bind, liftP, liftW, gets, modify.
  cbn [fst snd]. rewrite Hname. cbn [fst snd]. rewrite Hvalue. reflexivity.
Qed.

(** C6, on the code: after the handshake with a reply that repeats
    "hardlink@openssh.com" with the values "1" and "2", the extension table
    holds the later value alone (as the raw bytes [50], see C7), not the
    earlier value with the later one comma-appended: the loop computes the
    appended text in [val] and then stores [value]. *)
Theorem C6_repeated_extension_overwritten :
  match (run _init 0%nat (Fn 0); _process 2 repeated_hardlink_reply) (World_new 1) with
  | Ok _ w => Some (_extensions (this w) !! SftpExtensions.HARDLINK,
                    map c_err (calls w))
  | Throw _ _ => None
  end
  = Some (Some (EData [50]), [None]).
Proof. vm_compute. reflexivity. Qed.

(** ** Dispatch of responses *)

Ltac run_reader :=
  cbv beta iota zeta delta
    [runParser parseStatus parseAttribs parseHandle parsePath parseItems
     parseData checkResponse readStatus response_info
     bind liftP liftW get gets ret throw modify invoke
     add_call fst snd calls timers this sent closed app
     World_new SftpClientCore_new _sessionId delete_flags].

(** Dispatch: the entry under the response's id is removed, its command
    context is attached to the response, and its parser runs with its
    callback. *)
Lemma _process_dispatch fuel packet w r rq :
  response_of packet = Some r ->
  _requests (this w) !! id_ r = Some rq ->
  _process fuel packet w
  = runParser fuel (responseParser rq) (set_info (Some (rinfo rq)) r) (callback rq)
      (upd_this (fun c => set_requests (delete (id_ r) (_requests c)) c)
         (upd_this (fun c => set_bytesReceived (_bytesReceived c + len packet) c) w)).
Proof.
  unfold response_of, _process. intros Hr Hrq.
  destruct (SftpPacketReader_new packet false) as [[] r0|]; [|discriminate].
  injection Hr as ->. unfold bind, modify, gets, upd_this.
  cbn [this _requests set_bytesReceived]. rewrite Hrq. reflexivity.
Qed.


Lemma reverse_order_run :
  match process_all 0 reverse_responses three_pending with
  | Ok _ w => Some (skipn 1 (calls w), map_to_list (_requests (this w)))
  | Throw _ _ => None
  end
  = Some ([ mkCall 3 None PUndefined;
            mkCall 2 None (PPath "/b");
            mkCall 1 None (PAttrs (mkAttrs None None None None (Some 33188)
                                           None None None)) ],
          []).
Proof. vm_compute. reflexivity. Qed.

(** ** Attributes on the wire (claim C5) *)

Lemma toInt32_idem x : toInt32 (toInt32 x) = toInt32 x.
Proof. apply toInt32_small, toInt32_range. Qed.

Lemma js_and_255 a : js_and a 255 = toInt32 a mod 256.
Proof. apply (js_and_low_bits a 8). lia. Qed.

Lemma js_and_255_range a : 0 <= js_and a 255 < 256.
Proof. rewrite js_and_255. apply Z.mod_pos_bound. lia. Qed.

(** A value that is a multiple of [2^n] and a value below [2^n] have no bit
    in common, so their disjunction is their sum. *)
Lemma lor_disjoint q c n :
  0 <= n -> 0 <= c < 2 ^ n -> Z.lor (q * 2 ^ n) c = q * 2 ^ n + c.
Proof.
  intros Hn Hc.
  rewrite <- Z.shiftl_mul_pow2 by lia.
  rewrite <- (Z.mod_small c (2 ^ n)) at 1 by lia.
  rewrite <- Z.land_ones by lia.
  rewrite <- (Z.mod_small c (2 ^ n)) at 2 by lia.
  rewrite <- Z.land_ones by lia.
  symmetry. apply Z.add_nocarry_lor.
  apply Z.bits_inj'. intros i Hi. rewrite Z.bits_0, !Z.land_spec.
  destruct (Z.lt_ge_cases i n).
  - rewrite Z.shiftl_spec_low by lia. reflexivity.
  - rewrite Z.ones_spec_high by lia. rewrite !andb_false_r. reflexivity.
Qed.

Lemma toInt32_div x s :
  0 <= s -> -2147483648 <= x < 2147483648 ->
  -2147483648 <= x / 2 ^ s < 2147483648.
Proof.
  intros Hs Hx. assert (0 < 2 ^ s) by (apply Z.pow_pos_nonneg; lia).
  split.
  - apply Z.div_le_lower_bound; nia.
  - apply Z.div_lt_upper_bound; nia.
Qed.

(** A byte of [writeInt32], read back through [& 0xFF]. *)
Lemma stored_byte v s :
  0 <= s < 32 ->
  js_and (js_and (js_sar v s) 255) 255 = (toInt32 v / 2 ^ s) mod 256.
Proof.
  intros Hs. pose proof (toInt32_range v) as Hx.
  pose proof (toInt32_div (toInt32 v) s ltac:(lia) Hx) as Hd.
  rewrite (js_and_255 (js_and _ _)), (js_and_255 (js_sar v s)).
  unfold js_sar. rewrite (Z.mod_small s 32) by lia.
  rewrite Z.shiftr_div_pow2 by lia.
  rewrite (toInt32_small (toInt32 v / 2 ^ s)) by exact Hd.
  pose proof (Z.mod_pos_bound (toInt32 v / 2 ^ s) 256 ltac:(lia)).
  rewrite toInt32_small by lia. apply Z.mod_small. lia.
Qed.

Lemma stored_low_byte v : js_and (js_and v 255) 255 = toInt32 v mod 256.
Proof.
  rewrite (js_and_255 (js_and _ _)), (js_and_255 v).
  pose proof (Z.mod_pos_bound (toInt32 v) 256 ltac:(lia)).
  rewrite toInt32_small by lia. apply Z.mod_small. lia.
Qed.

Lemma js_shl_byte b s : 0 <= b < 256 -> 0 <= s <= 16 -> js_shl b s = b * 2 ^ s.
Proof.
  intros Hb Hs. unfold js_shl. rewrite (toInt32_small b) by lia.
  rewrite (Z.mod_small s 32) by lia. rewrite Z.shiftl_mul_pow2 by lia.
  assert (0 < 2 ^ s) by (apply Z.pow_pos_nonneg; lia).
  assert (2 ^ s <= 2 ^ 16) by (apply Z.pow_le_mono_r; lia).
  change (2 ^ 16) with 65536 in *. apply toInt32_small. nia.
Qed.

(** The top byte shifted into place wraps to the signed reading. *)
Lemma js_shl_top q :
  -128 <= q < 128 -> js_shl (q mod 256) 24 = q * 16777216.
Proof.
  intros Hq. pose proof (Z.mod_pos_bound q 256 ltac:(lia)) as Hb.
  unfold js_shl. rewrite (toInt32_small (q mod 256)) by lia.
  change (24 mod 32) with 24. rewrite Z.shiftl_mul_pow2 by lia.
  change (2 ^ 24) with 16777216. unfold toInt32.
  destruct (Z.lt_ge_cases q 0).
  - assert (Hm : q mod 256 = q + 256)
      by (symmetry; apply (Z.mod_unique_pos _ _ (-1)); lia).
    rewrite Hm.
    assert (Hw : ((q + 256) * 16777216 + 2147483648) mod 4294967296
                 = q * 16777216 + 2147483648)
      by (symmetry; apply (Z.mod_unique_pos _ _ 1); lia).
    rewrite Hw. lia.
  - rewrite (Z.mod_small q 256) by lia.
    rewrite Z.mod_small by lia. lia.
Qed.

Lemma assemble_bytes32 v :
  assemble (js_and (js_sar v 24) 255) (js_and (js_sar v 16) 255)
           (js_and (js_sar v 8) 255) (js_and v 255) = toInt32 v.
Proof.
  pose proof (toInt32_range v) as Hx.
  unfold assemble.
  rewrite (stored_byte v 24), (stored_byte v 16), (stored_byte v 8),
    stored_low_byte by lia.
  set (x := toInt32 v) in *.
  change (2 ^ 24) with 16777216. change (2 ^ 16) with 65536. change (2 ^ 8) with 256.
  set (q := x / 16777216).
  set (b2 := (x / 65536) mod 256). set (b1 := (x / 256) mod 256).
  set (b0 := x mod 256).
  assert (H2 : 0 <= b2 < 256) by (apply Z.mod_pos_bound; lia).
  assert (H1 : 0 <= b1 < 256) by (apply Z.mod_pos_bound; lia).
  assert (H0 : 0 <= b0 < 256) by (apply Z.mod_pos_bound; lia).
  assert (Hq : -128 <= q < 128).
  { subst q. split; [apply Z.div_le_lower_bound | apply Z.div_lt_upper_bound]; lia. }
  assert (Hsum : x = q * 16777216 + b2 * 65536 + b1 * 256 + b0).
  { subst b0 b1 b2 q.
    pose proof (Z.div_mod x 256 ltac:(lia)).
    pose proof (Z.div_mod (x / 256) 256 ltac:(lia)).
    pose proof (Z.div_mod (x / 65536) 256 ltac:(lia)).
    assert (x / 256 / 256 = x / 65536) by (rewrite Z.div_div by lia; reflexivity).
    assert (x / 65536 / 256 = x / 16777216) by (rewrite Z.div_div by lia; reflexivity).
    lia. }
  rewrite (js_shl_top q Hq), (js_shl_byte b2 16), (js_shl_byte b1 8) by lia.
  change (2 ^ 16) with 65536. change (2 ^ 8) with 256.
  rewrite js_or_0_l. rewrite (toInt32_small (q * 16777216)) by lia.
  unfold js_or.
  rewrite (toInt32_small (q * 16777216)) by lia.
  rewrite (toInt32_small (b2 * 65536)) by lia.
  replace (q * 16777216) with (q * 2 ^ 24) by (change (2 ^ 24) with 16777216; lia).
  rewrite lor_disjoint by (change (2 ^ 24) with 16777216; lia).
  change (2 ^ 24) with 16777216.
  rewrite (toInt32_small (q * 16777216 + b2 * 65536)) by lia.
  rewrite (toInt32_small (b1 * 256)) by lia.
  replace (q * 16777216 + b2 * 65536) with ((q * 256 + b2) * 2 ^ 16)
    by (change (2 ^ 16) with 65536; lia).
  rewrite lor_disjoint by (change (2 ^ 16) with 65536; lia).
  change (2 ^ 16) with 65536.
  rewrite (toInt32_small ((q * 256 + b2) * 65536 + b1 * 256)) by lia.
  rewrite (toInt32_small b0) by lia.
  replace ((q * 256 + b2) * 65536 + b1 * 256)
    with ((q * 65536 + b2 * 256 + b1) * 2 ^ 8) by (change (2 ^ 8) with 256; lia).
  rewrite lor_disjoint by (change (2 ^ 8) with 256; lia).
  change (2 ^ 8) with 256. lia.
Qed.

(** *** What the writer appends and what the reader consumes *)

Lemma len_app (a b : list Z) : len (a ++ b) = len a + len b.
Proof. unfold len. rewrite length_app. lia. Qed.

Lemma len_nonneg (a : list Z) : 0 <= len a.
Proof. unfold len. lia. Qed.

Lemma out_len w : wf w -> len (out w) = position w.
Proof.
  intros [Hp Hl]. unfold out, len in *. rewrite length_take. lia.
Qed.

Lemma writes_ret : writes (ret tt) [].
Proof.
  intros w Hwf _. exists w. rewrite app_nil_r.
  split; [reflexivity|]. split; [exact Hwf|]. split; reflexivity.
Qed.

Lemma writes_bind m k bs bs' :
  writes m bs -> writes k bs' -> writes (run m; k) (bs ++ bs').
Proof.
  intros Hm Hk w Hwf Hroom. rewrite len_app in Hroom.
  pose proof (len_nonneg bs). pose proof (len_nonneg bs').
  destruct (Hm w Hwf ltac:(lia)) as (w1 & H1 & Hwf1 & Hout1 & Hlen1).
  assert (Hpos1 : position w1 = position w + len bs).
  { rewrite <- (out_len w1 Hwf1), Hout1, len_app, (out_len w Hwf). reflexivity. }
  destruct (Hk w1 Hwf1 ltac:(lia)) as (w2 & H2 & Hwf2 & Hout2 & Hlen2).
  exists w2. unfold bind. rewrite H1. split; [exact H2|]. split; [exact Hwf2|].
  split; [|congruence]. rewrite Hout2, Hout1. symmetry. apply app_assoc.
Qed.

Lemma writes_if (b : bool) m bs :
  writes m bs -> writes (if b then m else ret tt) (if b then bs else []).
Proof. destruct b; [auto | intros _; apply writes_ret]. Qed.

Lemma writes_check n m bs :
  n <= len bs -> writes m bs -> writes (run check n; m) bs.
Proof.
  intros Hn Hm w Hwf Hroom. unfold bind.
  rewrite check_ok by (unfold remaining; lia). apply Hm; assumption.
Qed.

Lemma writes_put_byte b : 0 <= b < 256 -> writes (put_byte b) [b].
Proof.
  intros Hb w [Hp Hl] Hroom. change (len [b]) with 1 in Hroom.
  unfold put_byte, modify.
  eexists. split; [reflexivity|].
  unfold wf, out, js_store, set_position, set_buffer.
  cbn [position buffer length_].
  destruct (Z.ltb_spec (position w) 0); [lia|].
  rewrite Z.mod_small by lia.
  assert (Hn : (Z.to_nat (position w) < length (buffer w))%nat)
    by (unfold len in Hl; lia).
  repeat split; try lia.
  - unfold len. rewrite length_insert. exact Hl.
  - replace (Z.to_nat (position w + 1)) with (S (Z.to_nat (position w))) by lia.
    rewrite (take_S_r _ _ b) by (apply list_lookup_insert_eq; exact Hn).
    rewrite take_insert_ge by lia. reflexivity.
Qed.

Lemma writes_writeInt32 v : writes (writeInt32 v) (bytes32 v).
Proof.
  unfold writeInt32. apply writes_check; [unfold bytes32, len; cbn; lia|].
  change (bytes32 v) with ([js_and (js_sar v 24) 255] ++ [js_and (js_sar v 16) 255]
                           ++ [js_and (js_sar v 8) 255] ++ [js_and v 255]).
  repeat apply writes_bind; apply writes_put_byte; apply js_and_255_range.
Qed.

Lemma writes_writeInt64 v :
  writes (writeInt64 v)
         (bytes32 (js_or (Z.quot v 4294967296) 0)
          ++ bytes32 (js_or (js_and v 4294967295) 0)).
Proof. unfold writeInt64. apply writes_bind; apply writes_writeInt32. Qed.

Lemma reads_ret {A} (a : A) : reads (ret a) [] a.
Proof.
  intros r post Hwf Hrest. exists r.
  split; [reflexivity|]. split; [exact Hwf | exact Hrest].
Qed.

Lemma reads_bind {A B} (m : PM A) (k : A -> PM B) bs bs' a b :
  reads m bs a -> reads (k a) bs' b -> reads (bind m k) (bs ++ bs') b.
Proof.
  intros Hm Hk r post Hwf Hrest. rewrite <- app_assoc in Hrest.
  destruct (Hm r _ Hwf Hrest) as (r1 & H1 & Hwf1 & Hrest1).
  destruct (Hk r1 _ Hwf1 Hrest1) as (r2 & H2 & Hwf2 & Hrest2).
  exists r2. unfold bind. rewrite H1.
  split; [exact H2|]. split; [exact Hwf2 | exact Hrest2].
Qed.

Lemma rest_len r : wf r -> len (rest r) = remaining r.
Proof.
  intros [Hp Hl]. unfold rest, remaining, len in *. rewrite length_drop. lia.
Qed.

Lemma reads_check {A} n (m : PM A) bs a :
  n <= len bs -> reads m bs a -> reads (run check n; m) bs a.
Proof.
  intros Hn Hm r post Hwf Hrest. unfold bind.
  rewrite check_ok.
  - apply Hm; assumption.
  - rewrite <- (rest_len r Hwf), Hrest, len_app. pose proof (len_nonneg post). lia.
Qed.

Lemma reads_next_byte b : reads next_byte [b] (js_and b 255).
Proof.
  intros r post [Hp Hl] Hrest. unfold next_byte, bind, get, modify, ret.
  unfold rest in Hrest. cbn [app] in Hrest.
  assert (Hlook : buffer r !! Z.to_nat (position r) = Some b).
  { rewrite <- (Nat.add_0_r (Z.to_nat (position r))), <- lookup_drop, Hrest.
    reflexivity. }
  pose proof (lookup_lt_Some _ _ _ Hlook) as Hn.
  eexists. split; [|split].
  - f_equal. unfold js_index. destruct (Z.ltb_spec (position r) 0); [lia|].
    rewrite nth_lookup, Hlook. reflexivity.
  - unfold wf, set_position. cbn [position buffer length_]. unfold len in *. lia.
  - unfold rest, set_position. cbn [position buffer].
    replace (Z.to_nat (position r + 1)) with (S (Z.to_nat (position r))) by lia.
    rewrite (drop_S _ b _ Hlook) in Hrest. congruence.
Qed.

Lemma reads_readUint32 v : reads readUint32 (bytes32 v) (toInt32 v).
Proof.
  unfold readUint32. apply reads_check; [unfold bytes32, len; cbn; lia|].
  rewrite <- (assemble_bytes32 v). unfold assemble.
  change (bytes32 v) with ([js_and (js_sar v 24) 255] ++ [js_and (js_sar v 16) 255]
                           ++ [js_and (js_sar v 8) 255] ++ [js_and v 255] ++ []).
  eapply reads_bind; [apply reads_next_byte|].
  eapply reads_bind; [apply reads_next_byte|].
  eapply reads_bind; [apply reads_next_byte|].
  eapply reads_bind; [apply reads_next_byte|].
  apply reads_ret.
Qed.

Lemma reads_readInt32 v : reads readInt32 (bytes32 v) (int32_image (toInt32 v)).
Proof.
  unfold readInt32. rewrite <- (app_nil_r (bytes32 v)).
  eapply reads_bind; [apply reads_readUint32 | apply reads_ret].
Qed.

Lemma reads_readInt64 hi lo :
  reads readInt64 (bytes32 hi ++ bytes32 lo)
        (int32_image (toInt32 hi) * 4294967296 + toInt32 lo).
Proof.
  unfold readInt64.
  eapply reads_bind; [apply reads_readInt32|].
  rewrite <- (app_nil_r (bytes32 lo)).
  eapply reads_bind; [apply reads_readUint32 | apply reads_ret].
Qed.

Lemma int32_image_nonneg x : 0 <= x < 2147483648 -> int32_image x = x.
Proof.
  intros Hx. unfold int32_image, truthy, js_and.
  rewrite (toInt32_small x) by lia.
  change (toInt32 2147483648) with (Z.lnot (Z.ones 31)).
  rewrite <- Z.ldiff_land, Z.ldiff_ones_r by lia.
  rewrite Z.shiftr_div_pow2 by lia. change (2 ^ 31) with 2147483648.
  rewrite Z.div_small by lia. reflexivity.
Qed.

Lemma reads_map {A B} (m : PM A) (f : A -> B) bs a :
  reads m bs a -> reads (do v <- m; ret (f v)) bs (f a).
Proof.
  intros Hm. rewrite <- (app_nil_r bs).
  eapply reads_bind; [exact Hm | apply reads_ret].
Qed.

Lemma reads_if {A} (b : bool) (m : PM A) bs a d :
  reads m bs a ->
  reads (if b then m else ret d) (if b then bs else []) (if b then a else d).
Proof. destruct b; [auto | intros _; apply reads_ret]. Qed.

(** *** Encoding and decoding attributes *)

Lemma has_toInt32 flags bit : has (toInt32 flags) bit = has flags bit.
Proof. unfold has, js_and. rewrite toInt32_idem. reflexivity. Qed.

Lemma writes_attributes x :
  times_present x ->
  writes (SftpAttributes_.write x) (attr_fields x ++ attr_extended x).
Proof.
  intros Htimes. unfold SftpAttributes_.write, attr_fields, attr_extended.
  fold (has (num (a_flags x)) SftpAttributeFlags.SIZE).
  fold (has (num (a_flags x)) SftpAttributeFlags.UIDGID).
  fold (has (num (a_flags x)) SftpAttributeFlags.PERMISSIONS).
  fold (has (num (a_flags x)) SftpAttributeFlags.ACMODTIME).
  fold (has (num (a_flags x)) SftpAttributeFlags.EXTENDED).
  cbv zeta. rewrite app_nil_r. rewrite <- !app_assoc.
  apply writes_bind; [apply writes_writeInt32|].
  apply writes_bind; [apply writes_if, writes_writeInt64|].
  apply writes_bind;
    [apply writes_if, writes_bind; apply writes_writeInt32|].
  apply writes_bind; [apply writes_if, writes_writeInt32|].
  apply writes_bind; [|apply writes_if, writes_writeInt32].
  unfold times_present in Htimes.
  destruct (has (num (a_flags x)) SftpAttributeFlags.ACMODTIME);
    [|apply writes_ret].
  destruct (Htimes eq_refl) as [Ha Hm].
  destruct (atime x) as [a|]; [|discriminate].
  destruct (mtime x) as [m|]; [|discriminate].
  cbn [SftpAttributes_.seconds num].
  intros w Hwf Hroom.
  destruct (writes_bind _ _ _ _ (writes_writeInt32 (Z.quot a 1000))
                        (writes_writeInt32 (Z.quot m 1000)) w Hwf Hroom)
    as (w' & Hw & Hrest).
  exists w'. split; [|exact Hrest]. rewrite <- Hw. reflexivity.
Qed.

Lemma reads_attributes x :
  reads SftpAttributes_.decode (attr_fields x) (wire_image x).
Proof.
  unfold SftpAttributes_.decode, attr_fields, wire_image. cbv zeta.
  rewrite <- !(has_toInt32 (num (a_flags x))).
  unfold has.
  eapply reads_bind; [apply reads_readUint32|].
  eapply reads_bind; [apply reads_if, reads_map, reads_readInt64|].
  eapply reads_bind.
  { apply reads_if. eapply reads_bind; [apply reads_readInt32|].
    apply reads_map, reads_readInt32. }
  eapply reads_bind; [apply reads_if, reads_map, reads_readUint32|].
  eapply reads_bind.
  { apply reads_if. eapply reads_bind; [apply reads_readUint32|].
    apply (reads_map _ (fun m => (Some (1000 * _), Some (1000 * m)))),
          reads_readUint32. }
  apply reads_ret.
Qed.

Lemma len_bytes32 v : len (bytes32 v) = 4.
Proof. reflexivity. Qed.

Lemma attr_bytes_len x : 4 <= len (attr_fields x ++ attr_extended x) <= 36.
Proof.
  unfold attr_fields, attr_extended. cbv zeta.
  repeat match goal with |- context [if ?b then _ else _] => destruct b end;
    rewrite ?len_app, ?len_bytes32; change (len []) with 0; lia.
Qed.

Lemma subarray_out w : wf w -> subarray (buffer w) 0 (position w) = out w.
Proof.
  intros [Hp Hl]. unfold subarray, out, rel_index.
  change (0 <? 0) with false. cbv iota.
  destruct (Z.ltb_spec (position w) 0); [lia|].
  pose proof (len_nonneg (buffer w)).
  rewrite (Z.min_l 0) by lia. rewrite Z.min_l by lia.
  rewrite Z.sub_0_r. reflexivity.
Qed.

(** Decoding the encoding of any attributes record gives its wire image. *)
Lemma codec_roundtrip capacity x :
  36 <= capacity -> times_present x ->
  roundtrip capacity x = Value (wire_image x).
Proof.
  intros Hcap Htimes. unfold roundtrip, encode.
  pose proof (attr_bytes_len x) as Hlen.
  assert (Hwf0 : wf (SftpPacketWriter_new capacity)).
  { unfold wf, SftpPacketWriter_new, zeros, len. cbn [position length_ buffer].
    rewrite repeat_length. lia. }
  destruct (writes_attributes x Htimes _ Hwf0) as (w & Hw & Hwf & Hout & _).
  { cbn [position length_ SftpPacketWriter_new]. lia. }
  rewrite Hw. rewrite (subarray_out w Hwf), Hout.
  change (out (SftpPacketWriter_new capacity)) with (@nil Z). rewrite app_nil_l.
  unfold decode_bytes, SftpPacketReader_new.
  set (b := attr_fields x ++ attr_extended x).
  destruct (reads_attributes x (mkPacket TNull None b 0 (len b) None)
                             (attr_extended x)) as (r & Hr & _).
  - unfold wf. cbn [position length_ buffer]. pose proof (len_nonneg b). lia.
  - reflexivity.
  - rewrite Hr. reflexivity.
Qed.

(** *** Attributes built from metadata *)

Lemma from_has stats :
  let f := toInt32 (num (a_flags (SftpAttributes_.from (Some stats)))) in
  has f SftpAttributeFlags.SIZE = defined (st_size stats)
  /\ has f SftpAttributeFlags.UIDGID
     = defined (st_uid stats) || defined (st_gid stats)
  /\ has f SftpAttributeFlags.PERMISSIONS = defined (st_mode stats)
  /\ has f SftpAttributeFlags.ACMODTIME
     = defined (st_atime stats) || defined (st_mtime stats)
  /\ has f SftpAttributeFlags.EXTENDED = false.
Proof.
  destruct stats as [[m|] [u|] [g|] [s|] [a|] [t|] n];
    cbv zeta; repeat split; vm_compute; reflexivity.
Qed.

Lemma from_fields stats :
  let x := SftpAttributes_.from (Some stats) in
  size x = option_map (fun s => js_or s 0) (st_size stats)
  /\ uid x = (if defined (st_uid stats) || defined (st_gid stats)
              then Some (js_or (num (st_uid stats)) 0) else None)
  /\ gid x = (if defined (st_uid stats) || defined (st_gid stats)
              then Some (js_or (num (st_gid stats)) 0) else None)
  /\ mode x = option_map (fun m => js_or m 0) (st_mode stats)
  /\ atime x = (if defined (st_atime stats) || defined (st_mtime stats)
                then st_atime stats else None)
  /\ mtime x = (if defined (st_atime stats) || defined (st_mtime stats)
                then st_mtime stats else None).
Proof.
  destruct stats as [[m|] [u|] [g|] [s|] [a|] [t|] n];
    cbv zeta; repeat split; reflexivity.
Qed.

Lemma size_image s :
  0 <= s < 2147483648 ->
  int32_image (toInt32 (js_or (Z.quot (js_or s 0) 4294967296) 0)) * 4294967296
  + toInt32 (js_or (js_and (js_or s 0) 4294967295) 0) = s.
Proof.
  intros Hs. rewrite (js_or_0_r s), (toInt32_small s) by lia.
  rewrite Z.quot_small by lia.
  change (int32_image (toInt32 (js_or 0 0))) with 0.
  unfold js_and. rewrite (toInt32_small s) by lia.
  change (toInt32 4294967295) with (-1). rewrite Z.land_m1_r.
  rewrite js_or_0_r, !(toInt32_small s) by lia. lia.
Qed.

Lemma word_image v :
  0 <= v < 2147483648 ->
  int32_image (toInt32 (js_or v 0)) = v /\ toInt32 (js_or v 0) = v.
Proof.
  intros Hv. rewrite js_or_0_r, !(toInt32_small v) by lia.
  split; [apply int32_image_nonneg; lia | reflexivity].
Qed.

Lemma seconds_image ms :
  ms mod 1000 = 0 -> 0 <= ms < 2147483648000 ->
  1000 * toInt32 (Z.quot ms 1000) = ms.
Proof.
  intros Hmod Hms. rewrite Z.quot_div_nonneg by lia.
  pose proof (Z.div_mod ms 1000 ltac:(lia)).
  rewrite toInt32_small; lia.
Qed.

(** C5, as stated, fails: from a metadata object that defines [uid] alone,
    the decoded record also has a [gid] (0), a field the metadata object
    does not define. *)
Lemma C5_roundtrip_counterexample :
  st_gid uid_only = None
  /\ roundtrip 64 (SftpAttributes_.from (Some uid_only))
     = Value (mkAttrs (Some 2) None (Some 5) (Some 0) None None None None).
Proof. split; vm_compute; reflexivity. Qed.

(** C5, amended: for a metadata object whose defined size, uid, gid and mode
    are integers in [0, 2^31), whose defined times are whole seconds in the
    same range, and in which atime and mtime are defined together or not at
    all, decoding the encoding of the record built by [from] yields the
    defined size, mode, atime and mtime with their original values and
    leaves the undefined ones absent; uid and gid come as a pair: both are
    absent when neither is defined, and otherwise both are present, a
    defined one with its original value and an undefined one as 0. *)
Theorem C5_attributes_roundtrip (capacity : Z) (stats : IStats) :
  36 <= capacity ->
  in_range (st_size stats) -> in_range (st_uid stats) ->
  in_range (st_gid stats) -> in_range (st_mode stats) ->
  whole_seconds (st_atime stats) -> whole_seconds (st_mtime stats) ->
  defined (st_atime stats) = defined (st_mtime stats) ->
  exists a,
    roundtrip capacity (SftpAttributes_.from (Some stats)) = Value a
    /\ size a = st_size stats
    /\ uid a = (if defined (st_uid stats) || defined (st_gid stats)
                then Some (num (st_uid stats)) else None)
    /\ gid a = (if defined (st_uid stats) || defined (st_gid stats)
                then Some (num (st_gid stats)) else None)
    /\ mode a = st_mode stats
    /\ atime a = st_atime stats
    /\ mtime a = st_mtime stats
    /\ nlink a = None.
Proof.
  intros Hcap Hsize Huid Hgid Hmode Hatime Hmtime Hpair.
  pose proof (from_has stats) as (HS & HU & HP & HT & HE).
  pose proof (from_fields stats) as (Fs & Fu & Fg & Fm & Fa & Ft).
  cbv zeta in *.
  set (x := SftpAttributes_.from (Some stats)) in *.
  exists (wire_image x). split.
  - apply codec_roundtrip; [exact Hcap|].
    intros Hbit. rewrite <- has_toInt32, HT in Hbit. rewrite Fa, Ft, Hbit.
    destruct (st_atime stats), (st_mtime stats); try discriminate.
    split; reflexivity.
  - unfold wire_image. cbv zeta. rewrite HS, HU, HP, HT.
    cbn [size uid gid mode atime mtime nlink]. rewrite Fs, Fu, Fg, Fm, Fa, Ft.
    repeat split.
    + destruct (st_size stats) as [s|]; [|reflexivity].
      cbn [defined option_map num]. rewrite size_image by exact Hsize.
      reflexivity.
    + destruct (defined (st_uid stats) || defined (st_gid stats)); [|reflexivity].
      cbn [fst num].
      destruct (st_uid stats) as [u|]; cbn [num default];
        [rewrite (proj1 (word_image u Huid)) | ]; reflexivity.
    + destruct (defined (st_uid stats) || defined (st_gid stats)); [|reflexivity].
      cbn [snd num].
      destruct (st_gid stats) as [g|]; cbn [num default];
        [rewrite (proj1 (word_image g Hgid)) | ]; reflexivity.
    + destruct (st_mode stats) as [m|]; [|reflexivity].
      cbn [defined option_map num].
      rewrite (proj2 (word_image m Hmode)). reflexivity.
    + destruct (st_atime stats) as [a|], (st_mtime stats) as [t|];
        try discriminate; [|reflexivity].
      cbn [defined orb fst num].
      rewrite (seconds_image a) by apply Hatime. reflexivity.
    + destruct (st_atime stats) as [a|], (st_mtime stats) as [t|];
        try discriminate; [|reflexivity].
      cbn [defined orb snd num].
      rewrite (seconds_image t) by apply Hmtime. reflexivity.
Qed.

Lemma C5_attributes_roundtrip_witness :
  exists a,
    roundtrip 64 (SftpAttributes_.from
                    (Some (mkStats (Some 33188) None None (Some 1024)
                                   (Some 86400000) (Some 172800000) None)))
    = Value a
    /\ size a = Some 1024
    /\ uid a = None
    /\ gid a = None
    /\ mode a = Some 33188
    /\ atime a = Some 86400000
    /\ mtime a = Some 172800000
    /\ nlink a = None.
Proof.
  refine (C5_attributes_roundtrip 64
            (mkStats (Some 33188) None None (Some 1024)
                     (Some 86400000) (Some 172800000) None) _ _ _ _ _ _ _ _).
  - lia.
  - cbn. lia.
  - exact I.
  - exact I.
  - cbn. lia.
  - cbn. split; [reflexivity | lia].
  - cbn. split; [reflexivity | lia].
  - reflexivity.
Defined.

(** * Further properties *)

(** ** Words on the wire *)

Lemma wf_writer_new capacity :
  0 <= capacity -> wf (SftpPacketWriter_new capacity).
Proof.
  intros H. unfold wf, SftpPacketWriter_new, zeros, len.
  cbn [position length_ buffer]. rewrite repeat_length. lia.
Qed.

Lemma written_spec capacity m bs :
  writes m bs -> len bs <= capacity -> written capacity m = Value bs.
Proof.
  intros Hm Hcap. unfold written. pose proof (len_nonneg bs).
  destruct (Hm _ (wf_writer_new capacity ltac:(lia))) as (w & Hw & Hwf & Hout & _).
  { cbn [position length_ SftpPacketWriter_new]. lia. }
  rewrite Hw, (subarray_out w Hwf), Hout. reflexivity.
Qed.

Lemma reading_spec {A} (m : PM A) bs post a :
  reads m bs a -> reading m (bs ++ post) = Value a.
Proof.
  intros Hm. unfold reading, SftpPacketReader_new.
  destruct (Hm (mkPacket TNull None (bs ++ post) 0 (len (bs ++ post)) None) post)
    as (r & Hr & _).
  - unfold wf. cbn [position length_ buffer].
    pose proof (len_nonneg (bs ++ post)). lia.
  - reflexivity.
  - rewrite Hr. reflexivity.
Qed.

Lemma toInt32_mod x : toInt32 x mod 4294967296 = x mod 4294967296.
Proof.
  unfold toInt32.
  pose proof (Z.mod_pos_bound (x + 2147483648) 4294967296 ltac:(lia)).
  pose proof (Z.div_mod (x + 2147483648) 4294967296 ltac:(lia)).
  set (q := (x + 2147483648) / 4294967296) in *.
  set (r := (x + 2147483648) mod 4294967296) in *.
  assert (Hx : x = r - 2147483648 + q * 4294967296) by lia.
  clearbody q r. rewrite Hx. rewrite Z.mod_add by lia. reflexivity.
Qed.

Lemma byte_of_mod x s :
  In s [0; 8; 16; 24] ->
  (toInt32 x / 2 ^ s) mod 256 = (x / 2 ^ s) mod 256.
Proof.
  intros Hs.
  pose proof (toInt32_mod x) as Hm.
  pose proof (Z.div_mod (toInt32 x) 4294967296 ltac:(lia)) as H1.
  pose proof (Z.div_mod x 4294967296 ltac:(lia)) as H2.
  pose proof (Z.mod_pos_bound x 4294967296 ltac:(lia)) as Hb.
  rewrite Hm in H1.
  set (r := x mod 4294967296) in *.
  set (q1 := toInt32 x / 4294967296) in *. set (q2 := x / 4294967296) in *.
  rewrite H1, H2.
  cbn [In] in Hs. destruct Hs as [<-|[<-|[<-|[<-|[]]]]].
  - change (2 ^ 0) with 1. rewrite !Z.div_1_r.
    replace (4294967296 * q1 + r) with (r + (16777216 * q1) * 256) by lia.
    replace (4294967296 * q2 + r) with (r + (16777216 * q2) * 256) by lia.
    rewrite !Z.mod_add by lia. reflexivity.
  - change (2 ^ 8) with 256.
    replace (4294967296 * q1 + r) with (r + (16777216 * q1) * 256) by lia.
    replace (4294967296 * q2 + r) with (r + (16777216 * q2) * 256) by lia.
    rewrite !Z.div_add by lia.
    replace (16777216 * q1) with ((65536 * q1) * 256) by lia.
    replace (16777216 * q2) with ((65536 * q2) * 256) by lia.
    rewrite !Z.mod_add by lia. reflexivity.
  - change (2 ^ 16) with 65536.
    replace (4294967296 * q1 + r) with (r + (65536 * q1) * 65536) by lia.
    replace (4294967296 * q2 + r) with (r + (65536 * q2) * 65536) by lia.
    rewrite !Z.div_add by lia.
    replace (65536 * q1) with ((256 * q1) * 256) by lia.
    replace (65536 * q2) with ((256 * q2) * 256) by lia.
    rewrite !Z.mod_add by lia. reflexivity.
  - change (2 ^ 24) with 16777216.
    replace (4294967296 * q1 + r) with (r + (256 * q1) * 16777216) by lia.
    replace (4294967296 * q2 + r) with (r + (256 * q2) * 16777216) by lia.
    rewrite !Z.div_add by lia.
    replace (256 * q1) with (q1 * 256) by lia.
    replace (256 * q2) with (q2 * 256) by lia.
    rewrite !Z.mod_add by lia. reflexivity.
Qed.

Lemma written_byte v s :
  0 <= s < 32 -> js_and (js_sar v s) 255 = (toInt32 v / 2 ^ s) mod 256.
Proof.
  intros Hs. pose proof (toInt32_range v) as Hx.
  pose proof (toInt32_div (toInt32 v) s ltac:(lia) Hx) as Hd.
  rewrite js_and_255. unfold js_sar. rewrite (Z.mod_small s 32) by lia.
  rewrite Z.shiftr_div_pow2 by lia.
  rewrite (toInt32_small (toInt32 v / 2 ^ s)) by exact Hd. reflexivity.
Qed.

(** [writeInt32] stores the big-endian bytes of the low 32 bits. *)
Lemma bytes32_be32 v : bytes32 v = be32 v.
Proof.
  unfold bytes32, be32.
  rewrite (written_byte v 24), (written_byte v 16), (written_byte v 8) by lia.
  rewrite js_and_255.
  rewrite (byte_of_mod v 24), (byte_of_mod v 16), (byte_of_mod v 8)
    by (cbn; tauto).
  pose proof (byte_of_mod v 0 ltac:(cbn; tauto)) as H0.
  change (2 ^ 0) with 1 in H0. rewrite !Z.div_1_r in H0. rewrite H0.
  reflexivity.
Qed.

Lemma int32_image_neg x :
  -2147483648 <= x < 0 -> int32_image x = x - 4294967296.
Proof.
  intros Hx. unfold int32_image, truthy, js_and.
  rewrite (toInt32_small x) by lia.
  change (toInt32 2147483648) with (Z.lnot (Z.ones 31)).
  rewrite <- Z.ldiff_land, Z.ldiff_ones_r by lia.
  rewrite Z.shiftr_div_pow2, Z.shiftl_mul_pow2 by lia.
  change (2 ^ 31) with 2147483648.
  assert (x / 2147483648 = -1).
  { symmetry. apply (Z.div_unique_pos _ _ _ (x + 2147483648)); lia. }
  rewrite H. reflexivity.
Qed.

(** X3: a 32-bit word written by [writeInt32] is the big-endian form of the
    low 32 bits of the value; [readUint32] reads it back as the signed value
    [toInt32 v], and [readInt32] returns that value when it is not negative
    and 2^32 less than it when it is: negative numbers do not survive the
    trip. *)
Theorem X3_int32_roundtrip (capacity v : Z) :
  4 <= capacity ->
  written capacity (writeInt32 v) = Value (be32 v)
  /\ reading readUint32 (be32 v) = Value (toInt32 v)
  /\ reading readInt32 (be32 v)
     = Value (if 0 <=? toInt32 v then toInt32 v else toInt32 v - 4294967296).
Proof.
  intros Hcap. rewrite <- bytes32_be32. split; [|split].
  - apply written_spec; [apply writes_writeInt32 | rewrite len_bytes32; lia].
  - rewrite <- (app_nil_r (bytes32 v)). apply reading_spec, reads_readUint32.
  - rewrite <- (app_nil_r (bytes32 v)).
    rewrite (reading_spec _ _ _ _ (reads_readInt32 v)). f_equal.
    pose proof (toInt32_range v).
    destruct (Z.leb_spec 0 (toInt32 v)).
    + apply int32_image_nonneg. lia.
    + apply int32_image_neg. lia.
Qed.

Lemma X3_int32_roundtrip_witness :
  written 8 (writeInt32 (-1)) = Value [255; 255; 255; 255]
  /\ reading readUint32 [255; 255; 255; 255] = Value (-1)
  /\ reading readInt32 [255; 255; 255; 255] = Value (-4294967297).
Proof. apply (X3_int32_roundtrip 8 (-1)). lia. Defined.

Lemma be32_toInt32 x : be32 (toInt32 x) = be32 x.
Proof.
  unfold be32.
  pose proof (byte_of_mod x 24 ltac:(cbn; tauto)) as H24.
  pose proof (byte_of_mod x 16 ltac:(cbn; tauto)) as H16.
  pose proof (byte_of_mod x 8 ltac:(cbn; tauto)) as H8.
  pose proof (byte_of_mod x 0 ltac:(cbn; tauto)) as H0.
  change (2 ^ 24) with 16777216 in H24. change (2 ^ 16) with 65536 in H16.
  change (2 ^ 8) with 256 in H8. change (2 ^ 0) with 1 in H0.
  rewrite !Z.div_1_r in H0. rewrite H24, H16, H8, H0. reflexivity.
Qed.

Lemma js_and_all_ones v : js_and v 4294967295 = toInt32 v.
Proof.
  unfold js_and. change (toInt32 4294967295) with (-1).
  apply Z.land_m1_r.
Qed.

(** X4: for a safe non-negative integer, [writeInt64] stores the eight
    big-endian bytes of the value.  [readInt64] rebuilds the value from a
    signed low word, so what it returns is the value only when bit 31 of the
    value is clear, and 2^32 less than the value otherwise. *)
Theorem X4_int64_roundtrip (capacity v : Z) :
  8 <= capacity -> 0 <= v < 9007199254740992 ->
  written capacity (writeInt64 v) = Value (be64 v)
  /\ reading readInt64 (be64 v)
     = Value (if v mod 4294967296 <? 2147483648 then v else v - 4294967296).
Proof.
  intros Hcap Hv.
  assert (Hhi : 0 <= v / 4294967296 < 2147483648).
  { split; [apply Z.div_pos; lia|].
    apply Z.div_lt_upper_bound; lia. }
  assert (Hbytes : bytes32 (js_or (Z.quot v 4294967296) 0)
                   ++ bytes32 (js_or (js_and v 4294967295) 0) = be64 v).
  { unfold be64. rewrite !bytes32_be32, !js_or_0_r, js_and_all_ones.
    rewrite toInt32_idem, !be32_toInt32.
    rewrite Z.quot_div_nonneg by lia. reflexivity. }
  split.
  - rewrite <- Hbytes. apply written_spec; [apply writes_writeInt64|].
    rewrite len_app, !len_bytes32. lia.
  - unfold be64. rewrite <- !bytes32_be32.
    rewrite <- (app_nil_r (bytes32 _ ++ bytes32 _)).
    rewrite (reading_spec _ _ _ _ (reads_readInt64 (v / 4294967296) v)).
    f_equal. rewrite (toInt32_small (v / 4294967296)) by lia.
    rewrite int32_image_nonneg by lia.
    unfold toInt32.
    destruct (Z.ltb_spec (v mod 4294967296) 2147483648);
      Z.div_mod_to_equations; lia.
Qed.

Lemma X4_int64_roundtrip_witness :
  written 8 (writeInt64 2147483648) = Value [0; 0; 0; 0; 128; 0; 0; 0]
  /\ reading readInt64 [0; 0; 0; 0; 128; 0; 0; 0] = Value (-2147483648).
Proof. apply (X4_int64_roundtrip 8 2147483648); lia. Defined.

(** ** Data blocks *)

Lemma writes_writeData d : writes (writeData d None) (bytes32 (len d) ++ d).
Proof.
  intros w Hwf Hroom. rewrite len_app, len_bytes32 in Hroom.
  pose proof (len_nonneg d) as Hd.
  destruct (writes_writeInt32 (len d) w Hwf) as (w1 & H1 & Hwf1 & Hout1 & Hlen1).
  { rewrite len_bytes32. lia. }
  assert (Hpos1 : position w1 = position w + 4).
  { rewrite <- (out_len w1 Hwf1), Hout1, len_app, (out_len w Hwf), len_bytes32.
    reflexivity. }
  unfold writeData. cbv zeta. unfold bind at 1. rewrite H1.
  unfold bind at 1. rewrite check_ok by (unfold remaining; lia).
  unfold bind at 1, get. unfold Uint8Array_set.
  destruct Hwf1 as [Hp1 Hl1].
  destruct (Z.ltb_spec (position w1) 0); [lia|].
  destruct (Z.ltb_spec (len (buffer w1)) (position w1 + len d)); [lia|].
  cbn [orb]. unfold bind, modify.
  eexists. split; [reflexivity|].
  unfold wf, out, set_position, set_buffer. cbn [position buffer length_].
  assert (Hlen : length (take (Z.to_nat (position w1)) (buffer w1))
                 = Z.to_nat (position w1)).
  { rewrite length_take. unfold len in *. lia. }
  split; [|split].
  - split; [lia|]. rewrite Hl1. unfold len in *.
    rewrite !length_app, Hlen, length_drop. lia.
  - rewrite (app_assoc (out w)), <- Hout1. unfold out.
    rewrite (app_assoc (take _ _)). apply take_app_length'.
    rewrite length_app, Hlen. unfold len. lia.
  - exact Hlen1.
Qed.

Lemma len_zeros n : 0 <= n -> len (zeros n) = n.
Proof. intros H. unfold len, zeros. rewrite repeat_length. lia. Qed.

Lemma reads_readData clone d :
  len d < 2147483648 ->
  reads (readData clone) (bytes32 (len d) ++ d) d.
Proof.
  intros Hd r post Hwf Hrest. pose proof (len_nonneg d) as Hd0.
  rewrite <- app_assoc in Hrest.
  destruct (reads_readInt32 (len d) r (d ++ post) Hwf Hrest)
    as (r1 & H1 & Hwf1 & Hrest1).
  rewrite (toInt32_small (len d)), int32_image_nonneg in H1 by lia.
  pose proof (rest_len r1 Hwf1) as Hrem. rewrite Hrest1, len_app in Hrem.
  pose proof (len_nonneg post) as Hpost.
  unfold readData. unfold bind at 1. rewrite H1.
  unfold bind at 1. rewrite check_ok by lia.
  unfold bind at 1, get. unfold bind at 1, modify.
  destruct Hwf1 as [Hp1 Hl1]. unfold remaining in Hrem.
  assert (Hview : subarray (buffer r1) (position r1) (position r1 + len d) = d).
  { unfold subarray, rel_index.
    destruct (Z.ltb_spec (position r1) 0); [lia|].
    destruct (Z.ltb_spec (position r1 + len d) 0); [lia|].
    rewrite !Z.min_l by lia. unfold rest in Hrest1. rewrite Hrest1.
    replace (Z.to_nat (position r1 + len d - position r1)) with (length d)
      by (unfold len; lia).
    apply take_app_length. }
  rewrite Hview.
  assert (Hafter : wf (set_position (position r1 + len d) r1)
                   /\ rest (set_position (position r1 + len d) r1) = post).
  { split.
    - unfold wf, set_position. cbn [position buffer length_]. lia.
    - unfold rest, set_position. cbn [position buffer].
      replace (Z.to_nat (position r1 + len d))
        with (Z.to_nat (position r1) + length d)%nat by (unfold len; lia).
      rewrite <- drop_drop. unfold rest in Hrest1. rewrite Hrest1.
      apply drop_app_length. }
  destruct clone.
  - destruct (Z.ltb_spec (len d) 0); [lia|].
    unfold Uint8Array_set. change (0 <? 0) with false.
    rewrite len_zeros by lia.
    destruct (Z.ltb_spec (len d) (0 + len d)); [lia|].
    cbn [orb take Z.to_nat app].
    rewrite drop_ge by (unfold zeros, len; rewrite repeat_length; lia).
    rewrite app_nil_r. eexists. split; [reflexivity | exact Hafter].
  - eexists. split; [reflexivity | exact Hafter].
Qed.

(** X5: a block of fewer than 2^31 bytes written by [writeData] is its
    length as a 32-bit word followed by the bytes, and [readData] returns the
    same bytes from it, as a view or as a copy. *)
Theorem X5_data_roundtrip (capacity : Z) (d : Uint8Array) (clone : bool) :
  len d < 2147483648 -> 4 + len d <= capacity ->
  written capacity (writeData d None) = Value (be32 (len d) ++ d)
  /\ reading (readData clone) (be32 (len d) ++ d) = Value d.
Proof.
  intros Hd Hcap. rewrite <- bytes32_be32. split.
  - apply written_spec; [apply writes_writeData|].
    rewrite len_app, len_bytes32. lia.
  - rewrite <- (app_nil_r (bytes32 _ ++ d)).
    apply reading_spec, reads_readData, Hd.
Qed.

Lemma X5_data_roundtrip_witness :
  written 16 (writeData [7; 8; 9] None) = Value [0; 0; 0; 3; 7; 8; 9]
  /\ reading (readData true) [0; 0; 0; 3; 7; 8; 9] = Value [7; 8; 9].
Proof. apply (X5_data_roundtrip 16 [7; 8; 9] true); unfold len; simpl; lia. Defined.

(** ** Framing *)

Lemma writes_writeByte v : writes (writeByte v) [js_and v 255].
Proof.
  unfold writeByte. apply writes_check; [unfold len; cbn; lia|].
  apply writes_put_byte, js_and_255_range.
Qed.

Lemma reads_readByte b : reads readByte [b] (js_and b 255).
Proof.
  unfold readByte. apply reads_check; [unfold len; cbn; lia|].
  rewrite <- (app_nil_r [b]).
  eapply reads_bind; [apply reads_next_byte | apply reads_ret].
Qed.

Lemma writeInt32_tail v w w' :
  wf w -> position w + 4 <= length_ w -> writeInt32 v w = Ok tt w' ->
  skipn (Z.to_nat (position w + 4)) (buffer w')
  = skipn (Z.to_nat (position w + 4)) (buffer w).
Proof.
  intros [Hp Hl] Hroom H. unfold writeInt32 in H. unfold bind at 1 in H.
  rewrite check_ok in H by (unfold remaining; lia).
  unfold bind, put_byte, modify in H. injection H as <-.
  unfold set_position, set_buffer, js_store. cbn [position buffer].
  destruct (Z.ltb_spec (position w) 0); [lia|].
  destruct (Z.ltb_spec (position w + 1) 0); [lia|].
  destruct (Z.ltb_spec (position w + 1 + 1) 0); [lia|].
  destruct (Z.ltb_spec (position w + 1 + 1 + 1) 0); [lia|].
  rewrite !drop_insert_lt by lia. reflexivity.
Qed.

Lemma bind_Ok {S A B} (m : M S A) (k : A -> M S B) s a s' :
  m s = Ok a s' -> bind m k s = k a s'.
Proof. intros H. unfold bind. rewrite H. reflexivity. Qed.

Lemma put_byte_keeps b w :
  exists w', put_byte b w = Ok tt w' /\ type_ w' = type_ w /\ id_ w' = id_ w.
Proof. eexists. split; [reflexivity|]. split; reflexivity. Qed.

Lemma writeInt32_keeps v w w' :
  writeInt32 v w = Ok tt w' -> type_ w' = type_ w /\ id_ w' = id_ w.
Proof.
  unfold writeInt32. unfold bind at 1.
  destruct (check 4 w) as [[] w0|] eqn:Hc; [|discriminate].
  unfold check, bind, gets, throw, ret in Hc.
  destruct (_ <? _) in Hc; [discriminate|]. injection Hc as <-.
  unfold bind, put_byte, modify. intros H. injection H as <-.
  split; reflexivity.
Qed.

Lemma check_keeps n w w' : check n w = Ok tt w' -> w' = w.
Proof.
  unfold check, bind, gets, throw, ret.
  destruct (_ <? _); [discriminate|]. congruence.
Qed.

Lemma writeByte_keeps v w w' :
  writeByte v w = Ok tt w' -> type_ w' = type_ w /\ id_ w' = id_ w.
Proof.
  unfold writeByte. unfold bind at 1.
  destruct (check 1 w) as [[] w0|] eqn:Hc; [|discriminate].
  apply check_keeps in Hc. subst w0.
  unfold put_byte, modify. intros H. injection H as <-. split; reflexivity.
Qed.

Lemma writeData_keeps d range w w' :
  writeData d range w = Ok tt w' -> type_ w' = type_ w /\ id_ w' = id_ w.
Proof.
  unfold writeData. cbv zeta. unfold bind at 1.
  destruct (writeInt32 _ w) as [[] w1|] eqn:H1; [|discriminate].
  apply writeInt32_keeps in H1. unfold bind at 1.
  destruct (check _ w1) as [[] w2|] eqn:Hc; [|discriminate].
  apply check_keeps in Hc. subst w2. unfold bind at 1, get.
  destruct (Uint8Array_set _ _ _); [|discriminate].
  unfold bind, modify. intros H. injection H as <-.
  cbn [type_ id_ set_position set_buffer]. exact H1.
Qed.

Lemma writeInt64_keeps v w w' :
  writeInt64 v w = Ok tt w' -> type_ w' = type_ w /\ id_ w' = id_ w.
Proof.
  unfold writeInt64. cbv zeta. unfold bind at 1.
  destruct (writeInt32 _ w) as [[] w1|] eqn:H1; [|discriminate].
  intros H2. apply writeInt32_keeps in H1, H2. split; intuition congruence.
Qed.

Lemma start_spec capacity t i :
  len (header t i) <= capacity ->
  exists w, start (set_id i (set_type (TNum t) (SftpPacketWriter_new capacity)))
            = Ok tt w
            /\ wf w /\ out w = header t i /\ length_ w = capacity
            /\ type_ w = TNum t /\ id_ w = i.
Proof.
  intros Hcap. pose proof (len_nonneg (header t i)).
  set (w0 := set_id i (set_type (TNum t) (SftpPacketWriter_new capacity))).
  assert (Hwf0 : wf w0) by (apply (wf_writer_new capacity); lia).
  assert (Hroom : 5 + len (if unnumbered t then []
                           else bytes32 (js_or (match i with Some i => i | None => 0 end) 0))
                  <= capacity).
  { unfold header in Hcap. rewrite !len_app, len_bytes32 in Hcap.
    change (len [js_and t 255]) with 1 in Hcap. lia. }
  assert (H0 : 0 <= len (if unnumbered t then []
                         else bytes32 (js_or (match i with Some i => i | None => 0 end) 0)))
    by apply len_nonneg.
  destruct (writes_writeInt32 0 w0 Hwf0) as (w1 & H1 & Hwf1 & Hout1 & Hlen1).
  { rewrite len_bytes32. subst w0. cbn. lia. }
  assert (Hpos1 : position w1 = 4).
  { rewrite <- (out_len w1 Hwf1), Hout1. reflexivity. }
  destruct (writes_writeByte t w1 Hwf1) as (w2 & H2 & Hwf2 & Hout2 & Hlen2).
  { change (len [js_and t 255]) with 1. rewrite Hlen1. subst w0. cbn. lia. }
  assert (Hpos2 : position w2 = 5).
  { rewrite <- (out_len w2 Hwf2), Hout2, len_app, (out_len w1 Hwf1), Hpos1.
    reflexivity. }
  destruct (writeInt32_keeps _ _ _ H1) as [Hty Hid].
  change (type_ w0) with (TNum t) in Hty. change (id_ w0) with i in Hid.
  unfold start.
  rewrite (bind_Ok _ _ w0 tt w0) by reflexivity.
  rewrite (bind_Ok _ _ _ _ _ H1).
  rewrite (bind_Ok _ _ w1 w1 w1) by reflexivity.
  rewrite Hty, Hid. rewrite (bind_Ok _ _ _ _ _ H2).
  unfold header. change (out w0) with (@nil Z) in Hout1.
  unfold loose_eq. fold (unnumbered t).
  destruct (unnumbered t).
  - exists w2. split; [reflexivity|]. split; [exact Hwf2|].
    split; [rewrite Hout2, Hout1; reflexivity|].
    split; [rewrite Hlen2, Hlen1; reflexivity|].
    destruct (writeByte_keeps _ _ _ H2) as [Hty2 Hid2].
    split; congruence.
  - destruct (writes_writeInt32 (js_or (match i with Some i => i | None => 0 end) 0)
                w2 Hwf2) as (w3 & H3 & Hwf3 & Hout3 & Hlen3).
    { rewrite Hpos2, Hlen2, Hlen1. subst w0. cbn [length_ set_id set_type SftpPacketWriter_new]. lia. }
    rewrite (bind_Ok _ _ _ _ _ H3). cbn [is_number negb].
    exists w3. split; [reflexivity|]. split; [exact Hwf3|].
    split; [rewrite Hout3, Hout2, Hout1, <- app_assoc; reflexivity|].
    split; [rewrite Hlen3, Hlen2, Hlen1; reflexivity|].
    destruct (writeByte_keeps _ _ _ H2) as [Hty2 Hid2].
    destruct (writeInt32_keeps _ _ _ H3) as [Hty3 Hid3].
    split; congruence.
Qed.

Lemma finish_spec w :
  wf w -> 4 <= position w ->
  exists w', finish w = Ok (bytes32 (position w - 4) ++ skipn 4 (out w)) w'.
Proof.
  intros [Hp Hl] H4. unfold finish. unfold bind at 1, gets.
  unfold bind at 1, modify.
  set (w0 := set_position 0 w).
  assert (Hwf0 : wf w0) by (unfold wf, w0, set_position; cbn; lia).
  destruct (writes_writeInt32 (position w - 4) w0 Hwf0)
    as (w1 & H1 & Hwf1 & Hout1 & Hlen1).
  { rewrite len_bytes32. unfold w0, set_position. cbn. lia. }
  pose proof (writeInt32_tail _ _ _ Hwf0
                ltac:(unfold w0, set_position; cbn; lia) H1) as Htail.
  unfold bind at 1. rewrite H1. unfold bind, get, ret.
  exists w1. f_equal.
  assert (Hpos1 : position w1 = 4).
  { rewrite <- (out_len w1 Hwf1), Hout1. unfold out, w0, set_position. cbn. 
    reflexivity. }
  change (position w0 + 4) with 4 in Htail. change (buffer w0) with (buffer w) in Htail.
  change (Z.to_nat 4) with 4%nat in Htail.
  assert (Hb : buffer w1 = bytes32 (position w - 4) ++ skipn 4 (buffer w)).
  { rewrite <- (take_drop 4 (buffer w1)), Htail. f_equal.
    unfold out in Hout1. rewrite Hpos1 in Hout1.
    change (Z.to_nat 4) with 4%nat in Hout1. rewrite Hout1. reflexivity. }
  destruct Hwf1 as [_ Hl1].
  unfold subarray, rel_index. change (0 <? 0) with false. cbv iota.
  destruct (Z.ltb_spec (position w) 0); [lia|].
  assert (len (buffer w1) = len (buffer w)).
  { rewrite <- Hl1, Hlen1. unfold w0, set_position. cbn. exact Hl. }
  rewrite (Z.min_l 0) by (pose proof (len_nonneg (buffer w1)); lia).
  rewrite Z.min_l by lia. rewrite Z.sub_0_r.
  change (Z.to_nat 0) with 0%nat. rewrite drop_0.
  rewrite Hb. unfold out.
  rewrite take_app_ge by (cbn [bytes32 length]; lia). f_equal.
  cbn [bytes32 length]. rewrite take_drop_commute.
  replace (4 + (Z.to_nat (position w) - 4))%nat with (Z.to_nat (position w)) by lia.
  reflexivity.
Qed.

Lemma readInt32_at r v post :
  wf r -> rest r = bytes32 v ++ post ->
  readInt32 r = Ok (int32_image (toInt32 v)) (advance 4 r)
  /\ wf (advance 4 r) /\ rest (advance 4 r) = post.
Proof.
  intros Hwf Hrest.
  destruct (reads_readInt32 v r post Hwf Hrest) as (r1 & H1 & Hwf1 & Hrest1).
  pose proof (rest_len r Hwf) as Hrem. rewrite Hrest, len_app, len_bytes32 in Hrem.
  pose proof (len_nonneg post).
  destruct (readInt32_ok r ltac:(lia)) as [v' Hv'].
  rewrite H1 in Hv'. injection Hv' as _ <-. auto.
Qed.

Lemma readByte_at r b post :
  wf r -> rest r = b :: post ->
  readByte r = Ok (js_and b 255) (advance 1 r)
  /\ wf (advance 1 r) /\ rest (advance 1 r) = post.
Proof.
  intros Hwf Hrest.
  destruct (reads_readByte b r post Hwf Hrest) as (r1 & H1 & Hwf1 & Hrest1).
  pose proof (rest_len r Hwf) as Hrem. rewrite Hrest in Hrem.
  change (len (b :: post)) with (len ([b] ++ post)) in Hrem.
  rewrite len_app in Hrem. change (len [b]) with 1 in Hrem.
  pose proof (len_nonneg post).
  assert (Hok : exists v, readByte r = Ok v (advance 1 r)).
  { unfold readByte, bind. rewrite check_ok by lia.
    unfold next_byte, bind, get, modify, ret. eexists. reflexivity. }
  destruct Hok as [v' Hv']. rewrite H1 in Hv'. injection Hv' as _ <-. auto.
Qed.

Lemma js_and_255_byte t : 0 <= t < 256 -> js_and t 255 = t.
Proof.
  intros H. rewrite js_and_255, toInt32_small by lia. apply Z.mod_small. lia.
Qed.

(** What the reader's constructor makes of a well-framed packet. *)
Lemma reader_new_spec t i bs :
  0 <= t < 256 -> t <> SftpPacketType.EXTENDED ->
  let idw := if unnumbered t then [] else bytes32 i in
  let packet := bytes32 (1 + len idw + len bs) ++ [t] ++ idw ++ bs in
  len packet < 2147483648 ->
  exists r, SftpPacketReader_new packet false = Ok tt r
    /\ type_ r = TNum t
    /\ id_ r = (if unnumbered t then None else Some (int32_image (toInt32 i)))
    /\ wf r /\ rest r = bs.
Proof.
  intros Ht Hext idw packet Hlen.
  set (this := mkPacket TNull None packet 0 (len packet) None).
  assert (Hwf : wf this).
  { unfold wf, this. cbn [position length_ buffer].
    pose proof (len_nonneg packet). lia. }
  assert (Hpk : len packet = 4 + (1 + len idw + len bs)).
  { unfold packet. rewrite !len_app, len_bytes32. change (len [t]) with 1. lia. }
  pose proof (len_nonneg idw). pose proof (len_nonneg bs).
  destruct (readInt32_at this (1 + len idw + len bs) ([t] ++ idw ++ bs) Hwf)
    as (H1 & Hwf1 & Hrest1); [reflexivity|].
  rewrite toInt32_small, int32_image_nonneg in H1 by lia.
  destruct (readByte_at (advance 4 this) t (idw ++ bs) Hwf1 Hrest1)
    as (H2 & Hwf2 & Hrest2).
  rewrite js_and_255_byte in H2 by exact Ht.
  unfold SftpPacketReader_new. fold this.
  rewrite (bind_Ok _ _ _ _ _ H1).
  rewrite (bind_Ok _ _ _ _ _ (eq_refl : get (advance 4 this) = Ok _ _)).
  replace (length_ (advance 4 this)) with (1 + len idw + len bs + 4)
    by (cbn [length_ advance set_position this]; lia).
  rewrite Z.eqb_refl. cbn [negb].
  rewrite (bind_Ok _ _ _ _ _ H2).
  unfold bind at 1, modify.
  fold (unnumbered t). subst idw.
  destruct (unnumbered t) eqn:Hun.
  - eexists. split; [reflexivity|].
    split; [reflexivity|]. split; [reflexivity|]. split; [exact Hwf2 | exact Hrest2].
  - set (r2 := set_type (TNum t) (advance 1 (advance 4 this))).
    destruct (readInt32_at r2 i bs Hwf2 Hrest2) as (H3 & Hwf3 & Hrest3).
    rewrite (bind_Ok _ _ _ _ _ H3).
    unfold bind at 1, modify.
    destruct (Z.eqb_spec t SftpPacketType.EXTENDED); [contradiction|].
    eexists. split; [reflexivity|].
    split; [reflexivity|]. split; [reflexivity|]. split; [exact Hwf3 | exact Hrest3].
Qed.

(** X1: framing.  A packet of a numeric type other than EXTENDED that is
    built by [start], a body and [finish] begins with its own length less
    four as a big-endian word, and the reader's constructor accepts it: it
    recovers the type, leaves the cursor at the first byte of the body, and
    recovers the request id when that is not negative; a negative id comes
    back 2^32 lower.  INIT and VERSION packets carry no id. *)
Theorem X1_framing (t i capacity : Z) (body : PM unit) (bs : list Z) :
  0 <= t < 256 -> t <> SftpPacketType.EXTENDED ->
  -2147483648 <= i < 2147483648 ->
  writes body bs -> 9 + len bs <= capacity -> capacity < 2147483648 ->
  exists packet r,
    frame (TNum t) (Some i) capacity body = Value packet
    /\ len packet = (if unnumbered t then 5 else 9) + len bs
    /\ firstn 4 packet = be32 (len packet - 4)
    /\ SftpPacketReader_new packet false = Ok tt r
    /\ type_ r = TNum t
    /\ id_ r = (if unnumbered t then None
                else Some (if 0 <=? i then i else i - 4294967296))
    /\ rest r = bs.
Proof.
  intros Ht Hext Hi Hbody Hcap Hmax.
  pose proof (len_nonneg bs) as Hbs.
  set (idw := if unnumbered t then [] else bytes32 i).
  assert (Hhdr : header t (Some i) = bytes32 0 ++ [t] ++ idw).
  { unfold header, idw. rewrite js_and_255_byte by exact Ht.
    destruct (unnumbered t); [reflexivity|].
    rewrite js_or_0_r, toInt32_small by lia. reflexivity. }
  assert (Hidw : len idw = if unnumbered t then 0 else 4).
  { unfold idw. destruct (unnumbered t); [reflexivity | apply len_bytes32]. }
  assert (Hhl : len (header t (Some i)) = 5 + len idw).
  { rewrite Hhdr, !len_app, len_bytes32. change (len [t]) with 1. lia. }
  assert (Hidw' : 0 <= len idw <= 4) by (rewrite Hidw; destruct (unnumbered t); lia).
  destruct (start_spec capacity t (Some i) ltac:(lia))
    as (w1 & H1 & Hwf1 & Hout1 & Hlen1 & _).
  assert (Hpos1 : position w1 = 5 + len idw).
  { rewrite <- (out_len w1 Hwf1), Hout1. exact Hhl. }
  destruct (Hbody w1 Hwf1 ltac:(lia)) as (w2 & H2 & Hwf2 & Hout2 & Hlen2).
  assert (Hpos2 : position w2 = 5 + len idw + len bs).
  { rewrite <- (out_len w2 Hwf2), Hout2, len_app, (out_len w1 Hwf1). lia. }
  destruct (finish_spec w2 Hwf2 ltac:(lia)) as (w3 & H3).
  assert (Hpacket : bytes32 (position w2 - 4) ++ drop 4 (out w2)
                    = bytes32 (1 + len idw + len bs) ++ [t] ++ idw ++ bs).
  { rewrite Hout2, Hout1, Hhdr.
    replace (position w2 - 4) with (1 + len idw + len bs) by lia.
    rewrite <- !app_assoc. reflexivity. }
  rewrite Hpacket in H3.
  set (packet := bytes32 (1 + len idw + len bs) ++ [t] ++ idw ++ bs) in *.
  assert (Hpl : len packet = 5 + len idw + len bs).
  { unfold packet. rewrite !len_app, len_bytes32. change (len [t]) with 1. lia. }
  destruct (reader_new_spec t i bs Ht Hext) as (r & Hr & Hty & Hid & Hwfr & Hrest).
  { fold idw. fold packet. lia. }
  fold idw in Hr. fold packet in Hr.
  exists packet, r. split; [|split; [|split; [|split; [|split; [|split]]]]].
  - unfold frame. rewrite (bind_Ok _ _ _ _ _ H1), (bind_Ok _ _ _ _ _ H2), H3.
    reflexivity.
  - rewrite Hpl, Hidw. destruct (unnumbered t); lia.
  - rewrite <- bytes32_be32, Hpl.
    replace (5 + len idw + len bs - 4) with (1 + len idw + len bs) by lia.
    reflexivity.
  - exact Hr.
  - exact Hty.
  - rewrite Hid. destruct (unnumbered t); [reflexivity|]. f_equal.
    rewrite toInt32_small by lia.
    destruct (Z.leb_spec 0 i);
      [apply int32_image_nonneg | apply int32_image_neg]; lia.
  - exact Hrest.
Qed.

Lemma X1_framing_witness :
  exists packet r,
    frame (TNum 5) (Some 7) 16 (writeInt32 258) = Value packet
    /\ len packet = (if unnumbered 5 then 5 else 9) + len [0; 0; 1; 2]
    /\ firstn 4 packet = be32 (len packet - 4)
    /\ SftpPacketReader_new packet false = Ok tt r
    /\ type_ r = TNum 5
    /\ id_ r = (if unnumbered 5 then None
                else Some (if 0 <=? 7 then 7 else 7 - 4294967296))
    /\ rest r = [0; 0; 1; 2].
Proof.
  apply (X1_framing 5 7 16 (writeInt32 258) [0; 0; 1; 2]).
  - lia.
  - discriminate.
  - lia.
  - apply (writes_writeInt32 258).
  - vm_compute. discriminate.
  - lia.
Defined.

(** ** Reads that overrun and reads that return (claim C8) *)

Lemma readUint16_ok r :
  2 <= remaining r -> exists v, readUint16 r = Ok v (advance 2 r).
Proof.
  intros H. unfold readUint16, bind. rewrite check_ok by lia.
  unfold next_byte, bind, get, modify, ret. cbn [position buffer set_position].
  eexists. f_equal. unfold advance, set_position. cbn. f_equal. lia.
Qed.

Lemma advance_advance n m r : advance m (advance n r) = advance (n + m) r.
Proof. unfold advance, set_position. cbn. f_equal. lia. Qed.

Lemma octet_range b i : 0 <= octet b i < 256.
Proof. apply Z.mod_pos_bound. lia. Qed.

Lemma js_and_octet x : js_and x 255 = x mod 256.
Proof.
  rewrite js_and_255. pose proof (byte_of_mod x 0 ltac:(cbn; tauto)) as H.
  change (2 ^ 0) with 1 in H. rewrite !Z.div_1_r in H. exact H.
Qed.

Lemma split_octet q b :
  0 <= b < 256 -> (q * 256 + b) / 256 = q /\ (q * 256 + b) mod 256 = b.
Proof.
  intros Hb. split.
  - symmetry. apply (Z.div_unique_pos _ _ _ b); lia.
  - symmetry. apply (Z.mod_unique_pos _ _ q); lia.
Qed.

(** The octets of a big-endian word. *)
Lemma word_octets b0 b1 b2 b3 :
  0 <= b0 < 256 -> 0 <= b1 < 256 -> 0 <= b2 < 256 -> 0 <= b3 < 256 ->
  let v := b0 * 16777216 + b1 * 65536 + b2 * 256 + b3 in
  (v / 16777216) mod 256 = b0 /\ (v / 65536) mod 256 = b1
  /\ (v / 256) mod 256 = b2 /\ v mod 256 = b3.
Proof.
  intros H0 H1 H2 H3 v.
  assert (Hv : v = ((b0 * 256 + b1) * 256 + b2) * 256 + b3) by (unfold v; lia).
  destruct (split_octet ((b0 * 256 + b1) * 256 + b2) b3 H3) as [D3 M3].
  destruct (split_octet (b0 * 256 + b1) b2 H2) as [D2 M2].
  destruct (split_octet b0 b1 H1) as [D1 M1].
  assert (E1 : v / 256 = (b0 * 256 + b1) * 256 + b2) by (rewrite Hv; exact D3).
  assert (E2 : v / 65536 = b0 * 256 + b1).
  { change 65536 with (256 * 256). rewrite <- Z.div_div by lia.
    rewrite E1. exact D2. }
  assert (E3 : v / 16777216 = b0).
  { change 16777216 with (65536 * 256). rewrite <- Z.div_div by lia.
    rewrite E2. exact D1. }
  rewrite E3, E2, E1, Hv, M3, M2, M1. rewrite Z.mod_small by lia.
  repeat split.
Qed.

(** The word that [readUint32] assembles is the signed reading of the
    big-endian word of the four octets. *)
Lemma assemble_word x0 x1 x2 x3 :
  assemble x0 x1 x2 x3
  = toInt32 (x0 mod 256 * 16777216 + x1 mod 256 * 65536 + x2 mod 256 * 256
             + x3 mod 256).
Proof.
  pose proof (Z.mod_pos_bound x0 256 ltac:(lia)) as H0.
  pose proof (Z.mod_pos_bound x1 256 ltac:(lia)) as H1.
  pose proof (Z.mod_pos_bound x2 256 ltac:(lia)) as H2.
  pose proof (Z.mod_pos_bound x3 256 ltac:(lia)) as H3.
  destruct (word_octets _ _ _ _ H0 H1 H2 H3) as (E0 & E1 & E2 & E3).
  cbv zeta in *.
  set (v := x0 mod 256 * 16777216 + x1 mod 256 * 65536 + x2 mod 256 * 256
            + x3 mod 256) in *.
  rewrite <- (assemble_bytes32 v). unfold assemble.
  rewrite (written_byte v 24), (written_byte v 16), (written_byte v 8) by lia.
  rewrite (byte_of_mod v 24), (byte_of_mod v 16), (byte_of_mod v 8)
    by (cbn; tauto).
  change (2 ^ 24) with 16777216. change (2 ^ 16) with 65536.
  change (2 ^ 8) with 256.
  rewrite E0, E1, E2. rewrite !js_and_octet. rewrite E3.
  rewrite !Z.mod_mod by lia. reflexivity.
Qed.

Lemma announced_length_range r : 0 <= announced_length r < 4294967296.
Proof.
  unfold announced_length.
  pose proof (octet_range (buffer r) (position r)).
  pose proof (octet_range (buffer r) (position r + 1)).
  pose proof (octet_range (buffer r) (position r + 2)).
  pose proof (octet_range (buffer r) (position r + 3)).
  lia.
Qed.

Lemma readUint32_word r :
  4 <= remaining r ->
  readUint32 r = Ok (toInt32 (announced_length r)) (advance 4 r).
Proof.
  intros H. unfold readUint32, bind. rewrite check_ok by lia.
  unfold next_byte, bind, get, modify, ret. cbn [position buffer set_position].
  f_equal.
  - change (assemble (js_index (buffer r) (position r))
                     (js_index (buffer r) (position r + 1))
                     (js_index (buffer r) (position r + 1 + 1))
                     (js_index (buffer r) (position r + 1 + 1 + 1))
            = toInt32 (announced_length r)).
    rewrite assemble_word. unfold announced_length, octet.
    replace (position r + 1 + 1) with (position r + 2) by lia.
    replace (position r + 2 + 1) with (position r + 3) by lia.
    reflexivity.
  - unfold advance, set_position. cbn. f_equal. lia.
Qed.

Lemma readInt32_word r :
  4 <= remaining r ->
  readInt32 r = Ok (int32_image (toInt32 (announced_length r))) (advance 4 r).
Proof.
  intros H. unfold readInt32, bind. rewrite (readUint32_word r H). reflexivity.
Qed.

(** A length word below 2^31 is read as it stands. *)
Lemma readInt32_short r :
  4 <= remaining r -> announced_length r < 2147483648 ->
  readInt32 r = Ok (announced_length r) (advance 4 r).
Proof.
  intros H Hs. pose proof (announced_length_range r).
  rewrite (readInt32_word r H), toInt32_small, int32_image_nonneg by lia.
  reflexivity.
Qed.




(** X6: the counterpart of the bounds check for reads that return.  Let the
    length word of a string or data field be below 2^31.  Then a read
    primitive that returns has found the bytes it needs between position and
    length, and has moved the position forward by exactly that number and
    changed nothing else; so the position has moved on and has not passed
    the length. *)
Theorem X6_read_advances (p : Primitive) (r r' : SftpPacket) (v : PrimValue) :
  short_prefix p r ->
  read_primitive p r = Ok v r' ->
  bytes_needed p r <= remaining r
  /\ r' = advance (bytes_needed p r) r
  /\ position r < position r' <= length_ r'.
Proof.
  intros Hshort H. unfold short_prefix in Hshort.
  pose proof (announced_length_range r) as Hrange.
  assert (Hmain : bytes_needed p r <= remaining r
                  /\ r' = advance (bytes_needed p r) r
                  /\ 0 < bytes_needed p r).
  { destruct p; cbn [read_primitive bytes_needed length_prefixed] in *;
      unfold bind in H.
    - destruct (Z.le_gt_cases 1 (remaining r)) as [Hk|Hk].
      + split; [exact Hk|]. split; [|lia]. unfold readByte, bind in H.
        rewrite check_ok in H by exact Hk.
        unfold next_byte, bind, get, modify, ret in H.
        injection H as _ <-. reflexivity.
      + unfold readByte, bind in H. rewrite check_fail in H by lia. discriminate.
    - destruct (Z.le_gt_cases 2 (remaining r)) as [Hk|Hk].
      + split; [exact Hk|]. split; [|lia]. destruct (readUint16_ok r Hk) as [x Hx].
        unfold readInt16, bind in H. rewrite Hx in H. unfold ret in H. congruence.
      + unfold readInt16, bind in H. rewrite readUint16_fail in H by lia.
        discriminate.
    - destruct (Z.le_gt_cases 2 (remaining r)) as [Hk|Hk].
      + split; [exact Hk|]. split; [|lia]. destruct (readUint16_ok r Hk) as [x Hx].
        rewrite Hx in H. unfold ret in H. congruence.
      + rewrite readUint16_fail in H by lia. discriminate.
    - destruct (Z.le_gt_cases 4 (remaining r)) as [Hk|Hk].
      + split; [exact Hk|]. split; [|lia]. destruct (readInt32_ok r Hk) as [x Hx].
        rewrite Hx in H. unfold ret in H. congruence.
      + rewrite readInt32_fail in H by lia. discriminate.
    - destruct (Z.le_gt_cases 4 (remaining r)) as [Hk|Hk].
      + split; [exact Hk|]. split; [|lia]. destruct (readUint32_ok r Hk) as [x Hx].
        rewrite Hx in H. unfold ret in H. congruence.
      + rewrite readUint32_fail in H by lia. discriminate.
    - unfold readInt64, bind in H.
      destruct (Z.le_gt_cases 4 (remaining r)) as [Hk|Hk];
        [|rewrite readInt32_fail in H by lia; discriminate].
      destruct (readInt32_ok r Hk) as [x Hx]. rewrite Hx in H.
      destruct (Z.le_gt_cases 4 (remaining (advance 4 r))) as [Hk2|Hk2];
        [|rewrite readUint32_fail in H by lia; discriminate].
      destruct (readUint32_ok _ Hk2) as [y Hy]. rewrite Hy in H.
      unfold ret in H. rewrite advance_advance in H.
      rewrite remaining_advance in Hk2. split; [lia|]. split; [|lia].
      injection H as _ <-. reflexivity.
    - unfold readString, bind in H.
      destruct (Z.le_gt_cases 4 (remaining r)) as [Hk|Hk];
        [|rewrite readInt32_fail in H by lia; discriminate].
      rewrite (readInt32_short r Hk (Hshort eq_refl)) in H.
      set (x := announced_length r) in *.
      destruct (Z.le_gt_cases x (remaining (advance 4 r))) as [Hk2|Hk2];
        [|rewrite check_fail in H by lia; discriminate].
      rewrite check_ok in H by lia. unfold get, modify, ret in H.
      rewrite remaining_advance in Hk2. split; [lia|]. split; [|lia].
      injection H as _ <-. unfold advance, set_position. cbn. f_equal. lia.
    - unfold readData, bind in H.
      destruct (Z.le_gt_cases 4 (remaining r)) as [Hk|Hk];
        [|rewrite readInt32_fail in H by lia; discriminate].
      rewrite (readInt32_short r Hk (Hshort eq_refl)) in H.
      set (x := announced_length r) in *.
      destruct (Z.le_gt_cases x (remaining (advance 4 r))) as [Hk2|Hk2];
        [|rewrite check_fail in H by lia; discriminate].
      rewrite check_ok in H by lia. unfold get, modify, ret in H.
      rewrite remaining_advance in Hk2. split; [lia|]. split; [|lia].
      assert (Hst : state_of (Ok v r')
                    = set_position (position (advance 4 r) + x) (advance 4 r)).
      { rewrite <- H. destruct clone; [|reflexivity].
        destruct (x <? 0); [reflexivity|].
        destruct (Uint8Array_set _ _ _); reflexivity. }
      cbn [state_of] in Hst. rewrite Hst.
      unfold advance, set_position. cbn. f_equal. lia. }
  destruct Hmain as (H1 & H2 & H3). split; [exact H1|]. split; [exact H2|].
  rewrite H2. unfold remaining, advance, set_position in *. cbn. lia.
Qed.

Lemma X6_read_advances_witness :
  bytes_needed String_ (mkPacket TNull None [0; 0; 0; 1; 65] 0 5 None)
  <= remaining (mkPacket TNull None [0; 0; 0; 1; 65] 0 5 None)
  /\ mkPacket TNull None [0; 0; 0; 1; 65] 5 5 None
     = advance (bytes_needed String_ (mkPacket TNull None [0; 0; 0; 1; 65] 0 5 None))
               (mkPacket TNull None [0; 0; 0; 1; 65] 0 5 None)
  /\ position (mkPacket TNull None [0; 0; 0; 1; 65] 0 5 None)
     < position (mkPacket TNull None [0; 0; 0; 1; 65] 5 5 None)
     <= length_ (mkPacket TNull None [0; 0; 0; 1; 65] 5 5 None).
Proof.
  apply (X6_read_advances String_ (mkPacket TNull None [0; 0; 0; 1; 65] 0 5 None)
           (mkPacket TNull None [0; 0; 0; 1; 65] 5 5 None) (VStr "A")).
  - intros _. vm_compute. reflexivity.
  - vm_compute. reflexivity.
Defined.

(** X7: [skipString] moves the reader exactly as [readString] does, and
    fails exactly when it fails, with the same exception and the same
    state. *)
Theorem X7_skipString_as_readString (r : SftpPacket) :
  skipString r = match readString r with
                 | Ok _ r' => Ok tt r'
                 | Throw e r' => Throw e r'
                 end.
Proof.
  unfold skipString, readString, bind.
  destruct (readInt32 r) as [n r1|e r1]; [|reflexivity].
  destruct (check n r1) as [[] r2|e r2]; reflexivity.
Qed.

(** ** Open flags, again *)

Lemma flags_sound_all (flags : Z) : flags_sound flags = true.
Proof.
  assert (H : flags_sound flags = flags_sound (toInt32 flags mod 64)).
  { unfold flags_sound, SftpFlags.fromNumber.
    rewrite <- (normalize_masks flags). reflexivity. }
  rewrite H.
  pose proof (Z.mod_pos_bound (toInt32 flags) 64 ltac:(lia)) as Hb.
  apply (below_spec 64 flags_sound); [vm_compute; reflexivity | lia].
Qed.

(** X8: the final [throw] of [fromNumber] is dead code.  For every number
    the function returns at least one mode string, every string it returns is
    one that [toNumber] accepts and maps to a normalised mask, and
    normalising twice is normalising once. *)
Theorem X8_fromNumber_total (flags : Z) :
  exists l,
    SftpFlags.fromNumber flags = Value l
    /\ l <> []
    /\ Forall (fun s => exists m, SftpFlags.toNumber (FlagsStr s) = Value m
                                  /\ SftpFlags.normalize m = m) l
    /\ SftpFlags.normalize (SftpFlags.normalize flags) = SftpFlags.normalize flags.
Proof.
  pose proof (flags_sound_all flags) as H. unfold flags_sound in H.
  destruct (SftpFlags.fromNumber flags) as [l|e]; [|discriminate].
  apply andb_true_iff in H as [H H3]. apply andb_true_iff in H as [H1 H2].
  exists l. split; [reflexivity|]. split; [|split].
  - destruct l; [discriminate | discriminate].
  - apply Forall_forall. intros s Hs. rewrite forallb_forall in H2.
    apply list_elem_of_In in Hs. specialize (H2 s Hs).
    destruct (SftpFlags.toNumber (FlagsStr s)) as [m|]; [|discriminate].
    exists m. split; [reflexivity | apply Z.eqb_eq, H2].
  - apply Z.eqb_eq, H3.
Qed.

(** ** File types *)

(** X11: the three file-type tests of an attributes record exclude one
    another, and all three fail on a record without a mode. *)
Theorem X11_file_type_exclusive (a : SftpAttributes) :
  SftpAttributes_.isDirectory a && SftpAttributes_.isFile a = false
  /\ SftpAttributes_.isDirectory a && SftpAttributes_.isSymbolicLink a = false
  /\ SftpAttributes_.isFile a && SftpAttributes_.isSymbolicLink a = false
  /\ (if defined (mode a) then true
      else negb (SftpAttributes_.isDirectory a || SftpAttributes_.isFile a
                 || SftpAttributes_.isSymbolicLink a)) = true.
Proof.
  unfold SftpAttributes_.isDirectory, SftpAttributes_.isFile,
    SftpAttributes_.isSymbolicLink.
  repeat split.
  - destruct (Z.eqb_spec (js_and (num (mode a)) FileType.ALL) FileType.DIRECTORY) as [->|];
      reflexivity.
  - destruct (Z.eqb_spec (js_and (num (mode a)) FileType.ALL) FileType.DIRECTORY) as [->|];
      reflexivity.
  - destruct (Z.eqb_spec (js_and (num (mode a)) FileType.ALL) FileType.REGULAR_FILE) as [->|];
      reflexivity.
  - destruct (mode a); reflexivity.
Qed.

(** ** Attribute blocks inside a packet *)

(** X12: an attributes record in the middle of a packet.  [write] produces
    the fields and, when the EXTENDED bit is set, one more word for the count
    of extended pairs; the decoding constructor reads the fields back but
    never that word, so after a record with the EXTENDED bit the reader is
    left four bytes short of the data that follows. *)
Theorem X12_attributes_lockstep (capacity : Z) (x : SftpAttributes) (post : list Z) :
  36 <= capacity -> times_present x ->
  exists b r r',
    encode capacity x = Value b
    /\ SftpPacketReader_new (b ++ post) true = Ok tt r
    /\ SftpAttributes_.decode r = Ok (wire_image x) r'
    /\ rest r' = (if has (num (a_flags x)) SftpAttributeFlags.EXTENDED
                  then [0; 0; 0; 0] else []) ++ post.
Proof.
  intros Hcap Htimes.
  pose proof (attr_bytes_len x) as Hlen.
  pose proof (written_spec capacity _ _ (writes_attributes x Htimes) ltac:(lia)) as Hw.
  set (b := attr_fields x ++ attr_extended x) in *.
  set (r := mkPacket TNull None (b ++ post) 0 (len (b ++ post)) None).
  destruct (reads_attributes x r (attr_extended x ++ post)) as (r' & Hr & _ & Hrest).
  - unfold wf, r. cbn [position length_ buffer].
    pose proof (len_nonneg (b ++ post)). lia.
  - unfold rest, r, b. cbn [position buffer Z.to_nat drop].
    rewrite <- app_assoc. reflexivity.
  - exists b, r, r'. split; [exact Hw|]. split; [reflexivity|].
    split; [exact Hr|]. rewrite Hrest. unfold attr_extended.
    destruct (has _ _); reflexivity.
Qed.

Lemma X12_attributes_lockstep_witness :
  exists b r r',
    encode 36 (mkAttrs (Some 2147483652) None None None (Some 420) None None None)
    = Value b
    /\ SftpPacketReader_new (b ++ [9]) true = Ok tt r
    /\ SftpAttributes_.decode r
       = Ok (wire_image (mkAttrs (Some 2147483652) None None None (Some 420)
                                 None None None)) r'
    /\ rest r' = [0; 0; 0; 0] ++ [9].
Proof.
  apply (X12_attributes_lockstep 36
           (mkAttrs (Some 2147483652) None None None (Some 420) None None None)
           [9]).
  - lia.
  - intros H. vm_compute in H. discriminate.
Defined.

(** ** Shutting the session down *)




Lemma forEach_fail l w :
  let w' := state_of (forEach l (fun request =>
      invoke (callback request)
             (Some (createError SftpStatusCode.CONNECTION_LOST "Connection closed"
                                (rinfo request))) PUndefined) w) in
  this w' = this w /\ sent w' = sent w /\ closed w' = closed w
  /\ timers w' = timers w.
Proof.
  revert w. induction l as [|rq l IH]; intros w; [repeat split|].
  cbn [forEach]. unfold bind. destruct (callback rq) as [k|]; cbn [invoke].
  - unfold modify. apply (IH (add_call _ w)).
  - repeat split.
Qed.






(** ** A session without a transport *)

Lemma quiet_ret {A} (a : A) : quiet (ret a).
Proof. intros w. split; reflexivity. Qed.

Lemma quiet_throw {A} e : quiet (@throw World A e).
Proof. intros w. split; reflexivity. Qed.

Lemma quiet_gets {A} (f : World -> A) : quiet (gets f).
Proof. intros w. split; reflexivity. Qed.

Lemma quiet_bind {A B} (m : WM A) (k : A -> WM B) :
  quiet m -> (forall a, quiet (k a)) -> quiet (bind m k).
Proof.
  intros Hm Hk w. unfold bind. destruct (Hm w) as [H1 H2].
  destruct (m w) as [a w1|e w1]; cbn [state_of] in *.
  - destruct (Hk a w1) as [H3 H4]. split; congruence.
  - split; assumption.
Qed.

Lemma quiet_writing {A} p (m : PM A) : quiet (writing p m).
Proof. intros w. unfold writing. destruct (m p); split; reflexivity. Qed.

Lemma quiet_checkCallback cb : quiet (checkCallback cb).
Proof. destruct cb; [apply quiet_ret | apply quiet_throw]. Qed.

Lemma quiet_checkPath path name : quiet (checkPath path name).
Proof.
  unfold checkPath. destruct (strlen path =? 0); [apply quiet_throw | apply quiet_ret].
Qed.

Lemma quiet_toHandle handle : quiet (toHandle handle).
Proof.
  destruct handle as [h|]; [|apply quiet_throw].
  apply quiet_bind; [apply quiet_gets|]. intros sid.
  destruct (_this h =? sid); [apply quiet_ret | apply quiet_throw].
Qed.

Lemma quiet_checkBuffer buffer offset length : quiet (checkBuffer buffer offset length).
Proof.
  destruct buffer as [b|]; [|apply quiet_throw]. cbn.
  destruct (offset <? 0); [apply quiet_throw|].
  destruct (length <? 0); [apply quiet_throw|].
  destruct (len b <? offset + length); [apply quiet_throw | apply quiet_ret].
Qed.

Lemma quiet_checkPosition position : quiet (checkPosition position).
Proof.
  unfold checkPosition.
  destruct ((position <? 0) || (9223372036854775808 <? position));
    [apply quiet_throw | apply quiet_ret].
Qed.

Lemma quiet_set_id i : quiet (modify (upd_this (set__id i))).
Proof. intros w. split; reflexivity. Qed.

Lemma quiet_getRequest type : quiet (getRequest type).
Proof.
  unfold getRequest. apply quiet_bind; [apply quiet_gets|]. intros c.
  apply quiet_bind; [|intros; apply quiet_writing].
  destruct (loose_eq type SftpPacketType.INIT).
  - destruct (defined (_id c)); [apply quiet_throw | apply quiet_set_id].
  - apply quiet_set_id.
Qed.

Lemma refuses_throw {A} cb e : refuses cb (@throw World A e).
Proof.
  intros w _. split; [reflexivity|]. exists []. rewrite app_nil_r.
  split; [reflexivity | constructor].
Qed.

Lemma refuses_bind {A B} cb (m : WM A) (k : A -> WM B) :
  quiet m -> (forall a, refuses cb (k a)) -> refuses cb (bind m k).
Proof.
  intros Hm Hk w Hhost. unfold bind. destruct (Hm w) as [H1 H2].
  destruct (m w) as [a w1|e w1]; cbn [state_of] in *.
  - assert (Hhost1 : _host (this w1) = None).
    { unfold standing in H1. congruence. }
    destruct (Hk a w1 Hhost1) as [H3 (new & H4 & H5)].
    split; [congruence|]. exists new. split; [congruence | exact H5].
  - split; [exact H1|]. exists []. rewrite app_nil_r.
    split; [exact H2 | constructor].
Qed.

Lemma refuses_setTimeout cb t : refusal cb t -> refuses cb (setTimeout t).
Proof.
  intros Ht w _. split; [reflexivity|]. exists [t].
  split; [reflexivity | constructor; [exact Ht | constructor]].
Qed.

Lemma refuses_execute request cb parser info :
  refuses cb (execute request cb parser info).
Proof.
  intros w Hhost. unfold execute, bind, gets. rewrite Hhost.
  apply refuses_setTimeout; [|exact Hhost]. split; [reflexivity | left; reflexivity].
Qed.

Lemma refuses_command c args cb parser info :
  refuses cb (command_ c args cb parser info).
Proof.
  unfold command_. intros w. unfold bind at 1, gets.
  match goal with |- context [getRequest ?t] => set (ty := t) end.
  clearbody ty.
  match goal with |- context [if ?b then _ else _] => destruct b end.
  - apply refuses_setTimeout. split; [reflexivity | right; reflexivity].
  - revert w. apply refuses_bind; [apply quiet_getRequest|]. intros request.
    apply refuses_bind; [apply quiet_writing|]. intros request'.
    apply refuses_execute.
Qed.

Ltac quiet_step :=
  first [ apply quiet_checkCallback | apply quiet_checkPath
        | apply quiet_toHandle | apply quiet_checkBuffer
        | apply quiet_checkPosition | apply quiet_getRequest
        | apply quiet_writing | apply quiet_gets | apply quiet_ret ].

Ltac refuses_steps :=
  repeat first
    [ apply refuses_execute
    | apply refuses_command
    | apply refuses_throw
    | apply refuses_bind; [quiet_step | intros ?] ].

Lemma refuses_after_timer {A} cb t (k : WM A) :
  refusal cb t -> refuses cb k -> refuses cb (bind (setTimeout t) (fun _ => k)).
Proof.
  intros Ht Hk w Hhost. unfold bind. cbn.
  destruct (Hk (add_timer t w) Hhost) as [H1 (new & H2 & H3)].
  split; [exact H1|]. exists (t :: new). split.
  - rewrite H2. cbn [timers add_timer]. rewrite <- app_assoc. reflexivity.
  - constructor; assumption.
Qed.

Lemma refuses_rename oldPath newPath flags cb :
  refuses cb (rename oldPath newPath flags cb).
Proof.
  unfold rename.
  apply refuses_bind; [quiet_step | intros ?].
  apply refuses_bind; [quiet_step | intros oldPath'].
  apply refuses_bind; [quiet_step | intros newPath'].
  destruct (flags =? RenameFlags.OVERWRITE).
  - apply refuses_bind; [quiet_step | intros ?]. apply refuses_command.
  - destruct (flags =? RenameFlags.NONE).
    + apply refuses_bind; [quiet_step | intros ?]. apply refuses_command.
    + intros w. unfold bind at 1. unfold bind at 1.
      change (_host (this w) = None ->
              refused cb w (state_of
                (bind (setTimeout (mkTimer cb SftpStatusCode.OP_UNSUPPORTED
                         "Unsupported rename flags"
                         (mkInfo "rename" None (Some oldPath') (Some newPath')
                                 None None None (Some flags))))
                      (fun _ => command_ CUndefined [oldPath'; newPath'] cb
                                  parseStatus_
                                  (mkInfo "rename" None (Some oldPath')
                                          (Some newPath') None None None
                                          (Some flags))) w))).
      revert w. apply refuses_after_timer; [|apply refuses_command].
      split; [reflexivity | right; reflexivity].
Qed.

Lemma refuses_perform op cb : refuses cb (perform op cb).
Proof.
  destruct op; cbn [perform].
  - unfold open. refuses_steps.
  - unfold close. refuses_steps.
  - unfold read. refuses_steps.
    apply refuses_bind.
    { match goal with |- context [defined ?b] => destruct (defined b) end;
        [apply quiet_checkBuffer | apply quiet_ret]. }
    intros ?. refuses_steps.
  - unfold write. refuses_steps.
    match goal with |- context [if ?c then _ else _] => destruct c end;
      refuses_steps.
  - unfold lstat. refuses_steps.
  - unfold fstat. refuses_steps.
  - unfold setstat. refuses_steps.
  - unfold fsetstat. refuses_steps.
  - unfold opendir. refuses_steps.
  - unfold readdir. refuses_steps.
  - unfold unlink. refuses_steps.
  - unfold mkdir. refuses_steps.
  - unfold rmdir. refuses_steps.
  - unfold realpath. refuses_steps.
  - unfold stat. refuses_steps.
  - apply refuses_rename.
  - unfold readlink. refuses_steps.
  - unfold symlink. refuses_steps.
  - unfold link. refuses_steps.
Qed.

(** X17: on a session that has no transport, no operation sends a packet,
    registers a request, closes anything or invokes a callback, whatever its
    arguments and whether it returns or throws; all it may do is schedule
    timers, and every timer it schedules reports NO_CONNECTION or
    OP_UNSUPPORTED to the operation's own callback. *)
Theorem X17_unbound_session_refuses (op : Operation) (cb : Callback) (w : World) :
  _host (this w) = None ->
  standing (state_of (perform op cb w)) = standing w
  /\ exists new, timers (state_of (perform op cb w)) = timers w ++ new
                 /\ Forall (refusal cb) new.
Proof. apply refuses_perform. Qed.

Lemma X17_unbound_session_refuses_witness :
  standing (state_of (perform (Stat "/a") (Fn 4) (World_new 1)))
  = standing (World_new 1)
  /\ exists new, timers (state_of (perform (Stat "/a") (Fn 4) (World_new 1)))
                 = timers (World_new 1) ++ new
                 /\ Forall (refusal (Fn 4)) new.
Proof. apply (X17_unbound_session_refuses (Stat "/a") (Fn 4) (World_new 1)). reflexivity. Defined.

Lemma end_state w :
  _host (this (state_of (end_ w))) = None
  /\ _requests (this (state_of (end_ w))) = ∅
  /\ sent (state_of (end_ w)) = sent w.
Proof.
  assert (H : forall w0,
             this (state_of (failRequests SftpStatusCode.CONNECTION_LOST
                                          "Connection closed" w0))
             = set_requests ∅ (this w0)
             /\ sent (state_of (failRequests SftpStatusCode.CONNECTION_LOST
                                             "Connection closed" w0)) = sent w0).
  { intros w0. unfold failRequests. unfold bind at 1, gets. cbv zeta.
    unfold bind at 1, modify.
    destruct (forEach_fail (elements (_requests (this w0)))
                (upd_this (set_requests ∅) w0)) as (H1 & H2 & _).
    split; [exact H1 | exact H2]. }
  assert (Hend : state_of (end_ w)
                 = state_of (failRequests SftpStatusCode.CONNECTION_LOST
                               "Connection closed"
                               (match _host (this w) with
                                | Some host =>
                                    add_closed (host, None) (upd_this (set_host None) w)
                                | None => w
                                end))).
  { unfold end_. unfold bind at 1, gets. destruct (_host (this w)); reflexivity. }
  rewrite Hend.
  match goal with |- context [failRequests _ _ ?w0] => destruct (H w0) as [H1 H2] end.
  rewrite H1, H2.
  destruct (_host (this w)) eqn:Hhost; repeat split; exact Hhost.
Qed.

Lemma process_unknown fuel packet w :
  _requests (this w) = ∅ ->
  exists e, _process fuel packet w
            = Throw e (upd_this (fun c => set_bytesReceived
                                            (_bytesReceived c + len packet) c) w).
Proof.
  intros H. unfold _process. unfold bind at 1, modify.
  destruct (SftpPacketReader_new packet false) as [[] response|e r].
  - unfold bind, gets. cbn [this upd_this set_bytesReceived _requests].
    rewrite H, lookup_empty. eexists. reflexivity.
  - eexists. reflexivity.
Qed.

Lemma same_but_id_refl c : same_but_id c c.
Proof. destruct c. reflexivity. Qed.

Lemma same_but_id_trans c1 c2 c3 :
  same_but_id c1 c2 -> same_but_id c2 c3 -> same_but_id c1 c3.
Proof.
  unfold same_but_id. intros H12 H23. rewrite H23 at 1. rewrite H12.
  reflexivity.
Qed.

Lemma same_but_id_host c c' : same_but_id c c' -> _host c' = _host c.
Proof. unfold same_but_id. intros ->. reflexivity. Qed.

Lemma idles_still {A} (m : WM A) :
  (forall w, this (state_of (m w)) = this w) -> idles m.
Proof. intros H w _. rewrite H. apply same_but_id_refl. Qed.

Lemma idles_bind {A B} (m : WM A) (k : A -> WM B) :
  idles m -> (forall a, idles (k a)) -> idles (bind m k).
Proof.
  intros Hm Hk w Hhost. unfold bind. specialize (Hm w Hhost).
  destruct (m w) as [a w1|e w1]; cbn [state_of] in *; [|exact Hm].
  apply (same_but_id_trans _ _ _ Hm). apply Hk.
  rewrite (same_but_id_host _ _ Hm). exact Hhost.
Qed.

Lemma idles_checkCallback cb : idles (checkCallback cb).
Proof. apply idles_still. intros w. destruct cb; reflexivity. Qed.

Lemma idles_checkPath path name : idles (checkPath path name).
Proof.
  apply idles_still. intros w. unfold checkPath.
  destruct (strlen path =? 0); reflexivity.
Qed.

Lemma idles_toHandle handle : idles (toHandle handle).
Proof.
  apply idles_still. intros w. destruct handle as [h|]; [|reflexivity].
  unfold toHandle, bind, gets. destruct (_this h =? _); reflexivity.
Qed.

Lemma idles_checkBuffer buffer offset length : idles (checkBuffer buffer offset length).
Proof.
  apply idles_still. intros w. destruct buffer as [b|]; [|reflexivity]. cbn.
  destruct (offset <? 0); [reflexivity|].
  destruct (length <? 0); [reflexivity|].
  destruct (len b <? offset + length); reflexivity.
Qed.

Lemma idles_checkPosition position : idles (checkPosition position).
Proof.
  apply idles_still. intros w. unfold checkPosition.
  destruct ((position <? 0) || (9223372036854775808 <? position)); reflexivity.
Qed.

Lemma idles_writing {A} p (m : PM A) : idles (writing p m).
Proof. apply idles_still. intros w. unfold writing. destruct (m p); reflexivity. Qed.

Lemma idles_gets {A} (f : World -> A) : idles (gets f).
Proof. apply idles_still. reflexivity. Qed.

Lemma idles_ret {A} (a : A) : idles (ret a).
Proof. apply idles_still. reflexivity. Qed.

Lemma idles_throw {A} e : idles (@throw World A e).
Proof. apply idles_still. reflexivity. Qed.

Lemma idles_setTimeout t : idles (setTimeout t).
Proof. apply idles_still. reflexivity. Qed.

Lemma idles_getRequest type : idles (getRequest type).
Proof.
  unfold getRequest. apply idles_bind; [apply idles_gets|]. intros c.
  apply idles_bind; [|intros; apply idles_writing].
  destruct (loose_eq type SftpPacketType.INIT).
  - destruct (defined (_id c)); [apply idles_throw|].
    intros w _. reflexivity.
  - intros w _. reflexivity.
Qed.

Lemma idles_execute request cb parser info :
  idles (execute request cb parser info).
Proof.
  intros w Hhost. unfold execute, bind, gets. rewrite Hhost.
  apply idles_setTimeout, Hhost.
Qed.

Lemma idles_command c args cb parser info :
  idles (command_ c args cb parser info).
Proof.
  unfold command_. intros w. unfold bind at 1, gets.
  match goal with |- context [getRequest ?t] => set (ty := t) end.
  clearbody ty.
  match goal with |- context [if ?b then _ else _] => destruct b end.
  - apply idles_setTimeout.
  - revert w. apply idles_bind; [apply idles_getRequest|]. intros request.
    apply idles_bind; [apply idles_writing|]. intros request'.
    apply idles_execute.
Qed.

Ltac idles_steps :=
  repeat first
    [ apply idles_execute | apply idles_command | apply idles_throw
    | apply idles_checkCallback | apply idles_checkPath | apply idles_toHandle
    | apply idles_checkBuffer | apply idles_checkPosition
    | apply idles_getRequest | apply idles_writing | apply idles_gets
    | apply idles_ret | apply idles_setTimeout
    | apply idles_bind; [|intros ?] ].

Lemma idles_perform op cb : idles (perform op cb).
Proof.
  destruct op; cbn [perform].
  - unfold open. idles_steps.
  - unfold close. idles_steps.
  - unfold read. idles_steps.
    match goal with |- context [defined ?b] => destruct (defined b) end;
      idles_steps.
  - unfold write. idles_steps.
    match goal with |- context [if ?c then _ else _] => destruct c end;
      idles_steps.
  - unfold lstat. idles_steps.
  - unfold fstat. idles_steps.
  - unfold setstat. idles_steps.
  - unfold fsetstat. idles_steps.
  - unfold opendir. idles_steps.
  - unfold readdir. idles_steps.
  - unfold unlink. idles_steps.
  - unfold mkdir. idles_steps.
  - unfold rmdir. idles_steps.
  - unfold realpath. idles_steps.
  - unfold stat. idles_steps.
  - unfold rename. idles_steps.
    repeat match goal with
           | |- context [if ?c then _ else _] => destruct c
           end; idles_steps.
  - unfold readlink. idles_steps.
  - unfold symlink. idles_steps.
  - unfold link. idles_steps.
Qed.

(** X19: nothing reaches the peer or the caller's pending callbacks once
    [end] has run, whether or not it threw on the way.  The transport is
    unbound and the table empty, so every later response is rejected with an
    exception, changing nothing but the count of bytes received.  Every later
    operation, whatever its arguments and whether it returns or throws, sends
    nothing, registers nothing, closes nothing and invokes no callback; of
    the session object it changes at most the request id counter, and the
    only timers it adds report NO_CONNECTION or OP_UNSUPPORTED to its own
    callback. *)
Theorem X19_nothing_after_end (w : World) (fuel : nat) (packet : Uint8Array)
    (op : Operation) (cb : Callback) :
  let w0 := state_of (end_ w) in
  let w1 := state_of (perform op cb w0) in
  _host (this w0) = None /\ _requests (this w0) = ∅ /\ sent w0 = sent w
  /\ (exists e, _process fuel packet w0
                = Throw e (upd_this (fun c => set_bytesReceived
                                                (_bytesReceived c + len packet) c) w0))
  /\ this w1 = set__id (_id (this w1)) (this w0)
  /\ sent w1 = sent w0 /\ closed w1 = closed w0 /\ calls w1 = calls w0
  /\ exists new, timers w1 = timers w0 ++ new
                 /\ Forall (fun t => t_callback t = cb
                                     /\ (t_code t = SftpStatusCode.NO_CONNECTION
                                         \/ t_code t = SftpStatusCode.OP_UNSUPPORTED))
                           new.
Proof.
  intros w0 w1. destruct (end_state w) as (H1 & H2 & H3). fold w0 in H1, H2, H3.
  split; [exact H1|]. split; [exact H2|]. split; [exact H3|]. split.
  { apply process_unknown, H2. }
  split; [exact (idles_perform op cb w0 H1)|].
  destruct (refuses_perform op cb w0 H1) as [Hst Hnew]. fold w1 in Hst, Hnew.
  unfold standing in Hst.
  split; [congruence|]. split; [congruence|]. split; [congruence|].
  exact Hnew.
Qed.

(** ** Features *)

Lemma command_unsupported feature args cb parser info w :
  _features (this w) !! feature = None ->
  command_ (CStr feature) args cb parser info w
  = Ok tt (add_timer (mkTimer cb SftpStatusCode.OP_UNSUPPORTED
                              "Operation not supported" info) w).
Proof.
  intros H. unfold command_. unfold bind at 1, gets. cbn [key_of].
  rewrite H. reflexivity.
Qed.

(** X16: capability gating.  While the session has not negotiated the
    hard-link feature, [link] with non-empty paths sends nothing and
    registers nothing: it returns after scheduling one OP_UNSUPPORTED failure
    for its callback.  [rename] with the OVERWRITE flag does the same while
    the POSIX rename feature is missing. *)
Theorem X16_feature_gating (w : World) (oldPath newPath : string) (k : nat)
    (overwrite : bool) :
  oldPath <> "" -> newPath <> "" ->
  _features (this w)
    !! (if overwrite then SftpFeature.POSIX_RENAME else SftpFeature.HARDLINK)
  = None ->
  (if overwrite then rename oldPath newPath RenameFlags.OVERWRITE (Fn k)
   else link oldPath newPath (Fn k)) w
  = Ok tt (add_timer
             (mkTimer (Fn k) SftpStatusCode.OP_UNSUPPORTED "Operation not supported"
                (mkInfo (if overwrite then "rename" else "link") None
                        (Some (expand_tilde oldPath)) (Some (expand_tilde newPath))
                        None None None
                        (if overwrite then Some RenameFlags.OVERWRITE else None)))
             w).
Proof.
  intros Hold Hnew Hf. destruct overwrite.
  - unfold rename. rewrite (bind_Ok _ _ w tt w) by reflexivity.
    rewrite (bind_Ok _ _ _ _ _ (checkPath_ok oldPath "oldPath" w Hold)).
    rewrite (bind_Ok _ _ _ _ _ (checkPath_ok newPath "newPath" w Hnew)).
    change (RenameFlags.OVERWRITE =? RenameFlags.OVERWRITE) with true. cbv iota.
    rewrite (bind_Ok _ _ w (CStr SftpFeature.POSIX_RENAME) w) by reflexivity.
    apply command_unsupported, Hf.
  - unfold link. rewrite (bind_Ok _ _ w tt w) by reflexivity.
    rewrite (bind_Ok _ _ _ _ _ (checkPath_ok oldPath "oldPath" w Hold)).
    rewrite (bind_Ok _ _ _ _ _ (checkPath_ok newPath "newPath" w Hnew)).
    apply command_unsupported, Hf.
Qed.

Lemma X16_feature_gating_witness :
  link "~/a" "b" (Fn 2) bound_session
  = Ok tt (add_timer
             (mkTimer (Fn 2) SftpStatusCode.OP_UNSUPPORTED "Operation not supported"
                (mkInfo "link" None (Some (expand_tilde "~/a"))
                        (Some (expand_tilde "b")) None None None None))
             bound_session).
Proof.
  apply (X16_feature_gating bound_session "~/a" "b" 2 false);
    [discriminate | discriminate | reflexivity].
Defined.

(** ** A request on the wire *)

Lemma writeInt64_be64 v :
  0 <= v < 9007199254740992 ->
  bytes32 (js_or (Z.quot v 4294967296) 0)
  ++ bytes32 (js_or (js_and v 4294967295) 0) = be64 v.
Proof.
  intros Hv. unfold be64. rewrite !bytes32_be32, !js_or_0_r, js_and_all_ones.
  rewrite toInt32_idem, !be32_toInt32.
  rewrite Z.quot_div_nonneg by lia. reflexivity.
Qed.

Lemma getRequest_spec t w io rq :
  _id (this w) = io -> loose_eq t SftpPacketType.INIT = false ->
  start (set_id io (set_type t (SftpPacketWriter_new
                                  (_maxWriteBlockLength (this w) + 1024))))
  = Ok tt rq ->
  getRequest t w
  = Ok rq (upd_this (set__id (Some (js_and (num io + 1) 4294967295))) w).
Proof.
  intros Hid Ht Hstart. unfold getRequest. unfold bind at 1, gets.
  rewrite Ht, Hid. unfold bind, modify, writing. rewrite Hstart. reflexivity.
Qed.

(** X15: a READ request on the wire.  On a bound session, a [read] on one
    of the session's handles, without a buffer, sends exactly one packet: its
    own length less four, the opcode 5, the session's current request id, the
    handle as a length-prefixed block, the position as a 64-bit word and the
    number of bytes asked for, cut down to the session's maximal read block.
    The request is registered under that id, and the id counter moves on by
    one. *)
Theorem X15_read_request (w : World) (hd : SftpHandle) (requested pos i : Z)
    (k host : nat) :
  _host (this w) = Some host ->
  _id (this w) = Some i -> -2147483648 <= i < 2147483648 ->
  _requests (this w) !! Some i = None ->
  _this hd = _sessionId (this w) ->
  0 <= pos < 9007199254740992 ->
  len (_handle hd) <= _maxWriteBlockLength (this w) ->
  let n := if _maxReadBlockLength (this w) <? requested
           then _maxReadBlockLength (this w) else requested in
  let packet := be32 (21 + len (_handle hd)) ++ [SftpPacketType.READ] ++ be32 i
                ++ be32 (len (_handle hd)) ++ _handle hd ++ be64 pos ++ be32 n in
  exists w',
    read (Some hd) None 0 requested pos (Fn k) w = Ok tt w'
    /\ sent w' = sent w ++ [(host, packet)]
    /\ _requests (this w') = <[Some i := read_request hd n pos k]> (_requests (this w))
    /\ _id (this w') = Some (toInt32 (i + 1))
    /\ _bytesSent (this w') = _bytesSent (this w) + len packet
    /\ timers w' = timers w /\ calls w' = calls w.
Proof.
  intros Hhost Hid Hi Hfree Hown Hpos Hcap n packet.
  pose proof (len_nonneg (_handle hd)) as Hh.
  set (cap := _maxWriteBlockLength (this w) + 1024).
  destruct (start_spec cap SftpPacketType.READ (Some i))
    as (rq1 & Hstart & Hwf1 & Hout1 & Hlen1 & Hty1 & Hid1).
  { change (len (header SftpPacketType.READ (Some i))) with 9. lia. }
  assert (Hhdr : header SftpPacketType.READ (Some i)
                 = bytes32 0 ++ [SftpPacketType.READ] ++ bytes32 i).
  { unfold header. change (unnumbered SftpPacketType.READ) with false. cbv iota.
    rewrite js_or_0_r, toInt32_small by lia. reflexivity. }
  set (body := bytes32 (len (_handle hd)) ++ _handle hd ++ be64 pos ++ bytes32 n).
  assert (Hbody : writes (run writeData (_handle hd) None;
                          run writeInt64 pos; writeInt32 n) body).
  { unfold body. rewrite <- (writeInt64_be64 pos Hpos).
    rewrite (app_assoc (bytes32 _) (_handle hd)).
    apply writes_bind; [apply writes_writeData|].
    apply writes_bind; [apply writes_writeInt64 | apply writes_writeInt32]. }
  assert (Hblen : len body = 16 + len (_handle hd)).
  { unfold body, be64. rewrite !len_app, <- !bytes32_be32, !len_bytes32. lia. }
  assert (Hpos1 : position rq1 = 9).
  { rewrite <- (out_len rq1 Hwf1), Hout1. reflexivity. }
  destruct (Hbody rq1 Hwf1) as (rq2 & Hrq2 & Hwf2 & Hout2 & Hlen2).
  { rewrite Hpos1, Hblen, Hlen1. unfold cap. lia. }
  assert (Hkeep : type_ rq2 = type_ rq1 /\ id_ rq2 = id_ rq1).
  { revert Hrq2. unfold bind at 1.
    destruct (writeData _ _ rq1) as [[] a|] eqn:Ha; [|discriminate].
    unfold bind at 1.
    destruct (writeInt64 _ a) as [[] b|] eqn:Hb; [|discriminate].
    intros Hc. apply writeData_keeps in Ha. apply writeInt64_keeps in Hb.
    apply writeInt32_keeps in Hc. split; intuition congruence. }
  assert (Hpos2 : position rq2 = 25 + len (_handle hd)).
  { rewrite <- (out_len rq2 Hwf2), Hout2, len_app, (out_len rq1 Hwf1). lia. }
  destruct (finish_spec rq2 Hwf2 ltac:(lia)) as (rq3 & Hfin).
  assert (Hpacket : bytes32 (position rq2 - 4) ++ drop 4 (out rq2) = packet).
  { rewrite Hout2, Hout1, Hhdr, Hpos2. unfold packet, body.
    rewrite <- !bytes32_be32.
    replace (25 + len (_handle hd) - 4) with (21 + len (_handle hd)) by lia.
    rewrite <- !app_assoc. reflexivity. }
  rewrite Hpacket in Hfin.
  unfold read.
  rewrite (bind_Ok _ _ w tt w) by reflexivity.
  rewrite (bind_Ok _ _ w (_handle hd) w)
    by (unfold toHandle, bind, gets; rewrite Hown, Z.eqb_refl; reflexivity).
  cbn [defined]. rewrite (bind_Ok _ _ w tt w) by reflexivity.
  rewrite (bind_Ok _ _ w tt w).
  2:{ unfold checkPosition.
      destruct (Z.ltb_spec pos 0); [lia|].
      destruct (Z.ltb_spec 9223372036854775808 pos); [lia|]. reflexivity. }
  rewrite (bind_Ok _ _ w (this w) w) by reflexivity.
  rewrite (bind_Ok _ _ _ _ _
             (getRequest_spec (TNum SftpPacketType.READ) w (Some i) rq1
                Hid eq_refl Hstart)).
  set (w1 := upd_this (set__id (Some (js_and (num (Some i) + 1) 4294967295))) w).
  rewrite (bind_Ok _ _ w1 rq2 w1) by (unfold writing; fold n; rewrite Hrq2; reflexivity).
  unfold execute. rewrite (bind_Ok _ _ w1 (this w1) w1) by reflexivity.
  cbn [this w1 upd_this set__id _host _requests]. rewrite Hhost.
  destruct Hkeep as [_ Hid2]. rewrite Hid2, Hid1, Hfree. cbn [defined].
  rewrite Hfin. unfold bind, modify.
  eexists. split; [reflexivity|].
  cbn [this sent timers calls upd_this add_sent set_requests set_bytesSent set__id
       _requests _id _bytesSent num].
  subst w1.
  cbn [this sent timers calls upd_this set__id _requests _id _bytesSent num].
  rewrite js_and_all_ones.
  repeat split; reflexivity.
Qed.

Lemma X15_read_request_witness :
  exists w',
    read (Some (mkHandle [7; 8] 1)) None 0 300000 3 (Fn 9)
         (state_of (ready_session (World_new 1))) = Ok tt w'
    /\ sent w' = sent (state_of (ready_session (World_new 1)))
                 ++ [(0%nat, [0; 0; 0; 23; 5; 0; 0; 0; 1; 0; 0; 0; 2; 7; 8;
                              0; 0; 0; 0; 0; 0; 0; 3; 0; 4; 0; 0])]
    /\ _requests (this w')
       = <[Some 1 := read_request (mkHandle [7; 8] 1) 262144 3 9]>
           (_requests (this (state_of (ready_session (World_new 1)))))
    /\ _id (this w') = Some 2
    /\ _bytesSent (this w')
       = _bytesSent (this (state_of (ready_session (World_new 1)))) + 27
    /\ timers w' = timers (state_of (ready_session (World_new 1)))
    /\ calls w' = calls (state_of (ready_session (World_new 1))).
Proof.
  apply (X15_read_request (state_of (ready_session (World_new 1)))
           (mkHandle [7; 8] 1) 300000 3 1 9 0);
    first [ reflexivity | lia | (vm_compute; split; discriminate)
          | (vm_compute; discriminate) ].
Defined.

(** ** Request ids *)

Lemma toInt32_add a b : toInt32 (toInt32 a + b) = toInt32 (a + b).
Proof.
  unfold toInt32 at 1 3. f_equal.
  rewrite <- (Z.add_assoc (toInt32 a)), <- (Z.add_assoc a).
  rewrite (Z.add_mod (toInt32 a)), (Z.add_mod a) by lia.
  rewrite toInt32_mod. reflexivity.
Qed.

Lemma toInt32_inj_near a b :
  toInt32 a = toInt32 b -> -4294967296 < a - b < 4294967296 -> a = b.
Proof.
  intros H Hd.
  assert (Hm : a mod 4294967296 = b mod 4294967296)
    by (rewrite <- (toInt32_mod a), <- (toInt32_mod b), H; reflexivity).
  pose proof (Z.div_mod a 4294967296 ltac:(lia)) as Ha.
  pose proof (Z.div_mod b 4294967296 ltac:(lia)) as Hb.
  rewrite Hm in Ha.
  set (qa := a / 4294967296) in *. set (qb := b / 4294967296) in *.
  set (r := b mod 4294967296) in *. clearbody qa qb r. clear Hm H.
  assert (qa = qb) by lia. subst. reflexivity.
Qed.

Lemma request_ids_run (n : nat) (t i : Z) (w : World) :
  t <> SftpPacketType.INIT ->
  _id (this w) = Some i -> -2147483648 <= i < 2147483648 ->
  0 <= _maxWriteBlockLength (this w) ->
  exists w',
    request_ids n (TNum t) w
    = Ok (map (fun j => Some (toInt32 (i + Z.of_nat j))) (seq 0 n)) w'
    /\ _id (this w') = Some (toInt32 (i + Z.of_nat n))
    /\ _maxWriteBlockLength (this w') = _maxWriteBlockLength (this w).
Proof.
  intros Ht. revert w i. induction n as [|n IH]; intros w i Hid Hi Hcap.
  - exists w. cbn [request_ids seq map]. rewrite Z.add_0_r, toInt32_small by lia.
    split; [reflexivity|]. split; [exact Hid | reflexivity].
  - destruct (start_spec (_maxWriteBlockLength (this w) + 1024) t (Some i))
      as (rq & Hstart & _ & _ & _ & _ & Hrq).
    { assert (len (header t (Some i)) <= 9).
      { unfold header. rewrite !len_app, len_bytes32.
        change (len [js_and t 255]) with 1.
        destruct (unnumbered t); [change (len []) with 0 | rewrite len_bytes32]; lia. }
      lia. }
    assert (Hne : loose_eq (TNum t) SftpPacketType.INIT = false)
      by (apply Z.eqb_neq; exact Ht).
    pose proof (getRequest_spec (TNum t) w (Some i) rq Hid Hne Hstart) as Hget.
    cbn [num] in Hget. rewrite js_and_all_ones in Hget.
    set (w1 := upd_this (set__id (Some (toInt32 (i + 1)))) w) in *.
    destruct (IH w1 (toInt32 (i + 1)) eq_refl (toInt32_range _) Hcap)
      as (w' & Hrun & Hid' & Hcap').
    exists w'. cbn [request_ids]. rewrite (bind_Ok _ _ _ _ _ Hget).
    rewrite (bind_Ok _ _ _ _ _ Hrun). unfold ret.
    split; [|split].
    + f_equal. cbn [seq map]. change (Z.of_nat 0) with 0.
      rewrite Z.add_0_r, (toInt32_small i), Hrq by lia.
      f_equal. rewrite <- seq_shift, map_map. apply map_ext. intros j.
      rewrite toInt32_add. do 2 f_equal. lia.
    + rewrite Hid', toInt32_add. do 2 f_equal. lia.
    + exact Hcap'.
Qed.

(** X14: request ids.  Starting from the id [i], consecutive requests of a
    numeric type other than INIT get the ids [i], [i + 1], ... wrapped to
    signed 32 bits, and no id comes twice among up to 2^32 of them. *)
Theorem X14_request_ids (n : nat) (t i : Z) (w : World) :
  t <> SftpPacketType.INIT ->
  _id (this w) = Some i -> -2147483648 <= i < 2147483648 ->
  0 <= _maxWriteBlockLength (this w) ->
  Z.of_nat n <= 4294967296 ->
  exists w',
    request_ids n (TNum t) w
    = Ok (map (fun j => Some (toInt32 (i + Z.of_nat j))) (seq 0 n)) w'
    /\ NoDup (map (fun j => Some (toInt32 (i + Z.of_nat j))) (seq 0 n))
    /\ _id (this w') = Some (toInt32 (i + Z.of_nat n)).
Proof.
  intros Ht Hid Hi Hcap Hn.
  destruct (request_ids_run n t i w Ht Hid Hi Hcap) as (w' & H1 & H2 & _).
  exists w'. split; [exact H1|]. split; [|exact H2].
  apply (NoDup_fmap_2_strong (fun j => Some (toInt32 (i + Z.of_nat j))));
    [|apply NoDup_seq].
  intros x y Hx Hy Heq. apply elem_of_seq in Hx, Hy.
  cbv beta in Heq. apply (inj Some) in Heq.
  apply toInt32_inj_near in Heq; lia.
Qed.

Lemma X14_request_ids_witness :
  exists w',
    request_ids 3 (TNum 17) (upd_this (set__id (Some 2147483646)) (World_new 1))
    = Ok [Some 2147483646; Some 2147483647; Some (-2147483648)] w'
    /\ NoDup [Some 2147483646; Some 2147483647; Some (-2147483648)]
    /\ _id (this w') = Some (-2147483647).
Proof.
  apply (X14_request_ids 3 17 2147483646
           (upd_this (set__id (Some 2147483646)) (World_new 1)));
    first [ discriminate | reflexivity | lia | (vm_compute; discriminate) ].
Defined.

(** ** Handles and data *)

(** X20: handles are capabilities of the session that received them.  The
    handle that [parseHandle] passes to the callback for a HANDLE response
    carries the server's bytes and the session's own id; [toHandle] gives
    those bytes back in a session with that id and rejects the handle in any
    other session. *)
Theorem X20_handle_capability (fuel : nat) (response r' : SftpPacket) (w w2 : World)
    (k : nat) (d : Uint8Array) :
  type_ response = TNum SftpPacketType.HANDLE ->
  readData true response = Ok d r' ->
  runParser fuel parseHandle_ response (Fn k) w
  = Ok tt (add_call (mkCall k None (PHandle (mkHandle d (_sessionId (this w))))) w)
  /\ toHandle (Some (mkHandle d (_sessionId (this w)))) w2
     = if _sessionId (this w) =? _sessionId (this w2) then Ok d w2
       else Throw (ThrowSftpError "Invalid handle") w2.
Proof.
  intros Hty Hread. split.
  - unfold runParser, parseHandle, checkResponse, bind, liftP, liftW, get, gets, ret.
    cbn [fst snd]. rewrite Hty.
    change (loose_eq (TNum SftpPacketType.HANDLE) SftpPacketType.STATUS) with false.
    change (loose_ne (TNum SftpPacketType.HANDLE) SftpPacketType.HANDLE) with false.
    cbn [negb fst snd]. rewrite Hread. reflexivity.
  - unfold toHandle, bind, gets, ret, throw. cbn [_this _handle].
    destruct (_sessionId (this w) =? _sessionId (this w2)); reflexivity.
Qed.

Lemma X20_handle_capability_witness :
  runParser 0 parseHandle_
    (mkPacket (TNum 102) (Some 1) [0; 0; 0; 6; 102; 0; 0; 0; 1; 0; 0; 0; 2; 7; 8] 9 15 None)
    (Fn 3) (World_new 4)
  = Ok tt (add_call (mkCall 3 None (PHandle (mkHandle [7; 8] (_sessionId (this (World_new 4))))))
                    (World_new 4))
  /\ toHandle (Some (mkHandle [7; 8] (_sessionId (this (World_new 4))))) (World_new 5)
     = if _sessionId (this (World_new 4)) =? _sessionId (this (World_new 5))
       then Ok [7; 8] (World_new 5)
       else Throw (ThrowSftpError "Invalid handle") (World_new 5).
Proof.
  apply (X20_handle_capability 0
           (mkPacket (TNum 102) (Some 1)
                     [0; 0; 0; 6; 102; 0; 0; 0; 1; 0; 0; 0; 2; 7; 8] 9 15 None)
           (mkPacket (TNum 102) (Some 1)
                     [0; 0; 0; 6; 102; 0; 0; 0; 1; 0; 0; 0; 2; 7; 8] 15 15 None)
           (World_new 4) (World_new 5) 3 [7; 8]).
  - reflexivity.
  - vm_compute. reflexivity.
Defined.



(** ** Paths *)

(** X23: the rewriting of a leading tilde by [checkPath].  "~" becomes "."
    and "~/rest" becomes "./rest"; doing it twice changes nothing more, a
    non-empty path stays non-empty, and no path that [checkPath] returns is
    "~" or begins with "~/". *)
Theorem X23_expand_tilde (path : string) :
  expand_tilde "~" = "."
  /\ (forall rest, expand_tilde ("~/" +:+ rest) = "./" +:+ rest)
  /\ expand_tilde (expand_tilde path) = expand_tilde path
  /\ (if String.eqb path "" then true else negb (String.eqb (expand_tilde path) ""))
     = true
  /\ String.eqb (expand_tilde path) "~" = false
  /\ String.prefix "~/" (expand_tilde path) = false.
Proof.
  split; [reflexivity|]. split; [reflexivity|].
  destruct path as [|c rest]; [repeat split|].
  destruct c as [[] [] [] [] [] [] [] []];
    try (repeat split; reflexivity).
  destruct rest as [|c2 rest]; [repeat split|].
  destruct c2 as [[] [] [] [] [] [] [] []]; repeat split; reflexivity.
Qed.

(** ** Responses that break the protocol *)

(** X22: a NAME response to [realpath] or [readlink] whose count is not 1
    makes [_process] throw "Invalid response".  By then the request has left
    the table, so its callback is never invoked, neither now nor by a later
    response. *)
Theorem X22_invalid_name_count (fuel : nat) (packet : Uint8Array) (w : World)
    (r r1 : SftpPacket) (rq : SftpRequest) (count : Z) :
  response_of packet = Some r ->
  _requests (this w) !! id_ r = Some rq ->
  responseParser rq = parsePath_ ->
  type_ r = TNum SftpPacketType.NAME ->
  readInt32 (set_info (Some (rinfo rq)) r) = Ok count r1 ->
  count <> 1 ->
  exists w',
    _process fuel packet w = Throw (ThrowSftpError "Invalid response") w'
    /\ calls w' = calls w /\ timers w' = timers w /\ sent w' = sent w
    /\ _requests (this w') = delete (id_ r) (_requests (this w)).
Proof.
  intros Hr Hrq Hp Hty Hcount Hne.
  rewrite (_process_dispatch fuel packet w r rq Hr Hrq), Hp.
  unfold runParser, parsePath, checkResponse, bind, liftP, liftW, get, gets, ret, throw.
  cbn [fst snd type_ set_info]. rewrite Hty.
  change (loose_eq (TNum SftpPacketType.NAME) SftpPacketType.STATUS) with false.
  change (loose_ne (TNum SftpPacketType.NAME) SftpPacketType.NAME) with false.
  cbn [negb fst snd]. rewrite Hcount. cbn [fst snd].
  destruct (Z.eqb_spec count 1) as [->|_]; [congruence|]. cbn [negb snd].
  eexists. split; [reflexivity|]. repeat split.
Qed.

Lemma X22_invalid_name_count_witness :
  exists w',
    _process 0 [0; 0; 0; 9; 104; 0; 0; 0; 2; 0; 0; 0; 0] three_pending
    = Throw (ThrowSftpError "Invalid response") w'
    /\ calls w' = calls three_pending /\ timers w' = timers three_pending
    /\ sent w' = sent three_pending
    /\ _requests (this w')
       = delete (id_ (mkPacket (TNum 104) (Some 2)
                               [0; 0; 0; 9; 104; 0; 0; 0; 2; 0; 0; 0; 0] 9 13 None))
                (_requests (this three_pending)).
Proof.
  apply (X22_invalid_name_count 0 [0; 0; 0; 9; 104; 0; 0; 0; 2; 0; 0; 0; 0]
           three_pending
           (mkPacket (TNum 104) (Some 2)
                     [0; 0; 0; 9; 104; 0; 0; 0; 2; 0; 0; 0; 0] 9 13 None)
           (mkPacket (TNum 104) (Some 2)
                     [0; 0; 0; 9; 104; 0; 0; 0; 2; 0; 0; 0; 0] 13 13
                     (Some (info_path "realpath" "/b")))
           (mkRequest (Fn 2) parsePath_ (info_path "realpath" "/b")) 0);
    first [ discriminate | (vm_compute; reflexivity) ].
Defined.

(** ** The handshake *)

Lemma init_run sid host k :
  _init host (Fn k) (World_new sid) = Ok tt (handshaking sid host k).
Proof. vm_compute. reflexivity. Qed.

Lemma version_reply sid host k fuel v :
  0 <= v < 2147483648 ->
  exists w2,
    _process fuel ([0; 0; 0; 5; 2] ++ bytes32 v) (handshaking sid host k) = Ok tt w2
    /\ _requests (this w2) = ∅ /\ _features (this w2) = ∅
    /\ sent w2 = sent (handshaking sid host k) /\ timers w2 = []
    /\ if v =? 3
       then _ready (this w2) = true /\ closed w2 = []
            /\ calls w2 = [mkCall k None PUndefined]
       else _ready (this w2) = false /\ closed w2 = [(host, Some 3002)]
            /\ calls w2
               = [mkCall k (Some (createError SftpStatusCode.BAD_MESSAGE
                                    "Unexpected protocol version" (info_of "init")))
                         PUndefined].
Proof.
  intros Hv. set (w1 := handshaking sid host k).
  destruct (reader_new_spec SftpPacketType.VERSION 0 (bytes32 v))
    as (r & Hr & Hty & Hid & Hwf & Hrest);
    [unfold SftpPacketType.VERSION; lia | discriminate | vm_compute; reflexivity |].
  change (unnumbered SftpPacketType.VERSION) with true in Hr, Hid. cbv iota in Hr, Hid.
  change (bytes32 (1 + len [] + len (bytes32 v)) ++ [SftpPacketType.VERSION] ++ [] ++ bytes32 v)
    with ([0; 0; 0; 5; 2] ++ bytes32 v) in Hr.
  assert (Hresp : response_of ([0; 0; 0; 5; 2] ++ bytes32 v) = Some r)
    by (unfold response_of; rewrite Hr; reflexivity).
  assert (Hlook : _requests (this w1) !! id_ r = Some (init_request host k))
    by (rewrite Hid; apply lookup_insert_eq).
  rewrite (_process_dispatch fuel _ w1 r _ Hresp Hlook).
  set (r0 := set_info (Some (rinfo (init_request host k))) r).
  destruct (readInt32_at r0 v [] Hwf) as (H1 & Hwf1 & Hrest1).
  { rewrite app_nil_r. exact Hrest. }
  rewrite toInt32_small, int32_image_nonneg in H1 by lia.
  assert (Hrem : length_ (advance 4 r0) - position (advance 4 r0) = 0).
  { pose proof (rest_len _ Hwf1) as Hl. rewrite Hrest1 in Hl.
    unfold remaining in Hl. change (len []) with 0 in Hl. lia. }
  cbn [responseParser callback init_request].
  unfold runParser, parseInit. unfold bind at 1, liftP at 1, get. cbn [fst snd].
  change (type_ r0) with (type_ r). rewrite Hty.
  change (loose_ne (TNum SftpPacketType.VERSION) SftpPacketType.VERSION) with false.
  cbv iota. unfold bind at 1, liftP at 1. cbn [fst snd]. rewrite H1.
  rewrite Hid.
  destruct (Z.eqb_spec v 3) as [->|Hne]; cbn [negb].
  - unfold bind at 1.
    assert (Hloop : forall s, extension_loop fuel (advance 4 r0, s)
                              = Ok tt (advance 4 r0, s)).
    { intros s. destruct fuel; cbn [extension_loop];
        unfold bind, liftP, get, ret; cbn [fst snd]; rewrite Hrem; reflexivity. }
    rewrite Hloop. eexists. split; [reflexivity|]. vm_compute. repeat split.
  - eexists. split; [reflexivity|]. vm_compute. repeat split.
Qed.

(** X13: the handshake.  [_init] on a fresh session binds the transport
    and sends the nine bytes of an INIT packet for version 3, registered
    under the [null] id.  A VERSION reply without extensions then completes
    it: for version 3 the session becomes ready, with no feature enabled, and
    the callback is invoked once without an error; for any other version the
    transport is closed with reason 3002, the session stays not ready and the
    callback gets a BAD_MESSAGE error. *)
Theorem X13_handshake (sid : Z) (host k fuel : nat) (v : Z) :
  0 <= v < 2147483648 ->
  exists w1 w2,
    _init host (Fn k) (World_new sid) = Ok tt w1
    /\ sent w1 = [(host, [0; 0; 0; 5; 1; 0; 0; 0; 3])]
    /\ _requests (this w1) = <[None := init_request host k]> ∅
    /\ _process fuel ([0; 0; 0; 5; 2] ++ be32 v) w1 = Ok tt w2
    /\ _requests (this w2) = ∅ /\ _features (this w2) = ∅
    /\ sent w2 = sent w1 /\ timers w2 = []
    /\ if v =? 3
       then _ready (this w2) = true /\ closed w2 = []
            /\ calls w2 = [mkCall k None PUndefined]
       else _ready (this w2) = false /\ closed w2 = [(host, Some 3002)]
            /\ calls w2
               = [mkCall k (Some (createError SftpStatusCode.BAD_MESSAGE
                                    "Unexpected protocol version" (info_of "init")))
                         PUndefined].
Proof.
  intros Hv. rewrite <- bytes32_be32.
  destruct (version_reply sid host k fuel v Hv) as (w2 & H).
  exists (handshaking sid host k), w2.
  split; [apply init_run|]. split; [reflexivity|]. split; [reflexivity|]. exact H.
Qed.

Lemma X13_handshake_witness :
  exists w1 w2,
    _init 0 (Fn 7) (World_new 1) = Ok tt w1
    /\ sent w1 = [(0%nat, [0; 0; 0; 5; 1; 0; 0; 0; 3])]
    /\ _requests (this w1) = <[None := init_request 0 7]> ∅
    /\ _process 0 ([0; 0; 0; 5; 2] ++ be32 4) w1 = Ok tt w2
    /\ _requests (this w2) = ∅ /\ _features (this w2) = ∅
    /\ sent w2 = sent w1 /\ timers w2 = []
    /\ _ready (this w2) = false /\ closed w2 = [(0%nat, Some 3002)]
    /\ calls w2
       = [mkCall 7 (Some (createError SftpStatusCode.BAD_MESSAGE
                            "Unexpected protocol version" (info_of "init")))
                 PUndefined].
Proof. apply (X13_handshake 1 0 7 0 4). lia. Defined.

(** ** Comma-separated extension values *)

(** String concatenation has to compute in the proofs about [indexOf]. *)
#[local] Arguments String.append !s1 s2 : simpl nomatch.

Lemma prefix_spec p s :
  String.prefix p s = true <-> exists post, s = p +:+ post.
Proof.
  revert s. induction p as [|a p IH]; intros s.
  - split; [intros _; exists s; reflexivity | intros _; destruct s; reflexivity].
  - destruct s as [|b s]; cbn [String.prefix String.append].
    + split; [discriminate | intros [post H]; discriminate].
    + destruct (ascii_dec a b) as [->|Hne].
      * rewrite IH. split; intros [post H]; exists post.
        -- cbn [String.append]. f_equal. exact H.
        -- cbn [String.append] in H. injection H as H. exact H.
      * split; [discriminate|]. intros [post H].
        cbn [String.append] in H. injection H as H _. congruence.
Qed.

(** [indexOf] finds the needle exactly when it occurs. *)
Lemma indexOf_from_spec n h i :
  0 <= i ->
  (0 <=? indexOf_from i h n) = true <-> exists pre post, h = pre +:+ n +:+ post.
Proof.
  revert i. induction h as [|c h IH]; intros i Hi; cbn [indexOf_from].
  - destruct (String.prefix n "") eqn:Hp.
    + split; [|intros _; apply Z.leb_le; lia].
      intros _. apply prefix_spec in Hp as [post Hp]. exists "", post. exact Hp.
    + split; [discriminate|]. intros (pre & post & H).
      destruct pre; [|discriminate]. cbn [String.append] in H.
      assert (String.prefix n "" = true) by (apply prefix_spec; eauto).
      congruence.
  - destruct (String.prefix n (String c h)) eqn:Hp.
    + split; [|intros _; apply Z.leb_le; lia].
      intros _. apply prefix_spec in Hp as [post Hp]. exists "", post. exact Hp.
    + rewrite IH by lia. split.
      * intros (pre & post & H). exists (String c pre), post.
        cbn [String.append]. f_equal. exact H.
      * intros (pre & post & H). destruct pre as [|c' pre].
        -- cbn [String.append] in H.
           assert (String.prefix n (String c h) = true) by (apply prefix_spec; eauto).
           congruence.
        -- cbn [String.append] in H. injection H as _ H. exists pre, post. exact H.
Qed.

Lemma tokens_nonempty s : tokens s <> [].
Proof.
  destruct s as [|c s]; cbn [tokens]; [discriminate|].
  destruct (Ascii.eqb c ","); [discriminate|].
  destruct (tokens s); discriminate.
Qed.

(** The first token is what stands before the first comma. *)
Lemma first_token v s :
  comma_free v = true ->
  (exists post, s +:+ "," = v +:+ "," +:+ post) <-> hd "" (tokens s) = v.
Proof.
  revert v. induction s as [|c s IH]; intros v Hv.
  - cbn [tokens hd String.append]. split.
    + intros [post H]. destruct v as [|a v]; [reflexivity|].
      cbn [String.append] in H. injection H as <- H.
      destruct v; discriminate.
    + intros <-. exists "". reflexivity.
  - cbn [tokens String.append].
    destruct (Ascii.eqb_spec c ",") as [->|Hc].
    + cbn [hd]. split.
      * intros [post H]. destruct v as [|a v]; [reflexivity|].
        cbn [String.append] in H. injection H as <- _.
        cbn [comma_free] in Hv. discriminate.
      * intros <-. exists (s +:+ ","). reflexivity.
    + pose proof (tokens_nonempty s) as Hne.
      destruct (tokens s) as [|t ts] eqn:Ht; [congruence|]. cbn [hd].
      split.
      * intros [post H]. destruct v as [|a v].
        -- cbn [String.append] in H. congruence.
        -- cbn [String.append] in H. injection H as <- H.
           cbn [comma_free] in Hv. apply andb_true_iff in Hv as [_ Hv].
           f_equal. specialize (IH v Hv). cbn [hd] in IH. apply IH.
           exists post. exact H.
      * intros <-. cbn [comma_free] in Hv. apply andb_true_iff in Hv as [_ Hv].
        specialize (IH t Hv). cbn [hd] in IH.
        destruct (proj2 IH eq_refl) as [post H]. exists post.
        cbn [String.append]. f_equal. exact H.
Qed.

(** A later token is what stands between two commas. *)
Lemma later_token v s :
  comma_free v = true ->
  (exists pre post, s +:+ "," = pre +:+ "," +:+ v +:+ "," +:+ post)
  <-> In v (tl (tokens s)).
Proof.
  intros Hv. induction s as [|c s IH].
  - cbn [tokens tl String.append In]. split; [|tauto].
    intros (pre & post & H). destruct pre as [|a pre]; cbn [String.append] in H.
    + injection H as H. destruct v; discriminate.
    + injection H as _ H. destruct pre; discriminate.
  - cbn [tokens String.append].
    assert (Hsplit : (exists pre post,
                        String c (s +:+ ",") = pre +:+ "," +:+ v +:+ "," +:+ post)
                     <-> (c = ","%char /\ exists post, s +:+ "," = v +:+ "," +:+ post)
                         \/ exists pre post,
                              s +:+ "," = pre +:+ "," +:+ v +:+ "," +:+ post).
    { split.
      - intros (pre & post & H). destruct pre as [|a pre]; cbn [String.append] in H.
        + injection H as -> H. left. split; [reflexivity|]. exists post. exact H.
        + injection H as _ H. right. exists pre, post. exact H.
      - intros [[-> [post H]]|(pre & post & H)].
        + exists "", post. cbn [String.append]. f_equal. exact H.
        + exists (String c pre), post. cbn [String.append]. f_equal. exact H. }
    rewrite Hsplit, IH, (first_token v s Hv).
    pose proof (tokens_nonempty s) as Hne.
    destruct (Ascii.eqb_spec c ",") as [->|Hc].
    + cbn [tl]. destruct (tokens s) as [|t ts]; [congruence|]. cbn [hd tl In].
      split; [intros [[_ H]|H]; auto | intros [H|H]; auto].
    + destruct (tokens s) as [|t ts]; [congruence|]. cbn [hd tl].
      split; [intros [[H _]|H]; [congruence | exact H] | auto].
Qed.

Lemma append_assoc3 (a b c : string) : (a +:+ b) +:+ c = a +:+ b +:+ c.
Proof.
  induction a as [|x a IH]; cbn [String.append]; [reflexivity|].
  f_equal. exact IH.
Qed.

Lemma contains_spec (values value : string) :
  comma_free value = true ->
  SftpExtensions.contains (Some (EString values)) value = true
  <-> In value (tokens values).
Proof.
  intros Hv. unfold SftpExtensions.contains, indexOf. cbn [ext_to_string].
  rewrite indexOf_from_spec by lia. cbn [String.append].
  pose proof (tokens_nonempty values) as Hne.
  assert (Hin : In value (tokens values)
                <-> hd "" (tokens values) = value \/ In value (tl (tokens values))).
  { destruct (tokens values) as [|t ts]; [congruence|]. cbn [hd tl In]. tauto. }
  rewrite Hin, <- (first_token value values Hv), <- (later_token value values Hv).
  split.
  - intros (pre & post & H). rewrite append_assoc3 in H.
    destruct pre as [|a pre]; cbn [String.append] in H.
    + injection H as H. left. exists post. exact H.
    + injection H as _ H. right. exists pre, post. exact H.
  - intros [[post H]|(pre & post & H)].
    + exists "", post. rewrite append_assoc3. cbn [String.append]. f_equal. exact H.
    + exists (String "," pre), post. rewrite append_assoc3.
      cbn [String.append]. f_equal. exact H.
Qed.

(** X9: [contains] is membership among the comma-separated tokens.  For a
    value without a comma, [contains(values, value)] holds exactly when the
    value is one of the strings that splitting [values] at its commas
    gives. *)
Theorem X9_contains_tokens (values value : string) :
  comma_free value = true ->
  SftpExtensions.contains (Some (EString values)) value = true
  <-> In value (tokens values).
Proof. apply contains_spec. Qed.

Lemma X9_contains_tokens_witness :
  SftpExtensions.contains (Some (EString "1,2")) "2" = true
  <-> In "2" (tokens "1,2").
Proof. apply (X9_contains_tokens "1,2" "2"). reflexivity. Defined.

(** *** Values that arrive as bytes *)

Lemma digit_not_comma d :
  0 <= d < 10 -> Ascii.eqb (ascii_of_N (Z.to_N (48 + d))) "," = false.
Proof.
  intros H.
  assert (Hd : d = 0 \/ d = 1 \/ d = 2 \/ d = 3 \/ d = 4 \/ d = 5 \/ d = 6
               \/ d = 7 \/ d = 8 \/ d = 9) by lia.
  repeat (destruct Hd as [->|Hd]; [reflexivity|]). subst d. reflexivity.
Qed.

Lemma decimal_pos_comma_free fuel n acc :
  comma_free acc = true -> comma_free (decimal_pos fuel n acc) = true.
Proof.
  revert n acc. induction fuel as [|fuel IH]; intros n acc Hacc; [exact Hacc|].
  cbn [decimal_pos].
  assert (Hacc' : comma_free (String (ascii_of_N (Z.to_N (48 + n mod 10))) acc) = true).
  { cbn [comma_free]. rewrite digit_not_comma by (apply Z.mod_pos_bound; lia).
    exact Hacc. }
  destruct (n <? 10); [exact Hacc' | apply IH, Hacc'].
Qed.

Lemma decimal_comma_free x : comma_free (decimal x) = true.
Proof.
  unfold decimal. destruct (x <? 0).
  - cbn [String.append comma_free]. apply decimal_pos_comma_free. reflexivity.
  - apply decimal_pos_comma_free. reflexivity.
Qed.

Lemma tokens_comma_free s : comma_free s = true -> tokens s = [s].
Proof.
  induction s as [|c s IH]; [reflexivity|]. cbn [comma_free tokens].
  intros H. apply andb_true_iff in H as [Hc Hs].
  destruct (Ascii.eqb c ","); [discriminate|]. rewrite (IH Hs). reflexivity.
Qed.

Lemma tokens_cons s rest :
  comma_free s = true -> tokens (s +:+ "," +:+ rest) = s :: tokens rest.
Proof.
  induction s as [|c s IH]; intros H.
  - reflexivity.
  - cbn [comma_free] in H. apply andb_true_iff in H as [Hc Hs].
    specialize (IH Hs). cbn [String.append tokens] in IH |- *.
    destruct (Ascii.eqb c ","); [discriminate|].
    rewrite IH. reflexivity.
Qed.

Lemma tokens_join b : b <> [] -> tokens (join_comma b) = map decimal b.
Proof.
  induction b as [|x b IH]; [congruence|]. intros _.
  destruct b as [|y b].
  - cbn [join_comma map]. apply tokens_comma_free, decimal_comma_free.
  - change (join_comma (x :: y :: b))
      with (decimal x +:+ "," +:+ join_comma (y :: b)).
    rewrite tokens_cons by apply decimal_comma_free.
    rewrite IH by discriminate. reflexivity.
Qed.

Lemma decimal_pos_suffix fuel n acc :
  exists pre, decimal_pos fuel n acc = pre +:+ acc
              /\ (fuel <> O -> pre <> "").
Proof.
  revert n acc. induction fuel as [|fuel IH]; intros n acc.
  - exists "". split; [reflexivity | congruence].
  - cbn [decimal_pos]. set (d := ascii_of_N (Z.to_N (48 + n mod 10))).
    destruct (n <? 10).
    + exists (String d ""). split; [reflexivity | discriminate].
    + destruct (IH (n / 10) (String d acc)) as (pre & Hpre & _).
      exists (pre +:+ String d ""). split.
      * rewrite Hpre, append_assoc3. reflexivity.
      * intros _. destruct pre; discriminate.
Qed.

Lemma decimal_one x : decimal x = "1" <-> x = 1.
Proof.
  split; [|intros ->; reflexivity].
  unfold decimal. destruct (Z.ltb_spec x 0) as [Hneg|Hpos].
  - cbn [String.append]. discriminate.
  - replace (Z.to_nat x + 1)%nat with (S (Z.to_nat x)) by lia.
    cbn [decimal_pos].
    destruct (Z.ltb_spec x 10) as [Hlt|Hge].
    + assert (Hx : x = 0 \/ x = 1 \/ x = 2 \/ x = 3 \/ x = 4 \/ x = 5 \/ x = 6
                   \/ x = 7 \/ x = 8 \/ x = 9) by lia.
      destruct Hx as [->|[->|Hx]]; [discriminate | reflexivity |].
      repeat (destruct Hx as [->|Hx]; [discriminate|]). subst x. discriminate.
    + destruct (decimal_pos_suffix (Z.to_nat x) (x / 10)
                  (String (ascii_of_N (Z.to_N (48 + x mod 10))) ""))
        as (pre & Hpre & Hne).
      rewrite Hpre. specialize (Hne ltac:(lia)).
      destruct pre as [|c pre]; [congruence|].
      cbn [String.append]. intros H. injection H as _ H.
      destruct pre; discriminate.
Qed.

Lemma contains_bytes b :
  SftpExtensions.contains (Some (EData b)) "1" = existsb (Z.eqb 1) b.
Proof.
  destruct b as [|x b]; [reflexivity|].
  apply eq_true_iff_eq.
  change (SftpExtensions.contains (Some (EData (x :: b))) "1")
    with (SftpExtensions.contains (Some (EString (join_comma (x :: b)))) "1").
  rewrite (contains_spec _ "1" eq_refl), tokens_join by discriminate.
  rewrite in_map_iff, existsb_exists. split.
  - intros (y & Hy & Hin). apply decimal_one in Hy. subst y.
    exists 1. split; [exact Hin | reflexivity].
  - intros (y & Hin & Hy). apply Z.eqb_eq in Hy. subst y.
    exists 1. split; [reflexivity | exact Hin].
Qed.

(** X10: how a feature gets enabled.  The value of an extension that the
    reader did not decode as a string is an array of bytes, and splicing it
    into the comma-separated test string spells each byte as a decimal
    number.  So the test for the value "1" succeeds exactly when one of the
    bytes is the number 1; the announcement "1", which arrives as the byte
    49, does not enable the feature. *)
Theorem X10_feature_detection (w : World) (extension feature : string)
    (b : Uint8Array) :
  _extensions (this w) !! extension = Some (EData b) ->
  enable_feature extension feature w
  = Ok tt (if existsb (Z.eqb 1) b
           then upd_this (set_features (<[feature := extension]> (_features (this w)))) w
           else w).
Proof.
  intros H. unfold enable_feature, bind, gets. rewrite H, contains_bytes.
  destruct (existsb (Z.eqb 1) b); reflexivity.
Qed.

Lemma X10_feature_detection_witness :
  enable_feature SftpExtensions.HARDLINK SftpFeature.HARDLINK
    (upd_this (set_extensions (<[SftpExtensions.HARDLINK := EData [49]]> ∅))
              (World_new 1))
  = Ok tt (upd_this (set_extensions (<[SftpExtensions.HARDLINK := EData [49]]> ∅))
                    (World_new 1)).
Proof.
  apply (X10_feature_detection
           (upd_this (set_extensions (<[SftpExtensions.HARDLINK := EData [49]]> ∅))
                     (World_new 1))
           SftpExtensions.HARDLINK SftpFeature.HARDLINK [49]).
  vm_compute. reflexivity.
Defined.

#[local] Arguments String.append : simpl never.

(** ** The WebSocket transport *)

Lemma channel_step_closed st ev :
  WebSocketChannel.closed st = true ->
  WebSocketChannel.closed (WebSocketChannel.step st ev) = true
  /\ WebSocketChannel.effects (WebSocketChannel.step st ev)
     = WebSocketChannel.effects st.
Proof.
  intros H. destruct ev; cbn [WebSocketChannel.step].
  - unfold WebSocketChannel.close. rewrite H. auto.
  - unfold WebSocketChannel.send. rewrite H. auto.
  - unfold WebSocketChannel.on. destruct listener as [l|]; [|auto].
    destruct (String.eqb event "message").
    + destruct (WebSocketChannel.onmessage_method st); auto.
    + destruct (String.eqb event "close"); auto.
  - auto.
  - unfold WebSocketChannel.ws_onclose, WebSocketChannel._close. rewrite H.
    destruct (reason =? 1000); [auto|].
    destruct (WebSocketChannel.close_text _ _). auto.
  - auto.
  - unfold WebSocketChannel.ws_message. rewrite H.
    destruct (WebSocketChannel.ws_onmessage st); auto.
Qed.

Lemma channel_run_closed evs st :
  WebSocketChannel.closed st = true ->
  WebSocketChannel.closed (WebSocketChannel.play evs st) = true
  /\ WebSocketChannel.effects (WebSocketChannel.play evs st)
     = WebSocketChannel.effects st.
Proof.
  revert st. induction evs as [|ev evs IH]; intros st H; [auto|].
  destruct (channel_step_closed st ev H) as [H1 H2].
  destruct (IH _ H1) as [H3 H4]. cbn [WebSocketChannel.play fold_left].
  split; [exact H3 | rewrite <- H2; exact H4].
Qed.

Lemma channel_step_open st ev :
  WebSocketChannel.closed st = false ->
  let st' := WebSocketChannel.step st ev in
  if WebSocketChannel.closed st'
  then length (WebSocketChannel.ws_close_calls st')
       = S (length (WebSocketChannel.ws_close_calls st))
       /\ (length (WebSocketChannel.scheduled st')
           <= S (length (WebSocketChannel.scheduled st)))%nat
  else WebSocketChannel.ws_close_calls st' = WebSocketChannel.ws_close_calls st
       /\ WebSocketChannel.scheduled st' = WebSocketChannel.scheduled st.
Proof.
  intros H.
  assert (Hc : forall err k,
             let st' := fst (WebSocketChannel._close k err st) in
             WebSocketChannel.closed st' = true
             /\ length (WebSocketChannel.ws_close_calls st')
                = S (length (WebSocketChannel.ws_close_calls st))
             /\ (length (WebSocketChannel.scheduled st')
                 <= S (length (WebSocketChannel.scheduled st)))%nat).
  { intros err k. unfold WebSocketChannel._close, WebSocketChannel.close.
    rewrite H. cbv zeta.
    destruct (WebSocketChannel.onclose st); cbn;
      rewrite ?length_app; cbn; repeat split; lia. }
  destruct ev; cbn [WebSocketChannel.step]; cbv zeta.
  - unfold WebSocketChannel.close. rewrite H. cbn.
    rewrite length_app. cbn. split; lia.
  - unfold WebSocketChannel.send. rewrite H.
    destruct fails as [n|].
    + destruct (Hc (Some (WebSocketChannel.Foreign n)) 2) as (-> & H2 & H3). auto.
    + cbn; rewrite ?H; auto.
  - unfold WebSocketChannel.on. destruct listener as [l|]; cbn [fst].
    + destruct (String.eqb event "message").
      * destruct (WebSocketChannel.onmessage_method st); cbn; rewrite ?H; auto.
      * destruct (String.eqb event "close"); cbn; rewrite ?H; auto.
    + rewrite ?H. auto.
  - cbn; rewrite ?H; auto.
  - unfold WebSocketChannel.ws_onclose.
    destruct (reason =? 1000).
    + destruct (Hc None reason) as (-> & H2 & H3). auto.
    + destruct (WebSocketChannel.close_text _ _) as [m c].
      match goal with |- context [WebSocketChannel._close ?k ?e st] =>
        destruct (Hc e k) as (-> & H2 & H3) end. auto.
  - cbn; rewrite ?H; auto.
  - unfold WebSocketChannel.ws_message.
    destruct (WebSocketChannel.ws_onmessage st); rewrite ?H; cbn; rewrite ?H; auto.
Qed.

(** X24: a channel closes once.  Whatever is called on it and whatever its
    socket reports, in any order, [ws.close] is called at most once and the
    close listener is scheduled at most once; and once the channel is closed
    nothing more is sent, delivered, closed or scheduled. *)
Theorem X24_channel_closes_once (evs : list WebSocketChannel.Event)
    (st : WebSocketChannel.Channel) :
  let st' := WebSocketChannel.play evs st in
  if WebSocketChannel.closed st
  then WebSocketChannel.closed st' = true
       /\ WebSocketChannel.effects st' = WebSocketChannel.effects st
  else (length (WebSocketChannel.ws_close_calls st')
        <= S (length (WebSocketChannel.ws_close_calls st)))%nat
       /\ (length (WebSocketChannel.scheduled st')
           <= S (length (WebSocketChannel.scheduled st)))%nat.
Proof.
  cbv zeta. revert st. induction evs as [|ev evs IH]; intros st.
  - destruct (WebSocketChannel.closed st) eqn:H; cbn; auto.
  - destruct (WebSocketChannel.closed st) eqn:H.
    + apply (channel_run_closed (ev :: evs) st H).
    + cbn [WebSocketChannel.play fold_left].
      pose proof (channel_step_open st ev H) as Hs. cbv zeta in Hs.
      specialize (IH (WebSocketChannel.step st ev)).
      unfold WebSocketChannel.play in IH.
      destruct (WebSocketChannel.closed (WebSocketChannel.step st ev)).
      * destruct IH as [_ IH], Hs as [H1 H2].
        unfold WebSocketChannel.effects in IH. injection IH as I1 _ I3 _.
        rewrite I1, I3. lia.
      * destruct IH as [I1 I2], Hs as [H1 H2]. rewrite <- H1, <- H2. auto.
Qed.

(** X25: what a close of the socket tells the close listener.  On an open
    channel the handler calls [ws.close(1000)] and hands the outcome to the
    close listener, in a later scheduling turn, when there is one, and throws
    it when there is none.  The outcome is no error exactly when the socket
    closed with code 1000 on an established channel; code 1000 before the
    channel is established counts as a refused connection, and every other
    code gives an error that records the code. *)
Theorem X25_channel_close_report (st : WebSocketChannel.Channel) (reason : Z)
    (wasClean : bool) :
  WebSocketChannel.closed st = false ->
  exists err,
    (err = None <-> reason = 1000 /\ WebSocketChannel.established st = true)
    /\ (reason = 1000 -> WebSocketChannel.established st = false ->
        err = Some WebSocketChannel.refused)
    /\ (reason <> 1000 ->
        exists m c, err = Some (WebSocketChannel.Own
                                  (WebSocketChannel.mkChannelError
                                     m (Some c) (Some "ws") (Some reason)
                                     (Some wasClean))))
    /\ let '(st', thrown) := WebSocketChannel.ws_onclose reason wasClean st in
       WebSocketChannel.closed st' = true
       /\ WebSocketChannel.ws_close_calls st'
          = WebSocketChannel.ws_close_calls st ++ [(1000, None)]
       /\ match WebSocketChannel.onclose st with
          | Some l => WebSocketChannel.scheduled st'
                      = WebSocketChannel.scheduled st ++ [(l, err)]
                      /\ thrown = None
          | None => WebSocketChannel.scheduled st' = WebSocketChannel.scheduled st
                    /\ thrown = err
          end.
Proof.
  intros H. unfold WebSocketChannel.ws_onclose, WebSocketChannel._close,
    WebSocketChannel.close.
  rewrite H. cbv zeta. cbn [WebSocketChannel.established].
  destruct (Z.eqb_spec reason 1000) as [->|Hne].
  - destruct (WebSocketChannel.established st) eqn:He.
    + exists None. split; [tauto|]. split; [intros _ ?; congruence|].
      split; [congruence|].
      destruct (WebSocketChannel.onclose st); cbn; auto.
    + exists (Some WebSocketChannel.refused).
      split; [split; [discriminate | intros [_ ?]; congruence]|].
      split; [reflexivity|]. split; [congruence|].
      destruct (WebSocketChannel.onclose st); cbn; auto.
  - destruct (WebSocketChannel.close_text reason (WebSocketChannel.failed st))
      as [m c].
    exists (Some (WebSocketChannel.Own
                    (WebSocketChannel.mkChannelError m (Some c) (Some "ws")
                       (Some reason) (Some wasClean)))).
    split; [split; [discriminate | intros [? _]; contradiction]|].
    split; [intros; contradiction|]. split; [intros _; exists m, c; reflexivity|].
    destruct (WebSocketChannel.onclose st); cbn; auto.
Qed.

Lemma X25_channel_close_report_witness :
  exists err,
    (err = None <-> 1006 = 1000
                    /\ WebSocketChannel.established (WebSocketChannel.new false) = true)
    /\ (1006 = 1000 ->
        WebSocketChannel.established (WebSocketChannel.new false) = false ->
        err = Some WebSocketChannel.refused)
    /\ (1006 <> 1000 ->
        exists m c, err = Some (WebSocketChannel.Own
                                  (WebSocketChannel.mkChannelError
                                     m (Some c) (Some "ws") (Some 1006)
                                     (Some false))))
    /\ let '(st', thrown) :=
         WebSocketChannel.ws_onclose 1006 false (WebSocketChannel.new false) in
       WebSocketChannel.closed st' = true
       /\ WebSocketChannel.ws_close_calls st'
          = WebSocketChannel.ws_close_calls (WebSocketChannel.new false)
            ++ [(1000, None)]
       /\ match WebSocketChannel.onclose (WebSocketChannel.new false) with
          | Some l => WebSocketChannel.scheduled st'
                      = WebSocketChannel.scheduled (WebSocketChannel.new false)
                        ++ [(l, err)]
                      /\ thrown = None
          | None => WebSocketChannel.scheduled st'
                    = WebSocketChannel.scheduled (WebSocketChannel.new false)
                    /\ thrown = err
          end.
Proof.
  apply (X25_channel_close_report (WebSocketChannel.new false) 1006 false).
  reflexivity.
Defined.

(** X2: a packet whose length word disagrees with its size is refused.
    When the first four bytes of a packet, read as [readInt32] reads them, do
    not give the packet's length less four, [_process] throws "Invalid packet
    received" before it looks at the request table: the bytes are counted as
    received and nothing else changes. *)
Theorem X2_bad_frame (fuel : nat) (w : World) (v : Z) (body : list Z) :
  int32_image (toInt32 v) + 4 <> len (be32 v ++ body) ->
  _process fuel (be32 v ++ body) w
  = Throw (ThrowSftpError "Invalid packet received")
          (upd_this (fun c => set_bytesReceived
                                (_bytesReceived c + len (be32 v ++ body)) c) w).
Proof.
  intros Hne. rewrite <- bytes32_be32 in *.
  set (packet := bytes32 v ++ body) in *.
  set (this0 := mkPacket TNull None packet 0 (len packet) None).
  assert (Hwf : wf this0).
  { unfold wf, this0. cbn [position length_ buffer].
    pose proof (len_nonneg packet). lia. }
  destruct (readInt32_at this0 v body Hwf eq_refl) as (H1 & _ & _).
  unfold _process. unfold bind at 1, modify.
  unfold SftpPacketReader_new. fold this0.
  rewrite (bind_Ok _ _ _ _ _ H1).
  rewrite (bind_Ok _ _ _ _ _ (eq_refl : get (advance 4 this0) = Ok _ _)).
  change (length_ (advance 4 this0)) with (len packet).
  destruct (Z.eqb_spec (int32_image (toInt32 v) + 4) (len packet)) as [Heq|_];
    [contradiction|].
  reflexivity.
Qed.

Lemma X2_bad_frame_witness :
  _process 0 (be32 7 ++ [101; 0; 0; 0; 1]) three_pending
  = Throw (ThrowSftpError "Invalid packet received")
          (upd_this (fun c => set_bytesReceived
                                (_bytesReceived c + len (be32 7 ++ [101; 0; 0; 0; 1])) c)
                    three_pending).
Proof.
  apply (X2_bad_frame 0 three_pending 7 [101; 0; 0; 0; 1]).
  vm_compute. discriminate.
Defined.

(** ** Error objects *)

(** X26: how [createError] classifies a status code.  The error always
    records the native code, the server's message and the command context.
    Its code is "ESHUTDOWN" only for CONNECTION_LOST: BAD_MESSAGE is taken by
    the earlier case that gives "EFAILURE", so the later case for it is never
    reached; and every native code outside 0..8 gives "UNKNOWN". *)
Theorem X26_createError_codes (native : Z) (msg : string) (info : SftpCommandInfo) :
  let e := createError native msg info in
  nativeCode e = Some native /\ description e = Some msg /\ context e = Some info
  /\ (code e = Some "ESHUTDOWN" <-> native = SftpStatusCode.CONNECTION_LOST)
  /\ (code e = Some "EFAILURE"
      <-> native = SftpStatusCode.OK \/ native = SftpStatusCode.FAILURE
          \/ native = SftpStatusCode.BAD_MESSAGE)
  /\ (code e = Some "UNKNOWN" <-> ~ 0 <= native <= 8).
Proof.
  cbv zeta. unfold createError.
  unfold SftpStatusCode.EOF, SftpStatusCode.NO_SUCH_FILE,
    SftpStatusCode.PERMISSION_DENIED, SftpStatusCode.OK, SftpStatusCode.FAILURE,
    SftpStatusCode.BAD_MESSAGE, SftpStatusCode.NO_CONNECTION,
    SftpStatusCode.CONNECTION_LOST, SftpStatusCode.OP_UNSUPPORTED.
  destruct (Z.eqb_spec native 1);
    [|destruct (Z.eqb_spec native 2);
      [|destruct (Z.eqb_spec native 3);
        [|destruct (Z.eqb_spec native 0), (Z.eqb_spec native 4),
            (Z.eqb_spec native 5); cbn [orb];
          try (destruct (Z.eqb_spec native 6);
               [|destruct (Z.eqb_spec native 7);
                 [|destruct (Z.eqb_spec native 8)]])]]];
    cbn [nativeCode description context code];
    (split; [reflexivity|]); (split; [reflexivity|]); (split; [reflexivity|]);
    repeat split; intros; try discriminate; try lia; try congruence;
      try (exfalso; lia).
Qed.

(** ** Outcomes of the operations (claim C9) *)

Lemma room_ret : room 0 (ret tt).
Proof.
  intros p Hwf _. exists p. split; [reflexivity|]. split; [exact Hwf|].
  split; [lia|]. repeat split.
Qed.

Lemma room_weaken n n' m : n <= n' -> room n m -> room n' m.
Proof.
  intros Hn Hm p Hwf Hroom.
  destruct (Hm p Hwf ltac:(lia)) as (p' & H1 & H2 & H3 & H4).
  exists p'. split; [exact H1|]. split; [exact H2|]. split; [lia | exact H4].
Qed.

Lemma room_bind n1 n2 m k :
  0 <= n2 -> room n1 m -> room n2 k -> room (n1 + n2) (run m; k).
Proof.
  intros Hn2 Hm Hk p Hwf Hroom.
  destruct (Hm p Hwf ltac:(lia)) as (p1 & H1 & Hwf1 & Hpos1 & Hlen1 & Hid1 & Hty1).
  destruct (Hk p1 Hwf1 ltac:(lia)) as (p2 & H2 & Hwf2 & Hpos2 & Hlen2 & Hid2 & Hty2).
  exists p2. unfold bind. rewrite H1. split; [exact H2|]. split; [exact Hwf2|].
  split; [lia|]. split; [congruence|]. split; congruence.
Qed.

Lemma room_if (b : bool) n m :
  0 <= n -> room n m -> room n (if b then m else ret tt).
Proof.
  intros Hn Hm. destruct b; [exact Hm|].
  apply (room_weaken 0); [exact Hn | apply room_ret].
Qed.

Lemma room_writes m bs :
  writes m bs ->
  (forall p p', m p = Ok tt p' -> type_ p' = type_ p /\ id_ p' = id_ p) ->
  room (len bs) m.
Proof.
  intros Hm Hkeep p Hwf Hroom.
  destruct (Hm p Hwf Hroom) as (p' & H1 & Hwf' & Hout & Hlen).
  exists p'. split; [exact H1|]. split; [exact Hwf'|].
  assert (Hpos : position p' = position p + len bs).
  { rewrite <- (out_len p' Hwf'), Hout, len_app, (out_len p Hwf). reflexivity. }
  pose proof (len_nonneg bs).
  split; [lia|]. split; [exact Hlen|].
  destruct (Hkeep _ _ H1). split; assumption.
Qed.

Lemma room_writeInt32 v : room 4 (writeInt32 v).
Proof.
  apply (room_writes _ (bytes32 v)); [apply writes_writeInt32|].
  apply writeInt32_keeps.
Qed.

Lemma room_writeInt64 v : room 8 (writeInt64 v).
Proof. unfold writeInt64. apply (room_bind 4 4); [lia|..]; apply room_writeInt32. Qed.

Lemma room_writeByte v : room 1 (writeByte v).
Proof.
  apply (room_writes _ [js_and v 255]); [apply writes_writeByte|].
  apply writeByte_keeps.
Qed.

Lemma room_writeData d : room (4 + len d) (writeData d None).
Proof.
  replace (4 + len d) with (len (bytes32 (len d) ++ d))
    by (rewrite len_app, len_bytes32; reflexivity).
  apply room_writes; [apply writes_writeData|]. apply writeData_keeps.
Qed.

Lemma len_subarray b offset n :
  0 <= offset -> 0 <= n -> offset + n <= len b ->
  len (subarray b offset (offset + n)) = n.
Proof.
  intros Ho Hn Hb. unfold subarray, rel_index.
  destruct (Z.ltb_spec offset 0); [lia|].
  destruct (Z.ltb_spec (offset + n) 0); [lia|].
  rewrite !Z.min_l by lia. unfold len in *.
  rewrite length_take, length_drop. lia.
Qed.

Lemma room_writeData_range b offset n :
  0 <= offset -> 0 <= n -> offset + n <= len b ->
  room (4 + n) (writeData b (Some (offset, offset + n))).
Proof.
  intros Ho Hn Hb.
  change (writeData b (Some (offset, offset + n)))
    with (writeData (subarray b offset (offset + n)) None).
  rewrite <- (len_subarray b offset n Ho Hn Hb) at 1. apply room_writeData.
Qed.

Lemma len_utf8_bytes s : len (utf8_bytes s) = strlen s.
Proof.
  unfold len, utf8_bytes, strlen. rewrite length_map. f_equal.
  induction s as [|c s IH]; [reflexivity|]. cbn. rewrite IH. reflexivity.
Qed.

Lemma room_writeString s : room (4 + strlen s) (writeString s).
Proof.
  intros p Hwf Hroom. pose proof (len_utf8_bytes s) as Hs.
  pose proof (len_nonneg (utf8_bytes s)) as Hs0.
  destruct (writes_writeInt32 0 p Hwf) as (p1 & H1 & Hwf1 & Hout1 & Hlen1).
  { rewrite len_bytes32. lia. }
  assert (Hpos1 : position p1 = position p + 4).
  { rewrite <- (out_len p1 Hwf1), Hout1, len_app, (out_len p Hwf), len_bytes32.
    reflexivity. }
  destruct (writeInt32_keeps _ _ _ H1) as [Hty1 Hid1].
  unfold writeString. unfold bind at 1, gets. unfold bind at 1. rewrite H1.
  unfold bind at 1, get. unfold encodeUTF8, Uint8Array_set.
  destruct Hwf1 as [Hp1 Hl1]. destruct Hwf as [Hp Hl].
  destruct (Z.ltb_spec (position p1) 0); [lia|].
  destruct (Z.ltb_spec (len (buffer p1)) (position p1 + len (utf8_bytes s)));
    [lia|].
  cbn [orb]. unfold bind at 1, modify.
  destruct (Z.ltb_spec (len (utf8_bytes s)) 0); [lia|].
  unfold bind at 1, modify.
  set (b' := take (Z.to_nat (position p1)) (buffer p1) ++ utf8_bytes s
             ++ drop (Z.to_nat (position p1 + len (utf8_bytes s))) (buffer p1)).
  assert (Hb' : len b' = len (buffer p1)).
  { unfold b', len in *. rewrite !length_app, length_take, length_drop. lia. }
  set (p2 := set_position (position p) (set_buffer b' p1)).
  assert (Hwf2 : wf p2).
  { unfold wf, p2, set_position, set_buffer. cbn [position length_ buffer]. lia. }
  destruct (writes_writeInt32 (len (utf8_bytes s)) p2 Hwf2)
    as (p3 & H3 & Hwf3 & Hout3 & Hlen3).
  { rewrite len_bytes32. unfold p2, set_position, set_buffer.
    cbn [position length_]. lia. }
  assert (Hpos3 : position p3 = position p + 4).
  { rewrite <- (out_len p3 Hwf3), Hout3, len_app, (out_len p2 Hwf2), len_bytes32.
    reflexivity. }
  destruct (writeInt32_keeps _ _ _ H3) as [Hty3 Hid3].
  unfold bind at 1. fold p2. rewrite H3. unfold modify.
  eexists. split; [reflexivity|].
  destruct Hwf3 as [Hp3 Hl3].
  unfold wf, set_position. cbn [position length_ buffer id_ type_].
  change (length_ p2) with (length_ p1) in Hlen3.
  change (id_ p2) with (id_ p1) in Hid3.
  change (type_ p2) with (type_ p1) in Hty3.
  split; [lia|]. split; [lia|]. split; [congruence|]. split; congruence.
Qed.

Lemma room_ext n m m' : (forall p, m p = m' p) -> room n m' -> room n m.
Proof. intros He Hm p Hwf Hroom. rewrite He. apply Hm; assumption. Qed.

Lemma from_times attrs :
  good_attrs attrs = true -> times_present (SftpAttributes_.from attrs).
Proof.
  intros Hgood Hbit. destruct attrs as [stats|]; [|vm_compute in Hbit; discriminate].
  pose proof (from_has stats) as (_ & _ & _ & HT & _).
  pose proof (from_fields stats) as (_ & _ & _ & _ & Fa & Ft).
  cbv zeta in *. rewrite <- has_toInt32, HT in Hbit. rewrite Fa, Ft, Hbit.
  cbn [good_attrs] in Hgood.
  destruct (st_atime stats), (st_mtime stats); try discriminate.
  split; reflexivity.
Qed.

Lemma room_writeStats attrs : good_attrs attrs = true -> room 36 (writeStats attrs).
Proof.
  intros Hgood. pose proof (from_times attrs Hgood) as Htimes.
  unfold writeStats, SftpAttributes_.write. cbv zeta.
  set (x := SftpAttributes_.from attrs) in *.
  apply (room_bind 4 32); [lia | apply room_writeInt32 |].
  apply (room_bind 8 24); [lia | apply room_if; [lia | apply room_writeInt64] |].
  apply (room_bind 8 16); [lia | apply room_if; [lia|] |].
  { apply (room_bind 4 4); [lia|..]; apply room_writeInt32. }
  apply (room_bind 4 12); [lia | apply room_if; [lia | apply room_writeInt32] |].
  apply (room_bind 8 4); [lia | | apply room_if; [lia | apply room_writeInt32]].
  unfold times_present, has in Htimes.
  destruct (truthy (js_and (num (a_flags x)) SftpAttributeFlags.ACMODTIME));
    [|apply (room_weaken 0); [lia | apply room_ret]].
  destruct (Htimes eq_refl) as [Ha Hm].
  destruct (atime x) as [a|]; [|discriminate].
  destruct (mtime x) as [m|]; [|discriminate].
  apply (room_ext _ _ (run writeInt32 (Z.quot a 1000); writeInt32 (Z.quot m 1000)));
    [intros p; reflexivity|].
  apply (room_bind 4 4); [lia|..]; apply room_writeInt32.
Qed.

(** The header that [start] writes takes at most 9 bytes, and the name of an
    extended request follows it as a string. *)
Lemma start_room cap ty i :
  9 + (if is_number ty then 0 else 4 + strlen (type_text ty)) <= cap ->
  exists rq, start (set_id i (set_type ty (SftpPacketWriter_new cap))) = Ok tt rq
    /\ wf rq
    /\ 4 <= position rq
       <= 9 + (if is_number ty then 0 else 4 + strlen (type_text ty))
    /\ length_ rq = cap /\ id_ rq = i.
Proof.
  intros Hcap.
  assert (Hts : 0 <= (if is_number ty then 0 else 4 + strlen (type_text ty))).
  { destruct (is_number ty); [lia|]. unfold strlen. lia. }
  set (ts := if is_number ty then 0 else 4 + strlen (type_text ty)) in *.
  set (p0 := set_position 0 (set_id i (set_type ty (SftpPacketWriter_new cap)))).
  assert (Hwf0 : wf p0).
  { pose proof (wf_writer_new cap ltac:(lia)) as [H1 H2].
    unfold wf, p0. cbn [position length_ buffer set_position set_id set_type] in *.
    split; [lia | exact H2]. }
  destruct (room_writeInt32 0 p0 Hwf0) as (p1 & H1 & Hwf1 & Hpos1 & Hlen1 & Hid1 & Hty1).
  { unfold p0. cbn [position length_ set_position set_id set_type SftpPacketWriter_new].
    lia. }
  assert (Hp1 : position p1 = 4).
  { destruct (writes_writeInt32 0 p0 Hwf0) as (p1' & H1' & Hwf1' & Hout1 & _).
    { rewrite len_bytes32. unfold p0.
      cbn [position length_ set_position set_id set_type SftpPacketWriter_new]. lia. }
    rewrite H1 in H1'. injection H1' as <-.
    rewrite <- (out_len p1 Hwf1), Hout1, len_app, len_bytes32, (out_len p0 Hwf0).
    reflexivity. }
  change (length_ p0) with cap in Hlen1. change (id_ p0) with i in Hid1.
  change (type_ p0) with ty in Hty1. change (position p0) with 0 in Hpos1.
  assert (Hbyte : forall v, exists p2, writeByte v p1 = Ok tt p2 /\ wf p2
                    /\ position p2 <= 5 /\ 4 <= position p2
                    /\ length_ p2 = cap /\ id_ p2 = i /\ type_ p2 = ty).
  { intros v.
    destruct (room_writeByte v p1 Hwf1) as (p2 & H2 & Hwf2 & Hpos2 & Hlen2 & Hid2 & Hty2).
    { lia. }
    exists p2. split; [exact H2|]. split; [exact Hwf2|].
    split; [lia|]. split; [lia|]. split; [congruence|]. split; congruence. }
  unfold start. unfold bind at 1, modify. fold p0.
  unfold bind at 1. rewrite H1. unfold bind at 1, get. rewrite Hty1, Hid1.
  destruct (Hbyte (match ty with TNum n => n | _ => SftpPacketType.EXTENDED end))
    as (p2 & H2 & Hwf2 & Hpos2 & Hpos2' & Hlen2 & Hid2 & Hty2).
  assert (H2' : (match ty with
                 | TNum n => writeByte n
                 | _ => writeByte SftpPacketType.EXTENDED
                 end) p1 = Ok tt p2) by (destruct ty; exact H2).
  unfold bind at 1. rewrite H2'.
  destruct (loose_eq ty SftpPacketType.INIT || loose_eq ty SftpPacketType.VERSION).
  - exists p2. split; [reflexivity|]. split; [exact Hwf2|].
    split; [lia|]. split; assumption.
  - assert (Hrest : room (4 + ts)
                      (run writeInt32 (js_or (match i with Some i0 => i0 | None => 0 end) 0);
                       if negb (is_number ty) then writeString (type_text ty)
                       else ret tt)).
    { apply room_bind; [exact Hts | apply room_writeInt32 |].
      unfold ts. destruct (is_number ty); cbn [negb];
        [apply room_ret | apply room_writeString]. }
    destruct (Hrest p2 Hwf2) as (p3 & H3 & Hwf3 & Hpos3 & Hlen3 & Hid3 & Hty3).
    { lia. }
    exists p3. split; [exact H3|]. split; [exact Hwf3|].
    split; [lia|]. split; congruence.
Qed.

(** Building a request: [getRequest] hands out the session's request id and
    moves the counter on, and the body is written behind the header. *)
Lemma build_request ty body n w :
  loose_eq ty SftpPacketType.INIT = false ->
  room n body -> 0 <= n ->
  9 + (if is_number ty then 0 else 4 + strlen (type_text ty)) + n
  <= _maxWriteBlockLength (this w) + 1024 ->
  exists rq1 rq2,
    getRequest ty w
    = Ok rq1 (upd_this (set__id (Some (js_and (num (_id (this w)) + 1) 4294967295))) w)
    /\ (forall w1, writing rq1 body w1 = Ok rq2 w1)
    /\ wf rq2 /\ 4 <= position rq2 /\ id_ rq2 = _id (this w).
Proof.
  intros Hty Hbody Hn Hcap.
  destruct (start_room (_maxWriteBlockLength (this w) + 1024) ty (_id (this w)))
    as (rq1 & Hstart & Hwf1 & Hpos1 & Hlen1 & Hid1); [lia|].
  destruct (Hbody rq1 Hwf1) as (rq2 & H2 & Hwf2 & Hpos2 & Hlen2 & Hid2 & _); [lia|].
  exists rq1, rq2.
  split; [exact (getRequest_spec ty w _ rq1 eq_refl Hty Hstart)|].
  split; [intros w1; unfold writing; rewrite H2; reflexivity|].
  split; [exact Hwf2|]. split; [lia | congruence].
Qed.

Lemma execute_unbound rq cb parser i w :
  _host (this w) = None ->
  execute rq cb parser i w
  = Ok tt (add_timer (mkTimer cb SftpStatusCode.NO_CONNECTION "Not connected" i) w).
Proof. intros H. unfold execute, bind, gets. rewrite H. reflexivity. Qed.

Lemma execute_bound rq cb parser i w host :
  _host (this w) = Some host -> _requests (this w) !! id_ rq = None ->
  wf rq -> 4 <= position rq ->
  exists packet,
    execute rq cb parser i w
    = Ok tt (upd_this (fun c => set_requests
                                  (<[id_ rq := mkRequest cb parser i]> (_requests c)) c)
               (upd_this (fun c => set_bytesSent (_bytesSent c + len packet) c)
                  (add_sent (host, packet) w))).
Proof.
  intros Hhost Hfree Hwf Hpos.
  destruct (finish_spec rq Hwf Hpos) as (rq' & Hfin).
  eexists. unfold execute, bind, gets. rewrite Hhost, Hfree. cbn [defined].
  rewrite Hfin. reflexivity.
Qed.

(** What becomes of a request that is built and executed. *)
Lemma request_outcome ty body n cb parser i w :
  loose_eq ty SftpPacketType.INIT = false ->
  room n body -> 0 <= n ->
  9 + (if is_number ty then 0 else 4 + strlen (type_text ty)) + n
  <= _maxWriteBlockLength (this w) + 1024 ->
  match _host (this w) with
  | None =>
      exists w',
        (do request <- getRequest ty;
         do request <- writing request body;
         execute request cb parser i) w = Ok tt w'
        /\ declines cb SftpStatusCode.NO_CONNECTION w w'
  | Some host =>
      _requests (this w) !! _id (this w) = None ->
      exists w',
        (do request <- getRequest ty;
         do request <- writing request body;
         execute request cb parser i) w = Ok tt w'
        /\ sends cb host w w'
  end.
Proof.
  intros Hty Hbody Hn Hcap.
  destruct (build_request ty body n w Hty Hbody Hn Hcap)
    as (rq1 & rq2 & Hget & Hwr & Hwf & Hpos & Hid).
  rewrite (bind_Ok _ _ _ _ _ Hget). rewrite (bind_Ok _ _ _ _ _ (Hwr _)).
  set (w1 := upd_this (set__id (Some (js_and (num (_id (this w)) + 1) 4294967295))) w).
  destruct (_host (this w)) as [host|] eqn:Hhost.
  - intros Hfree.
    destruct (execute_bound rq2 cb parser i w1 host) as (packet & Hex);
      [exact Hhost | rewrite Hid; exact Hfree | exact Hwf | exact Hpos |].
    rewrite Hex. eexists. split; [reflexivity|].
    split; [exists packet; reflexivity|]. split; [reflexivity|].
    exists (mkRequest cb parser i). rewrite Hid. split; reflexivity.
  - rewrite (execute_unbound rq2 cb parser i w1 Hhost).
    eexists. split; [reflexivity|].
    split; [reflexivity|]. split; [reflexivity|].
    exists [mkTimer cb SftpStatusCode.NO_CONNECTION "Not connected" i].
    split; [reflexivity|]. split; [discriminate|].
    constructor; [split; reflexivity | constructor].
Qed.

Lemma good_path_spec p : good_path p = true -> p <> "".
Proof. unfold good_path. intros H ->. discriminate. Qed.

Lemma strlen_expand_tilde p : strlen (expand_tilde p) = strlen p.
Proof.
  destruct p as [|c p]; [reflexivity|]. unfold expand_tilde.
  destruct (Ascii.eqb_spec c "~") as [->|Hc].
  - destruct p as [|d p]; [reflexivity|].
    destruct (Ascii.eqb_spec d "/") as [->|Hd]; [reflexivity|].
    destruct d as [[] [] [] [] [] [] [] []]; try reflexivity.
  - destruct c as [[] [] [] [] [] [] [] []]; try reflexivity. contradiction.
Qed.

Lemma toHandle_ok w h :
  good_handle w h = true ->
  exists hd, h = Some hd /\ toHandle h w = Ok (_handle hd) w.
Proof.
  destruct h as [hd|]; [|discriminate]. cbn [good_handle]. intros H.
  exists hd. split; [reflexivity|]. unfold toHandle, bind, gets. rewrite H.
  reflexivity.
Qed.

Lemma checkBuffer_ok buf offset requested w :
  good_range buf offset requested = true ->
  exists b, buf = Some b /\ 0 <= offset /\ 0 <= requested
            /\ offset + requested <= len b
            /\ checkBuffer buf offset requested w = Ok tt w.
Proof.
  destruct buf as [b|]; [|discriminate]. cbn [good_range]. intros H.
  apply andb_prop in H as [H H3]. apply andb_prop in H as [H1 H2].
  apply Z.leb_le in H1, H2, H3. exists b. split; [reflexivity|].
  split; [exact H1|]. split; [exact H2|]. split; [exact H3|].
  unfold checkBuffer.
  destruct (Z.ltb_spec offset 0); [lia|].
  destruct (Z.ltb_spec requested 0); [lia|].
  destruct (Z.ltb_spec (len b) (offset + requested)); [lia|]. reflexivity.
Qed.

Lemma checkPosition_ok pos w :
  good_position pos = true -> checkPosition pos w = Ok tt w.
Proof.
  unfold good_position. intros H. apply andb_prop in H as [H1 H2].
  apply Z.leb_le in H1, H2. unfold checkPosition.
  destruct (Z.ltb_spec pos 0); [lia|].
  destruct (Z.ltb_spec 9223372036854775808 pos); [lia|]. reflexivity.
Qed.

Lemma good_flags_spec f :
  match SftpFlags.toNumber f with
  | Value _ => good_flags f = true
  | Raised _ => good_flags f = false
  end.
Proof.
  destruct f as [s|n]; [|reflexivity].
  unfold SftpFlags.toNumber, good_flags, FlagsLaws.mode_strings.
  cbn [existsb].
  repeat (destruct (String.eqb s _); cbn [orb]; [reflexivity|]).
  reflexivity.
Qed.

Lemma room_args1 p :
  room (4 + strlen p)
       (fold_left (fun m a => run m; writeString a) [p] (ret tt)).
Proof.
  cbn [fold_left]. replace (4 + strlen p) with (0 + (4 + strlen p)) by lia.
  apply room_bind; [unfold strlen; lia | apply room_ret | apply room_writeString].
Qed.

Lemma room_args2 p q :
  room (8 + strlen p + strlen q)
       (fold_left (fun m a => run m; writeString a) [p; q] (ret tt)).
Proof.
  cbn [fold_left].
  replace (8 + strlen p + strlen q) with (0 + (4 + strlen p) + (4 + strlen q)) by lia.
  apply room_bind; [unfold strlen; lia | | apply room_writeString].
  apply room_bind; [unfold strlen; lia | apply room_ret | apply room_writeString].
Qed.

Lemma command_number n args cb parser i w :
  n <> 0 ->
  command_ (CNum n) args cb parser i w
  = (do request <- getRequest (TNum n);
     do request <- writing request
                     (fold_left (fun m a => run m; writeString a) args (ret tt));
     execute request cb parser i) w.
Proof.
  intros Hn. unfold command_. unfold bind at 1, gets.
  destruct (Z.eqb_spec n 0); [contradiction | reflexivity].
Qed.

Lemma command_feature key name args cb parser i w :
  _features (this w) !! key = Some name -> name <> "" ->
  command_ (CStr key) args cb parser i w
  = (do request <- getRequest (TStr name);
     do request <- writing request
                     (fold_left (fun m a => run m; writeString a) args (ret tt));
     execute request cb parser i) w.
Proof.
  intros Hf Hn. unfold command_. unfold bind at 1, gets. cbn [key_of].
  rewrite Hf. rewrite (strlen_nonempty name Hn). reflexivity.
Qed.

Lemma command_undefined args cb parser i w :
  negotiated w ->
  command_ CUndefined args cb parser i w
  = Ok tt (add_timer (mkTimer cb SftpStatusCode.OP_UNSUPPORTED
                              "Operation not supported" i) w).
Proof.
  intros Hneg. unfold command_. unfold bind at 1, gets. cbn [key_of].
  destruct (_features (this w) !! "undefined") as [name|] eqn:Hf; [|reflexivity].
  destruct (Hneg _ _ Hf) as [[H _]|[H _]]; discriminate.
Qed.

Ltac checks_pass :=
  repeat match goal with
         | |- context [bind (checkCallback (Fn ?k)) _ ?w] =>
             rewrite (bind_Ok _ _ w tt w) by reflexivity
         | H : ?p <> "" |- context [bind (checkPath ?p ?name) _ ?w] =>
             rewrite (bind_Ok _ _ _ _ _ (checkPath_ok p name w H))
         | H : toHandle ?h ?w = Ok _ _ |- context [bind (toHandle ?h) _ ?w] =>
             rewrite (bind_Ok _ _ _ _ _ H)
         | H : checkPosition ?pos ?w = Ok _ _
           |- context [bind (checkPosition ?pos) _ ?w] =>
             rewrite (bind_Ok _ _ _ _ _ H)
         end.

Lemma perform_request op cb w :
  negotiated w -> valid_arguments op cb w = true -> available op w = true ->
  roomy op w ->
  exists ty body n parser i,
    perform op cb w
    = (do request <- getRequest ty;
       do request <- writing request body;
       execute request cb parser i) w
    /\ room n body /\ fits ty n w.
Proof.
  intros Hneg Hvalid Havail Hroomy. unfold valid_arguments in Hvalid.
  apply andb_prop in Hvalid as [Hcb Hvalid].
  destruct cb as [k|]; [clear Hcb|discriminate].
  unfold roomy in Hroomy. unfold fits.
  destruct op as [p f attrs|h|h buf offset requested pos|h buf offset requested pos
                 |p|h|p attrs|h attrs|p|h|p|p attrs|p|p|p|p q f|p|p q|p q];
    cbn [perform payload available] in *;
    repeat match goal with
           | H : _ && _ = true |- _ => apply andb_prop in H as [? ?]
           end;
    repeat match goal with
           | H : good_path _ = true |- _ => apply good_path_spec in H
           | H : good_handle _ _ = true |- _ =>
               let hd := fresh "hd" in
               let E := fresh "E" in
               destruct (toHandle_ok _ _ H) as (hd & -> & E); clear H;
               cbn [handle_size] in *
           | H : good_position _ = true |- _ =>
               apply (checkPosition_ok _ w) in H
           end.
  - (* open *)
    pose proof (good_flags_spec f) as Hf.
    destruct (SftpFlags.toNumber f) as [m|e] eqn:Hnum; [|congruence].
    unfold open. checks_pass.
    exists (TNum SftpPacketType.OPEN),
      (run writeString (expand_tilde p);
       do n <- liftR (SftpFlags.toNumber f); run writeInt32 n; writeStats attrs),
      (4 + strlen p + 40), parseHandle_, (info_path "open" (expand_tilde p)).
    split; [reflexivity|]. split.
    + rewrite Hnum. rewrite <- strlen_expand_tilde.
      apply room_bind; [lia | apply room_writeString |].
      apply (room_ext _ _ (run writeInt32 m; writeStats attrs));
        [intros x; reflexivity|].
      apply (room_bind 4 36); [lia | apply room_writeInt32 |].
      apply room_writeStats. assumption.
    + split; [reflexivity|]. unfold strlen in *. cbn [is_number]. lia.
  - (* close *)
    unfold close. checks_pass.
    exists (TNum SftpPacketType.CLOSE), (writeData (_handle hd) None),
      (4 + len (_handle hd)), parseStatus_, (info_handle_arg "close" (Some hd)).
    split; [reflexivity|]. split; [apply room_writeData|].
    pose proof (len_nonneg (_handle hd)).
    split; [reflexivity|]. cbn [is_number]. lia.
  - (* read *)
    unfold read. checks_pass.
    assert (Hbuf : (if defined buf then checkBuffer buf offset requested
                    else ret tt) w = Ok tt w).
    { destruct buf as [b|]; [|reflexivity]. cbn [defined negb orb] in *.
      destruct (checkBuffer_ok (Some b) offset requested w) as (? & _ & _ & _ & _ & Hc);
        [assumption | exact Hc]. }
    rewrite (bind_Ok _ _ _ _ _ Hbuf). checks_pass.
    rewrite (bind_Ok _ _ w (this w) w) by reflexivity.
    eexists (TNum SftpPacketType.READ), _, (4 + len (_handle hd) + 12), _, _.
    split; [reflexivity|]. split.
    + apply room_bind; [lia | apply room_writeData |].
      apply (room_bind 8 4); [lia | apply room_writeInt64 | apply room_writeInt32].
    + pose proof (len_nonneg (_handle hd)).
      split; [reflexivity|]. cbn [is_number]. lia.
  - (* write *)
    unfold write. checks_pass.
    destruct (checkBuffer_ok buf offset requested w)
      as (b & -> & Ho & Hr & Hb & Hc); [assumption|].
    rewrite (bind_Ok _ _ _ _ _ Hc). checks_pass.
    rewrite (bind_Ok _ _ w (this w) w) by reflexivity.
    match goal with H : (requested <=? _) = true |- _ => apply Z.leb_le in H end.
    destruct (Z.ltb_spec (_maxWriteBlockLength (this w)) requested); [lia|].
    eexists (TNum SftpPacketType.WRITE), _, (4 + len (_handle hd) + (8 + (4 + requested))), _, _.
    split; [reflexivity|]. split.
    + apply room_bind; [lia | apply room_writeData |].
      apply room_bind; [lia | apply room_writeInt64 |].
      cbn [default]. apply room_writeData_range; assumption.
    + pose proof (len_nonneg (_handle hd)).
      split; [reflexivity|]. cbn [is_number]. lia.
  - (* lstat *)
    unfold lstat. checks_pass. rewrite command_number by discriminate.
    eexists _, _, _, _, _. split; [reflexivity|].
    split; [apply room_args1|]. rewrite strlen_expand_tilde.
    split; [reflexivity|]. unfold strlen in *. cbn [is_number]. lia.
  - (* fstat *)
    unfold fstat. checks_pass.
    eexists (TNum SftpPacketType.FSTAT), _, _, _, _.
    split; [reflexivity|]. split; [apply room_writeData|].
    pose proof (len_nonneg (_handle hd)).
    split; [reflexivity|]. cbn [is_number]. lia.
  - (* setstat *)
    unfold setstat. checks_pass.
    eexists (TNum SftpPacketType.SETSTAT), _, (4 + strlen p + 36), _, _.
    split; [reflexivity|]. split.
    + rewrite <- strlen_expand_tilde.
      apply room_bind; [lia | apply room_writeString |].
      apply room_writeStats. assumption.
    + split; [reflexivity|]. unfold strlen in *. cbn [is_number]. lia.
  - (* fsetstat *)
    unfold fsetstat. checks_pass.
    eexists (TNum SftpPacketType.FSETSTAT), _, (4 + len (_handle hd) + 36), _, _.
    split; [reflexivity|]. split.
    + apply room_bind; [lia | apply room_writeData |].
      apply room_writeStats. assumption.
    + pose proof (len_nonneg (_handle hd)).
      split; [reflexivity|]. cbn [is_number]. lia.
  - (* opendir *)
    unfold opendir. checks_pass. rewrite command_number by discriminate.
    eexists _, _, _, _, _. split; [reflexivity|].
    split; [apply room_args1|]. rewrite strlen_expand_tilde.
    split; [reflexivity|]. unfold strlen in *. cbn [is_number]. lia.
  - (* readdir *)
    unfold readdir. checks_pass.
    eexists (TNum SftpPacketType.READDIR), _, _, _, _.
    split; [reflexivity|]. split; [apply room_writeData|].
    pose proof (len_nonneg (_handle hd)).
    split; [reflexivity|]. cbn [is_number]. lia.
  - (* unlink *)
    unfold unlink. checks_pass. rewrite command_number by discriminate.
    eexists _, _, _, _, _. split; [reflexivity|].
    split; [apply room_args1|]. rewrite strlen_expand_tilde.
    split; [reflexivity|]. unfold strlen in *. cbn [is_number]. lia.
  - (* mkdir *)
    unfold mkdir. checks_pass.
    eexists (TNum SftpPacketType.MKDIR), _, (4 + strlen p + 36), _, _.
    split; [reflexivity|]. split.
    + rewrite <- strlen_expand_tilde.
      apply room_bind; [lia | apply room_writeString |].
      apply room_writeStats. assumption.
    + split; [reflexivity|]. unfold strlen in *. cbn [is_number]. lia.
  - (* rmdir *)
    unfold rmdir. checks_pass. rewrite command_number by discriminate.
    eexists _, _, _, _, _. split; [reflexivity|].
    split; [apply room_args1|]. rewrite strlen_expand_tilde.
    split; [reflexivity|]. unfold strlen in *. cbn [is_number]. lia.
  - (* realpath *)
    unfold realpath. checks_pass. rewrite command_number by discriminate.
    eexists _, _, _, _, _. split; [reflexivity|].
    split; [apply room_args1|]. rewrite strlen_expand_tilde.
    split; [reflexivity|]. unfold strlen in *. cbn [is_number]. lia.
  - (* stat *)
    unfold stat. checks_pass. rewrite command_number by discriminate.
    eexists _, _, _, _, _. split; [reflexivity|].
    split; [apply room_args1|]. rewrite strlen_expand_tilde.
    split; [reflexivity|]. unfold strlen in *. cbn [is_number]. lia.
  - (* rename *)
    unfold rename. checks_pass.
    destruct (f =? RenameFlags.OVERWRITE) eqn:Hover.
    + rewrite (bind_Ok _ _ w (CStr SftpFeature.POSIX_RENAME) w) by reflexivity.
      destruct (_features (this w) !! SftpFeature.POSIX_RENAME) as [name|] eqn:Hf;
        [|discriminate].
      destruct (Hneg _ _ Hf) as [[Hkey _]|[_ ->]]; [discriminate|].
      rewrite (command_feature _ _ _ _ _ _ _ Hf) by discriminate.
      eexists _, _, _, _, _. split; [reflexivity|].
      split; [apply room_args2|]. rewrite !strlen_expand_tilde.
      split; [reflexivity|]. unfold strlen in *. split; [lia|].
      cbn [is_number type_text SftpExtensions.POSIX_RENAME String.length]. lia.
    + destruct (f =? RenameFlags.NONE) eqn:Hnone; [|discriminate].
      rewrite (bind_Ok _ _ w (CNum SftpPacketType.RENAME) w) by reflexivity.
      rewrite command_number by discriminate.
      eexists _, _, _, _, _. split; [reflexivity|].
      split; [apply room_args2|]. rewrite !strlen_expand_tilde.
      split; [reflexivity|]. unfold strlen in *. cbn [is_number]. lia.
  - (* readlink *)
    unfold readlink. checks_pass. rewrite command_number by discriminate.
    eexists _, _, _, _, _. split; [reflexivity|].
    split; [apply room_args1|]. rewrite strlen_expand_tilde.
    split; [reflexivity|]. unfold strlen in *. cbn [is_number]. lia.
  - (* symlink *)
    unfold symlink. checks_pass. rewrite command_number by discriminate.
    eexists _, _, _, _, _. split; [reflexivity|].
    split; [apply room_args2|]. rewrite !strlen_expand_tilde.
    split; [reflexivity|]. unfold strlen in *. cbn [is_number]. lia.
  - (* link *)
    unfold link. checks_pass.
    destruct (_features (this w) !! SftpFeature.HARDLINK) as [name|] eqn:Hf;
      [|discriminate].
    destruct (Hneg _ _ Hf) as [[_ ->]|[Hkey _]]; [|discriminate].
    rewrite (command_feature _ _ _ _ _ _ _ Hf) by discriminate.
    eexists _, _, _, _, _. split; [reflexivity|].
    split; [apply room_args2|]. rewrite !strlen_expand_tilde.
    split; [reflexivity|]. unfold strlen in *. split; [lia|].
    cbn [is_number type_text SftpExtensions.HARDLINK String.length]. lia.
Qed.

Lemma declines_timer cb code msg i w :
  declines cb code w (add_timer (mkTimer cb code msg i) w).
Proof.
  split; [reflexivity|]. split; [reflexivity|].
  exists [mkTimer cb code msg i]. split; [reflexivity|]. split; [discriminate|].
  constructor; [split; reflexivity | constructor].
Qed.

Lemma perform_unavailable op cb w :
  negotiated w -> valid_arguments op cb w = true -> available op w = false ->
  exists w', perform op cb w = Ok tt w'
             /\ declines cb SftpStatusCode.OP_UNSUPPORTED w w'.
Proof.
  intros Hneg Hvalid Havail. unfold valid_arguments in Hvalid.
  apply andb_prop in Hvalid as [Hcb Hvalid].
  destruct cb as [k|]; [clear Hcb|discriminate].
  destruct op as [p f attrs|h|h buf offset requested pos|h buf offset requested pos
                 |p|h|p attrs|h attrs|p|h|p|p attrs|p|p|p|p q f|p|p q|p q];
    cbn [available] in Havail; try discriminate;
    cbn [perform]; apply andb_prop in Hvalid as [Hp Hq];
    apply good_path_spec in Hp, Hq.
  - unfold rename. checks_pass.
    destruct (f =? RenameFlags.OVERWRITE) eqn:Hover.
    + rewrite (bind_Ok _ _ w (CStr SftpFeature.POSIX_RENAME) w) by reflexivity.
      destruct (_features (this w) !! SftpFeature.POSIX_RENAME) eqn:Hf;
        [discriminate|].
      rewrite (command_unsupported _ _ _ _ _ _ Hf).
      eexists. split; [reflexivity | apply declines_timer].
    + rewrite Havail. unfold bind at 1. unfold bind at 1. cbn [setTimeout modify].
      unfold ret. rewrite command_undefined.
      2:{ intros key name. apply Hneg. }
      eexists. split; [reflexivity|].
      split; [reflexivity|]. split; [reflexivity|].
      eexists [_; _]. split; [cbn [timers add_timer]; rewrite <- app_assoc; reflexivity|].
      split; [discriminate|].
      repeat constructor.
  - unfold link. checks_pass.
    destruct (_features (this w) !! SftpFeature.HARDLINK) eqn:Hf; [discriminate|].
    rewrite (command_unsupported _ _ _ _ _ _ Hf).
    eexists. split; [reflexivity | apply declines_timer].
Qed.

Lemma thrown_bind_l {S A B} (m : M S A) (k : A -> M S B) s :
  thrown (m s) -> thrown (bind m k s).
Proof. unfold bind. destruct (m s); [contradiction | exact id]. Qed.

Lemma thrown_bind_Ok {S A B} (m : M S A) (k : A -> M S B) s a s' :
  m s = Ok a s' -> thrown (k a s') -> thrown (bind m k s).
Proof. intros H. rewrite (bind_Ok _ _ _ _ _ H). exact id. Qed.

Lemma always_throws_bind_l {A B} (m : PM A) (k : A -> PM B) : always_throws m -> always_throws (bind m k).
Proof.
  intros Hm p. destruct (Hm p) as (e & p' & H). exists e, p'.
  unfold bind. rewrite H. reflexivity.
Qed.

Lemma always_throws_bind_r {A B} (m : PM A) (k : A -> PM B) :
  (forall a, always_throws (k a)) -> always_throws (bind m k).
Proof.
  intros Hk p. unfold bind. destruct (m p) as [a p1|e p1].
  - apply Hk.
  - exists e, p1. reflexivity.
Qed.

Lemma always_throws_throw {A} e : always_throws (@throw SftpPacket A e).
Proof. intros p. exists e, p. reflexivity. Qed.

Lemma always_throws_flags f :
  good_flags f = false -> always_throws (@liftR SftpPacket Z (SftpFlags.toNumber f)).
Proof.
  intros Hf. pose proof (good_flags_spec f) as H.
  destruct (SftpFlags.toNumber f); [congruence | apply always_throws_throw].
Qed.

Lemma always_throws_writeStats attrs : good_attrs attrs = false -> always_throws (writeStats attrs).
Proof.
  destruct attrs as [stats|]; [|discriminate]. cbn [good_attrs]. intros Hbad.
  pose proof (from_has stats) as (_ & _ & _ & HT & _).
  pose proof (from_fields stats) as (_ & _ & _ & _ & Fa & Ft).
  cbv zeta in *. rewrite has_toInt32 in HT. unfold has in HT.
  unfold writeStats, SftpAttributes_.write. cbv zeta.
  set (x := SftpAttributes_.from (Some stats)) in *.
  do 4 (apply always_throws_bind_r; intros _). apply always_throws_bind_l.
  rewrite HT, Fa, Ft.
  destruct (st_atime stats) as [a|], (st_mtime stats) as [m|];
    try discriminate; cbn [defined orb SftpAttributes_.seconds].
  - apply always_throws_bind_r. intros ?. apply always_throws_bind_r. intros _.
    apply always_throws_bind_l, always_throws_throw.
  - apply always_throws_bind_l, always_throws_throw.
Qed.

Lemma thrown_request ty (body : PM unit) cb parser i w :
  always_throws body ->
  thrown ((do request <- getRequest ty;
           do request <- writing request body;
           execute request cb parser i) w).
Proof.
  intros Hbody. unfold bind at 1.
  destruct (getRequest ty w) as [rq w1|e w1]; [|exact I].
  apply thrown_bind_l. unfold writing.
  destruct (Hbody rq) as (e & p' & H). rewrite H. exact I.
Qed.

Lemma checkPath_thrown p name w :
  good_path p = false -> thrown (checkPath p name w).
Proof.
  unfold good_path, checkPath. intros H. apply negb_false_iff in H.
  rewrite H. exact I.
Qed.

Lemma toHandle_thrown w h : good_handle w h = false -> thrown (toHandle h w).
Proof.
  destruct h as [hd|]; [|intros _; exact I]. cbn [good_handle]. intros H.
  unfold toHandle, bind, gets. rewrite H. exact I.
Qed.

Lemma checkBuffer_thrown buf offset requested w :
  good_range buf offset requested = false ->
  thrown (checkBuffer buf offset requested w).
Proof.
  destruct buf as [b|]; [|intros _; exact I]. cbn [good_range checkBuffer].
  intros H.
  destruct (Z.ltb_spec offset 0); [exact I|].
  destruct (Z.ltb_spec requested 0); [exact I|].
  destruct (Z.ltb_spec (len b) (offset + requested)); [exact I|].
  exfalso. rewrite !andb_false_iff in H. rewrite !Z.leb_gt in H. lia.
Qed.

Lemma checkPosition_thrown pos w :
  good_position pos = false -> thrown (checkPosition pos w).
Proof.
  unfold good_position, checkPosition. intros H.
  destruct (Z.ltb_spec pos 0); [exact I|].
  destruct (Z.ltb_spec 9223372036854775808 pos); [exact I|].
  exfalso. rewrite andb_false_iff in H. rewrite !Z.leb_gt in H. lia.
Qed.

(** Going through the checks of an operation one by one: a check whose
    argument is bad throws, a check whose argument is good is passed. *)
Ltac through_path p name w :=
  destruct (good_path p) eqn:?;
  [ match goal with
    | H : good_path p = true |- _ =>
        rewrite (bind_Ok _ _ _ _ _ (checkPath_ok p name w (good_path_spec p H)))
    end
  | apply thrown_bind_l, checkPath_thrown; assumption ].

Ltac through_handle h w :=
  destruct (good_handle w h) eqn:?;
  [ match goal with
    | H : good_handle w h = true |- _ =>
        let hd := fresh "hd" in
        let E := fresh "E" in
        destruct (toHandle_ok w h H) as (hd & -> & E);
        rewrite (bind_Ok _ _ _ _ _ E)
    end
  | apply thrown_bind_l, toHandle_thrown; assumption ].

Ltac through_position pos w :=
  destruct (good_position pos) eqn:?;
  [ match goal with
    | H : good_position pos = true |- _ =>
        rewrite (bind_Ok _ _ _ _ _ (checkPosition_ok pos w H))
    end
  | apply thrown_bind_l, checkPosition_thrown; assumption ].

Lemma perform_invalid op cb w :
  valid_arguments op cb w = false -> thrown (perform op cb w).
Proof.
  intros Hvalid. unfold valid_arguments in Hvalid.
  destruct cb as [k|]; [|destruct op; exact I].
  cbn [is_function andb] in Hvalid.
  destruct op as [p f attrs|h|h buf offset requested pos|h buf offset requested pos
                 |p|h|p attrs|h attrs|p|h|p|p attrs|p|p|p|p q f|p|p q|p q];
    cbn [perform].
  - unfold open. rewrite (bind_Ok _ _ w tt w) by reflexivity.
    through_path p "path" w. apply thrown_request.
    apply always_throws_bind_r. intros _.
    destruct (good_flags f) eqn:Hf; [|apply always_throws_bind_l, always_throws_flags, Hf].
    apply always_throws_bind_r. intros n. apply always_throws_bind_r. intros _.
    apply always_throws_writeStats. cbn [andb] in Hvalid. exact Hvalid.
  - unfold close. rewrite (bind_Ok _ _ w tt w) by reflexivity.
    through_handle h w. discriminate.
  - unfold read. rewrite (bind_Ok _ _ w tt w) by reflexivity.
    through_handle h w. cbn [andb] in Hvalid.
    destruct buf as [b|]; cbn [defined negb orb] in *.
    + destruct (good_range (Some b) offset requested) eqn:Hr.
      * destruct (checkBuffer_ok _ _ _ w Hr) as (? & _ & _ & _ & _ & Hc).
        rewrite (bind_Ok _ _ _ _ _ Hc).
        through_position pos w. discriminate.
      * apply thrown_bind_l, checkBuffer_thrown, Hr.
    + rewrite (bind_Ok _ _ w tt w) by reflexivity.
      through_position pos w. discriminate.
  - unfold write. rewrite (bind_Ok _ _ w tt w) by reflexivity.
    through_handle h w. cbn [andb] in Hvalid.
    destruct (good_range buf offset requested) eqn:Hr.
    + destruct (checkBuffer_ok _ _ _ w Hr) as (? & _ & _ & _ & _ & Hc).
      rewrite (bind_Ok _ _ _ _ _ Hc).
      through_position pos w. cbn [andb] in Hvalid.
      rewrite (bind_Ok _ _ w (this w) w) by reflexivity.
      apply Z.leb_gt in Hvalid.
      destruct (Z.ltb_spec (_maxWriteBlockLength (this w)) requested); [exact I | lia].
    + apply thrown_bind_l, checkBuffer_thrown, Hr.
  - unfold lstat. rewrite (bind_Ok _ _ w tt w) by reflexivity.
    through_path p "path" w. discriminate.
  - unfold fstat. rewrite (bind_Ok _ _ w tt w) by reflexivity.
    through_handle h w. discriminate.
  - unfold setstat. rewrite (bind_Ok _ _ w tt w) by reflexivity.
    through_path p "path" w. apply thrown_request.
    apply always_throws_bind_r. intros _. apply always_throws_writeStats. exact Hvalid.
  - unfold fsetstat. rewrite (bind_Ok _ _ w tt w) by reflexivity.
    through_handle h w. apply thrown_request.
    apply always_throws_bind_r. intros _. apply always_throws_writeStats. exact Hvalid.
  - unfold opendir. rewrite (bind_Ok _ _ w tt w) by reflexivity.
    through_path p "path" w. discriminate.
  - unfold readdir. rewrite (bind_Ok _ _ w tt w) by reflexivity.
    through_handle h w. discriminate.
  - unfold unlink. rewrite (bind_Ok _ _ w tt w) by reflexivity.
    through_path p "path" w. discriminate.
  - unfold mkdir. rewrite (bind_Ok _ _ w tt w) by reflexivity.
    through_path p "path" w. apply thrown_request.
    apply always_throws_bind_r. intros _. apply always_throws_writeStats. exact Hvalid.
  - unfold rmdir. rewrite (bind_Ok _ _ w tt w) by reflexivity.
    through_path p "path" w. discriminate.
  - unfold realpath. rewrite (bind_Ok _ _ w tt w) by reflexivity.
    through_path p "path" w. discriminate.
  - unfold stat. rewrite (bind_Ok _ _ w tt w) by reflexivity.
    through_path p "path" w. discriminate.
  - unfold rename. rewrite (bind_Ok _ _ w tt w) by reflexivity.
    through_path p "oldPath" w. through_path q "newPath" w. discriminate.
  - unfold readlink. rewrite (bind_Ok _ _ w tt w) by reflexivity.
    through_path p "path" w. discriminate.
  - unfold symlink. rewrite (bind_Ok _ _ w tt w) by reflexivity.
    through_path p "targetPath" w. through_path q "linkPath" w. discriminate.
  - unfold link. rewrite (bind_Ok _ _ w tt w) by reflexivity.
    through_path p "oldPath" w. through_path q "newPath" w. discriminate.
Qed.

Lemma negotiated_standing w w' :
  standing w' = standing w -> negotiated w -> negotiated w'.
Proof.
  unfold standing, negotiated. intros H Hneg key name.
  replace (_features (this w')) with (_features (this w)) by congruence.
  apply Hneg.
Qed.

Lemma clean_bind {A B} (m : WM A) (k : A -> WM B) :
  quiet m -> (forall a, clean (k a)) -> clean (bind m k).
Proof.
  intros Hm Hk w Hneg. unfold bind. destruct (Hm w) as [H1 H2].
  destruct (m w) as [a w1|e w1]; cbn [state_of] in *.
  - pose proof (Hk a w1 (negotiated_standing _ _ H1 Hneg)) as H.
    destruct (k a w1); cbn [clean_run] in *; [exact I|].
    destruct H as [H3 H4]. split; congruence.
  - split; assumption.
Qed.

Lemma clean_throw {A} e : clean (@throw World A e).
Proof. intros w _. split; reflexivity. Qed.

Lemma clean_execute request cb parser i : clean (execute request cb parser i).
Proof.
  intros w _. unfold execute, bind, gets.
  destruct (_host (this w)) as [host|]; [|exact I].
  destruct (defined (_requests (this w) !! id_ request));
    [split; reflexivity|].
  destruct (finish request) as [packet rq|e rq];
    [exact I | split; reflexivity].
Qed.

Lemma clean_command c args cb parser i : clean (command_ c args cb parser i).
Proof.
  unfold command_. intros w. unfold bind at 1, gets.
  match goal with |- context [getRequest ?t] => set (ty := t) end.
  clearbody ty.
  match goal with |- context [if ?b then _ else _] => destruct b end.
  - intros _. exact I.
  - revert w. apply clean_bind; [apply quiet_getRequest|]. intros request.
    apply clean_bind; [apply quiet_writing|]. intros request'.
    apply clean_execute.
Qed.

Ltac clean_steps :=
  repeat first
    [ apply clean_execute
    | apply clean_command
    | apply clean_throw
    | apply clean_bind; [quiet_step | intros ?] ].

Lemma clean_rename oldPath newPath f cb : clean (rename oldPath newPath f cb).
Proof.
  unfold rename.
  apply clean_bind; [quiet_step | intros ?].
  apply clean_bind; [quiet_step | intros oldPath'].
  apply clean_bind; [quiet_step | intros newPath'].
  destruct (f =? RenameFlags.OVERWRITE).
  - apply clean_bind; [quiet_step | intros ?]. apply clean_command.
  - destruct (f =? RenameFlags.NONE).
    + apply clean_bind; [quiet_step | intros ?]. apply clean_command.
    + intros w Hneg. unfold bind at 1. unfold bind at 1.
      cbn [setTimeout modify]. unfold ret. rewrite command_undefined.
      * exact I.
      * intros key name. apply Hneg.
Qed.

Lemma clean_perform op cb : clean (perform op cb).
Proof.
  destruct op; cbn [perform].
  - unfold open. clean_steps.
  - unfold close. clean_steps.
  - unfold read. clean_steps.
    apply clean_bind.
    { match goal with |- context [defined ?b] => destruct (defined b) end;
        [apply quiet_checkBuffer | apply quiet_ret]. }
    intros ?. clean_steps.
  - unfold write. clean_steps.
    match goal with |- context [if ?c then _ else _] => destruct c end;
      clean_steps.
  - unfold lstat. clean_steps.
  - unfold fstat. clean_steps.
  - unfold setstat. clean_steps.
  - unfold fsetstat. clean_steps.
  - unfold opendir. clean_steps.
  - unfold readdir. clean_steps.
  - unfold unlink. clean_steps.
  - unfold mkdir. clean_steps.
  - unfold rmdir. clean_steps.
  - unfold realpath. clean_steps.
  - unfold stat. clean_steps.
  - apply clean_rename.
  - unfold readlink. clean_steps.
  - unfold symlink. clean_steps.
  - unfold link. clean_steps.
Qed.

(** C9, as stated, fails: a write whose offset and length run past the end of
    the buffer is rejected by [checkBuffer] with a synchronous exception; no
    failure callback is scheduled. *)
Lemma C9_validation_counterexample :
  perform (Write (Some (mkHandle [1] 1)) (Some [1; 2; 3]) 0 10 0) (Fn 0)
          bound_session
  = Throw (ThrowSftpError "Offset or length is out of bands") bound_session
  /\ timers bound_session = [] /\ calls bound_session = []
  /\ sent bound_session = [].
Proof. repeat split; vm_compute; reflexivity. Qed.

(** C9, amended.  No operation invokes a callback before it returns, and an
    operation that throws has sent nothing, scheduled nothing and registered
    nothing.  An operation whose arguments fail the local validation throws.
    An operation whose arguments pass it returns, provided its request fits
    the packet buffer and its request id is not pending: when the feature it
    depends on has not been negotiated, it has sent nothing and has scheduled
    an OP_UNSUPPORTED failure for its own callback, to run in a later
    scheduling turn; otherwise, on a session without a transport, it has sent
    nothing and has scheduled a NO_CONNECTION failure for its own callback;
    otherwise it has sent exactly one request to the transport and has
    registered its own callback under the request id, scheduling nothing. *)
Theorem C9_operation_outcomes (op : Operation) (cb : Callback) (w : World) :
  negotiated w ->
  let res := perform op cb w in
  let w' := state_of res in
  calls w' = calls w
  /\ (thrown res -> sent w' = sent w /\ timers w' = timers w
                    /\ _requests (this w') = _requests (this w))
  /\ (valid_arguments op cb w = false -> thrown res)
  /\ (valid_arguments op cb w = true ->
      if available op w then
        roomy op w ->
        match _host (this w) with
        | Some host =>
            _requests (this w) !! _id (this w) = None ->
            res = Ok tt w' /\ sends cb host w w'
        | None =>
            res = Ok tt w' /\ declines cb SftpStatusCode.NO_CONNECTION w w'
        end
      else res = Ok tt w' /\ declines cb SftpStatusCode.OP_UNSUPPORTED w w').
Proof.
  intros Hneg res w'. split; [|split; [|split]].
  - pose proof (well_behaved_perform op cb w) as H. fold res in H.
    unfold w'. destruct res; cbn [state_of op_outcome obs fst snd] in *; tauto.
  - pose proof (clean_perform op cb w Hneg) as H. fold res in H.
    unfold w'. destruct res; cbn [state_of clean_run thrown] in *; [intros []|].
    intros _. destruct H as [H1 H2]. unfold standing in H1.
    split; [congruence|]. split; [exact H2 | congruence].
  - apply perform_invalid.
  - intros Hvalid. destruct (available op w) eqn:Havail.
    + intros Hroomy.
      destruct (perform_request op cb w Hneg Hvalid Havail Hroomy)
        as (ty & body & n & parser & i & Heq & Hbody & Hty & Hn & Hcap).
      pose proof (request_outcome ty body n cb parser i w Hty Hbody Hn Hcap) as Hout.
      rewrite <- Heq in Hout. fold res in Hout.
      destruct (_host (this w)) as [host|].
      * intros Hfree. destruct (Hout Hfree) as (w0 & Hres & Hsends).
        unfold w'. rewrite Hres. split; [reflexivity | exact Hsends].
      * destruct Hout as (w0 & Hres & Hdecl).
        unfold w'. rewrite Hres. split; [reflexivity | exact Hdecl].
    + destruct (perform_unavailable op cb w Hneg Hvalid Havail) as (w0 & Hres & Hdecl).
      fold res in Hres. unfold w'. rewrite Hres. split; [reflexivity | exact Hdecl].
Qed.

Lemma C9_operation_outcomes_witness :
  let res := perform (Stat "/a") (Fn 1) bound_session in
  let w' := state_of res in
  calls w' = calls bound_session
  /\ (thrown res -> sent w' = sent bound_session /\ timers w' = timers bound_session
                    /\ _requests (this w') = _requests (this bound_session))
  /\ (valid_arguments (Stat "/a") (Fn 1) bound_session = false -> thrown res)
  /\ (valid_arguments (Stat "/a") (Fn 1) bound_session = true ->
      if available (Stat "/a") bound_session then
        roomy (Stat "/a") bound_session ->
        match _host (this bound_session) with
        | Some host =>
            _requests (this bound_session) !! _id (this bound_session) = None ->
            res = Ok tt w' /\ sends (Fn 1) host bound_session w'
        | None =>
            res = Ok tt w'
            /\ declines (Fn 1) SftpStatusCode.NO_CONNECTION bound_session w'
        end
      else res = Ok tt w'
           /\ declines (Fn 1) SftpStatusCode.OP_UNSUPPORTED bound_session w').
Proof.
  apply (C9_operation_outcomes (Stat "/a") (Fn 1) bound_session).
  intros key name H. vm_compute in H. discriminate.
Defined.

(** ** Request correlation (claim C1) *)

Lemma world_id_eta w i :
  _id (this w) = i -> upd_this (set__id i) w = w.
Proof. destruct w as [[] ? ? ? ?]. cbn. intros <-. reflexivity. Qed.

(** Running through request ids moves the id counter and nothing else. *)
Lemma request_ids_state (n : nat) (t i : Z) (w : World) :
  t <> SftpPacketType.INIT ->
  _id (this w) = Some i -> -2147483648 <= i < 2147483648 ->
  0 <= _maxWriteBlockLength (this w) ->
  exists ids,
    request_ids n (TNum t) w
    = Ok ids (upd_this (set__id (Some (toInt32 (i + Z.of_nat n)))) w).
Proof.
  intros Ht. revert w i. induction n as [|n IH]; intros w i Hid Hi Hcap.
  - exists []. cbn [request_ids]. unfold ret. f_equal. symmetry.
    apply world_id_eta. rewrite Hid, Z.add_0_r, toInt32_small by lia.
    reflexivity.
  - destruct (start_spec (_maxWriteBlockLength (this w) + 1024) t (Some i))
      as (rq & Hstart & _).
    { assert (len (header t (Some i)) <= 9).
      { unfold header. rewrite !len_app, len_bytes32.
        change (len [js_and t 255]) with 1.
        destruct (unnumbered t); [change (len []) with 0 | rewrite len_bytes32]; lia. }
      lia. }
    assert (Hne : loose_eq (TNum t) SftpPacketType.INIT = false)
      by (apply Z.eqb_neq; exact Ht).
    pose proof (getRequest_spec (TNum t) w (Some i) rq Hid Hne Hstart) as Hget.
    cbn [num] in Hget. rewrite js_and_all_ones in Hget.
    set (w1 := upd_this (set__id (Some (toInt32 (i + 1)))) w) in *.
    destruct (IH w1 (toInt32 (i + 1)) eq_refl (toInt32_range _) Hcap)
      as (ids & Hrun).
    eexists. cbn [request_ids]. rewrite (bind_Ok _ _ _ _ _ Hget).
    rewrite (bind_Ok _ _ _ _ _ Hrun). unfold ret. f_equal.
    rewrite toInt32_add. unfold w1, upd_this, set__id. cbn. do 4 f_equal. lia.
Qed.

(** C1, on the code: a request whose id has bit 31 set is never answered.
    The session of the scenario gets its id counter to 2^31 - 1 by handing
    out ids.  Two stats issued then are registered under 2^31 - 1 and under
    the next id, which the session holds as -2^31 and sends as 80 00 00 00.
    The reply that echoes 7f ff ff ff completes the first stat.  In the
    reply that echoes 80 00 00 00 the reader takes the id for -6442450944,
    which is 2^32 less than the key of the second stat: [_process] throws
    "Unknown response ID", invokes no callback and leaves both entries in
    the table. *)
Theorem C1_high_request_id_unanswered :
  (exists ids,
     request_ids (Z.to_nat 2147483646) (TNum SftpPacketType.STAT)
                 (state_of (ready_session (World_new 1)))
     = Ok ids wrapping_session)
  /\ map (fun p => firstn 4 (skipn 5 (snd p))) (skipn 1 (sent two_stats))
     = [[127; 255; 255; 255]; [128; 0; 0; 0]]
  /\ option_map callback (_requests (this two_stats) !! Some 2147483647)
     = Some (Fn 1)
  /\ option_map callback (_requests (this two_stats) !! Some (-2147483648))
     = Some (Fn 2)
  /\ match _process 0 low_reply two_stats with
     | Ok _ w => Some (skipn (length (calls two_stats)) (calls w),
                       defined (_requests (this w) !! Some 2147483647))
     | Throw _ _ => None
     end
     = Some ([mkCall 1 None
                (PAttrs (mkAttrs None None None None (Some 33188) None None None))],
             false)
  /\ packet_id high_reply = Some (Some (-6442450944))
  /\ _process 0 high_reply two_stats
     = Throw (ThrowSftpError "Unknown response ID")
             (upd_this (fun c => set_bytesReceived (_bytesReceived c + 17) c)
                       two_stats).
Proof.
  split.
  { destruct (request_ids_state (Z.to_nat 2147483646) SftpPacketType.STAT 1
                (state_of (ready_session (World_new 1)))) as (ids & H);
      [discriminate | reflexivity | lia | vm_compute; discriminate |].
    exists ids. rewrite H. rewrite Z2Nat.id by lia. reflexivity. }
  split; [vm_compute; reflexivity|].
  split; [vm_compute; reflexivity|].
  split; [vm_compute; reflexivity|].
  split; [vm_compute; reflexivity|].
  split; vm_compute; reflexivity.
Qed.

(** ** Answers and the callbacks they reach *)

Lemma decode_utf8_bytes s post :
  decodeUTF8 (utf8_bytes s ++ post) 0 (strlen s) = s.
Proof.
  unfold decodeUTF8. rewrite Z.sub_0_r. change (Z.to_nat 0) with 0%nat.
  rewrite drop_0. rewrite <- len_utf8_bytes. unfold len. rewrite Nat2Z.id.
  rewrite take_app_length. unfold utf8_bytes. rewrite map_map.
  rewrite <- (string_of_list_ascii_of_string s) at 2. f_equal.
  induction (list_ascii_of_string s) as [|c l IH]; [reflexivity|].
  cbn [map]. rewrite IH. f_equal.
  pose proof (N_ascii_bounded c) as Hc.
  rewrite <- (ascii_N_embedding c) at 2. f_equal.
  replace (Z.land (Z.of_N (N_of_ascii c)) 255) with (Z.of_N (N_of_ascii c)).
  - apply N2Z.id.
  - change 255 with (Z.ones 8). rewrite Z.land_ones by lia.
    symmetry. apply Z.mod_small. change (2 ^ 8) with 256. lia.
Qed.

Lemma decodeUTF8_shift b start n :
  0 <= start ->
  decodeUTF8 b start (start + n) = decodeUTF8 (drop (Z.to_nat start) b) 0 n.
Proof.
  intros H. unfold decodeUTF8. change (Z.to_nat 0) with 0%nat. rewrite drop_0.
  replace (start + n - start) with (n - 0) by lia. reflexivity.
Qed.

Lemma reads_readString s :
  strlen s < 2147483648 -> reads readString (wire_string s) s.
Proof.
  intros Hs r post Hwf Hrest. unfold wire_string in Hrest.
  rewrite <- bytes32_be32, <- app_assoc in Hrest.
  assert (H0 : 0 <= strlen s) by (unfold strlen; lia).
  destruct (readInt32_at r (strlen s) (utf8_bytes s ++ post) Hwf Hrest)
    as (H1 & Hwf1 & Hrest1).
  rewrite toInt32_small, int32_image_nonneg in H1 by lia.
  pose proof (rest_len _ Hwf1) as Hrem. rewrite Hrest1, len_app, len_utf8_bytes in Hrem.
  pose proof (len_nonneg post) as Hpost.
  unfold readString. unfold bind at 1. rewrite H1.
  unfold bind at 1. rewrite check_ok by lia.
  unfold bind at 1, get. unfold bind at 1, modify. unfold ret.
  set (r1 := advance 4 r) in *. destruct Hwf1 as [Hp1 Hl1].
  eexists. split; [|split].
  - f_equal. rewrite decodeUTF8_shift by lia. fold (rest r1). rewrite Hrest1.
    apply decode_utf8_bytes.
  - unfold wf, set_position. cbn [position length_ buffer]. unfold remaining in Hrem.
    lia.
  - unfold rest, set_position. cbn [position buffer].
    replace (Z.to_nat (position r1 + strlen s))
      with (Z.to_nat (position r1) + length (utf8_bytes s))%nat
      by (rewrite <- len_utf8_bytes; unfold len; lia).
    rewrite <- drop_drop. fold (rest r1). rewrite Hrest1. apply drop_app_length.
Qed.

Lemma has_wire_mask a :
  has (wire_mask a) SftpAttributeFlags.SIZE = defined (w_size a)
  /\ has (wire_mask a) SftpAttributeFlags.UIDGID = defined (w_owner a)
  /\ has (wire_mask a) SftpAttributeFlags.PERMISSIONS = defined (w_mode a)
  /\ has (wire_mask a) SftpAttributeFlags.ACMODTIME = defined (w_times a).
Proof.
  destruct a as [[s|] [o|] [m|] [t|]];
    (split; [|split; [|split]]); vm_compute; reflexivity.
Qed.

Lemma wire_mask_range a : 0 <= wire_mask a < 16.
Proof.
  destruct a as [[s|] [o|] [m|] [t|]]; vm_compute; split; congruence.
Qed.

Lemma toInt32_low s :
  s mod 4294967296 < 2147483648 -> toInt32 s = s mod 4294967296.
Proof.
  intros H. unfold toInt32.
  pose proof (Z.mod_pos_bound s 4294967296 ltac:(lia)) as Hb.
  pose proof (Z.div_mod s 4294967296 ltac:(lia)) as Hs.
  set (q := s / 4294967296) in *. set (lo := s mod 4294967296) in *.
  clearbody q lo.
  assert (E : (s + 2147483648) mod 4294967296 = lo + 2147483648).
  { symmetry. apply (Z.mod_unique_pos _ _ q); lia. }
  rewrite E. lia.
Qed.

(** A safe size whose low word is below 2^31 comes back unchanged. *)
Lemma size_image_wide s :
  0 <= s < 9007199254740992 -> s mod 4294967296 < 2147483648 ->
  int32_image (toInt32 (js_or (Z.quot s 4294967296) 0)) * 4294967296
  + toInt32 (js_or (js_and s 4294967295) 0) = s.
Proof.
  intros Hs Hlo.
  assert (Hhi : 0 <= s / 4294967296 < 2147483648).
  { split; [apply Z.div_pos; lia | apply Z.div_lt_upper_bound; lia]. }
  rewrite Z.quot_div_nonneg by lia.
  rewrite !js_or_0_r, js_and_all_ones, !toInt32_idem.
  rewrite (toInt32_small (s / 4294967296)) by lia.
  rewrite int32_image_nonneg by lia.
  rewrite (toInt32_low s Hlo).
  pose proof (Z.div_mod s 4294967296 ltac:(lia)). lia.
Qed.

Lemma reads_wire_attrs a :
  wire_ok a ->
  reads SftpAttributes_.decode (wire_attrs a) (stats_of (Some (wire_mask a)) a).
Proof.
  intros (Hsize & Howner & Hmode & Htimes).
  pose proof (has_wire_mask a) as (HS & HU & HP & HT).
  pose proof (wire_mask_range a) as Hmask.
  pose proof (reads_attributes (stats_of (Some (wire_mask a)) a)) as H.
  unfold attr_fields, wire_image in H. cbv zeta in H.
  cbn [stats_of a_flags size uid gid mode atime mtime num] in H.
  rewrite (toInt32_small (wire_mask a)) in H by lia.
  rewrite HS, HU, HP, HT in H. rewrite app_nil_r in H.
  unfold wire_attrs, stats_of.
  destruct a as [size owner perm times].
  cbn [w_size w_owner w_mode w_times] in *. clear HS HU HP HT Hmask.
  set (mask := wire_mask _) in *. clearbody mask.
  destruct size as [s|]; cbn [defined num option_map fst snd] in H.
  1: rewrite size_image_wide, (writeInt64_be64 s) in H by tauto.
  all: destruct owner as [[u g]|]; cbn [defined num option_map fst snd] in H.
  1,3: rewrite (toInt32_small u), (toInt32_small g),
         (int32_image_nonneg u), (int32_image_nonneg g) in H by lia.
  all: destruct perm as [m|]; cbn [defined num option_map fst snd] in H.
  1,3,5,7: rewrite (toInt32_small m) in H by lia.
  all: destruct times as [[t1 t2]|]; cbn [defined num option_map fst snd] in H.
  1,3,5,7,9,11,13,15:
    rewrite (Z.mul_comm 1000 t1), (Z.mul_comm 1000 t2), !Z.quot_mul,
      (toInt32_small t1), (toInt32_small t2) in H by lia.
  all: rewrite !bytes32_be32 in H. all: cbn [option_map fst snd]. all: exact H.
Qed.

Lemma len_be32 v : len (be32 v) = 4.
Proof. reflexivity. Qed.

Lemma len_wire_string s : len (wire_string s) = 4 + strlen s.
Proof. unfold wire_string. rewrite len_app, len_be32, len_utf8_bytes. reflexivity. Qed.

Lemma strlen_nonneg s : 0 <= strlen s.
Proof. unfold strlen. lia. Qed.

Lemma nativeCode_createError c m i : nativeCode (createError c m i) = Some c.
Proof.
  unfold createError.
  repeat match goal with |- context [if ?b then _ else _] => destruct b end;
    reflexivity.
Qed.

Lemma parser_status fuel sid p i code msg lang res k r w :
  0 <= code < 2147483648 -> strlen msg < 2147483648 ->
  outcome sid p i (RStatus code msg lang) = Some res ->
  wf r -> rest r = reply_body (RStatus code msg lang) ->
  type_ r = TNum SftpPacketType.STATUS -> info r = Some i ->
  runParser fuel p r (Fn k) w = Ok tt (add_call (mkCall k res.1 res.2) w).
Proof.
  intros Hcode Hmsg Hout Hwf Hrest Hty Hi.
  cbn [reply_body] in Hrest.
  rewrite <- bytes32_be32 in Hrest.
  destruct (reads_readInt32 code r _ Hwf Hrest) as (r1 & H1 & Hwf1 & Hrest1).
  rewrite toInt32_small, int32_image_nonneg in H1 by lia.
  destruct (reads_readString msg Hmsg r1 _ Hwf1 Hrest1) as (r2 & H2 & _ & _).
  assert (Hi2 : info r2 = Some i).
  { rewrite (readString_info _ _ _ H2), (readInt32_info _ _ _ H1). exact Hi. }
  cbn [outcome] in Hout.
  destruct p as [host i0| | | | | |retries h buf offset requested pos].
  - destruct (code =? SftpStatusCode.OK); discriminate.
  - run_reader. rewrite Hty. cbn [loose_eq loose_ne]. rewrite Z.eqb_refl.
    rewrite H1. cbv beta iota. rewrite H2. cbv beta iota.
    destruct (code =? SftpStatusCode.OK).
    + injection Hout as <-. reflexivity.
    + rewrite Hi2. injection Hout as <-. reflexivity.
  - run_reader. rewrite Hty. cbn [loose_eq loose_ne]. rewrite Z.eqb_refl.
    rewrite H1. cbv beta iota. rewrite H2. cbv beta iota.
    destruct (code =? SftpStatusCode.OK); [discriminate|].
    rewrite Hi2. injection Hout as <-. reflexivity.
  - run_reader. rewrite Hty. cbn [loose_eq loose_ne]. rewrite Z.eqb_refl.
    rewrite H1. cbv beta iota. rewrite H2. cbv beta iota.
    destruct (code =? SftpStatusCode.OK); [discriminate|].
    rewrite Hi2. injection Hout as <-. reflexivity.
  - run_reader. rewrite Hty. cbn [loose_eq loose_ne]. rewrite Z.eqb_refl.
    rewrite H1. cbv beta iota. rewrite H2. cbv beta iota.
    destruct (code =? SftpStatusCode.OK); [discriminate|].
    rewrite Hi2. injection Hout as <-. reflexivity.
  - run_reader. rewrite Hty. cbn [loose_eq loose_ne]. rewrite Z.eqb_refl.
    rewrite H1. cbv beta iota. rewrite H2. cbv beta iota.
    destruct (Z.eqb_spec code SftpStatusCode.OK) as [->|Hne]; [discriminate|].
    rewrite Hi2. cbv beta iota.
    rewrite nativeCode_createError.
    destruct (Z.eqb_spec code SftpStatusCode.EOF) as [->|Hne'];
      injection Hout as <-.
    + destruct (decide (Some SftpStatusCode.EOF = Some SftpStatusCode.EOF));
        [reflexivity|congruence].
    + destruct (decide (Some code = Some SftpStatusCode.EOF)) as [He|];
        [congruence|reflexivity].
  - run_reader. rewrite Hty. cbn [loose_eq loose_ne]. rewrite Z.eqb_refl.
    rewrite H1. cbv beta iota. rewrite H2. cbv beta iota.
    destruct (Z.eqb_spec code SftpStatusCode.OK) as [->|Hne]; [discriminate|].
    rewrite Hi2. cbv beta iota.
    rewrite nativeCode_createError.
    destruct (Z.eqb_spec code SftpStatusCode.EOF) as [->|Hne'];
      injection Hout as <-.
    + destruct (decide (Some SftpStatusCode.EOF = Some SftpStatusCode.EOF));
        [|congruence].
      destruct buf; [rewrite slice_to_0|]; reflexivity.
    + destruct (decide (Some code = Some SftpStatusCode.EOF)) as [He|];
        [congruence|reflexivity].
Qed.

Lemma len_wire_entry e : 8 + strlen e.1.1 + strlen e.1.2 <= len (wire_entry e).
Proof.
  unfold wire_entry. rewrite !len_app, !len_wire_string.
  pose proof (len_nonneg (wire_attrs e.2)). lia.
Qed.

Lemma len_entries entries :
  Z.of_nat (length entries) <= len (concat (map wire_entry entries)).
Proof.
  induction entries as [|e l IH]; [unfold len; cbn; lia|].
  cbn [map concat length]. rewrite len_app.
  pose proof (len_wire_entry e). pose proof (strlen_nonneg e.1.1).
  pose proof (strlen_nonneg e.1.2). lia.
Qed.

(** The loop of [parseItems] on the entries of a name reply. *)
Lemma reads_entries entries items0 :
  Forall (fun e => wire_ok e.2) entries ->
  len (concat (map wire_entry entries)) < 2147483648 ->
  reads (readItems (length entries) items0) (concat (map wire_entry entries))
        (items0 ++ map item_of entries).
Proof.
  revert items0. induction entries as [|e l IH]; intros items0 Hok Hlen.
  - cbn. rewrite app_nil_r. apply reads_ret.
  - cbn [map concat length readItems] in *. rewrite len_app in Hlen.
    pose proof (len_wire_entry e) as He. pose proof (strlen_nonneg e.1.1).
    pose proof (strlen_nonneg e.1.2).
    pose proof (len_nonneg (concat (map wire_entry l))).
    inversion Hok as [|? ? Hok1 Hok2]; subst.
    replace (items0 ++ item_of e :: map item_of l)
      with ((items0 ++ [item_of e]) ++ map item_of l)
      by (rewrite <- app_assoc; reflexivity).
    eapply reads_bind; [|apply IH; [exact Hok2 | lia]].
    unfold readItem, wire_entry, item_of.
    eapply reads_bind; [apply reads_readString; lia|].
    eapply reads_bind; [apply reads_readString; lia|].
    apply reads_map, reads_wire_attrs, Hok1.
Qed.

(** A reply of the type the parser expects gives the result of the reply. *)
Lemma parser_reply fuel p i reply res k r w :
  reply_ok reply -> len (reply_body reply) < 2147483648 ->
  reply_type reply <> SftpPacketType.STATUS ->
  outcome (_sessionId (this w)) p i reply = Some res ->
  wf r -> rest r = reply_body reply -> type_ r = TNum (reply_type reply) ->
  runParser fuel p r (Fn k) w = Ok tt (add_call (mkCall k res.1 res.2) w).
Proof.
  intros Hok Hlen Hns Hout Hwf Hrest Hty.
  rewrite <- (app_nil_r (reply_body reply)) in Hrest.
  destruct reply as [code msg lang|h|d|entries|a]; [contradiction| | | |].
  - destruct p; try discriminate. cbn [outcome] in Hout. injection Hout as <-.
    cbn [reply_body reply_type] in *. unfold wire_data in *.
    rewrite len_app, len_be32 in Hlen. rewrite <- bytes32_be32 in Hrest.
    destruct (reads_readData true h ltac:(lia) r [] Hwf Hrest) as (r1 & H1 & _ & _).
    run_reader. rewrite Hty. cbn [loose_eq loose_ne].
    change (SftpPacketType.HANDLE =? SftpPacketType.STATUS) with false.
    cbv beta iota. unfold loose_ne, loose_eq. rewrite Z.eqb_refl.
    cbn [negb]. cbv beta iota. cbn [negb]. cbv beta iota. rewrite H1. reflexivity.
  - destruct p as [| | | | | |retries hd buf offset requested pos]; try discriminate.
    cbn [outcome] in Hout.
    cbn [reply_body reply_type] in *. unfold wire_data in *.
    rewrite len_app, len_be32 in Hlen. rewrite <- bytes32_be32 in Hrest.
    destruct (reads_readData false d ltac:(lia) r [] Hwf Hrest) as (r1 & H1 & _ & _).
    run_reader. rewrite Hty. cbn [loose_eq loose_ne].
    change (SftpPacketType.DATA =? SftpPacketType.STATUS) with false.
    cbv beta iota. rewrite H1. cbv beta iota.
    destruct (len d =? 0); [discriminate|].
    destruct (requested <? len d); [discriminate|]. cbn [orb] in Hout.
    destruct buf as [b|].
    + destruct (Uint8Array_set b d offset); [|discriminate].
      injection Hout as <-. reflexivity.
    + injection Hout as <-. reflexivity.
  - cbn [reply_body reply_type reply_ok] in *.
    rewrite len_app, len_be32 in Hlen. rewrite <- bytes32_be32 in Hrest.
    pose proof (len_entries entries) as Hcount.
    rewrite <- app_assoc in Hrest.
    destruct (reads_readInt32 _ r _ Hwf Hrest) as (r1 & H1 & Hwf1 & Hrest1).
    rewrite toInt32_small, int32_image_nonneg in H1 by lia.
    destruct p; try discriminate; cbn [outcome] in Hout.
    + destruct entries as [|e [|]]; try discriminate. injection Hout as <-.
      cbn [map concat length] in *. rewrite app_nil_r in *.
      unfold wire_entry in Hrest1. rewrite <- !app_assoc in Hrest1.
      pose proof (len_wire_entry e). pose proof (strlen_nonneg e.1.2).
      destruct (reads_readString e.1.1 ltac:(lia) r1 _ Hwf1 Hrest1) as (r2 & H2 & _ & _).
      run_reader. rewrite Hty. cbn [loose_eq loose_ne].
      change (SftpPacketType.NAME =? SftpPacketType.STATUS) with false.
      cbv beta iota. unfold loose_ne, loose_eq. rewrite Z.eqb_refl.
      cbn [negb]. cbv beta iota. cbn [negb]. cbv beta iota. rewrite H1. cbv beta iota.
      change (Z.of_nat 1 =? 1) with true. cbn [negb]. rewrite H2. reflexivity.
    + injection Hout as <-.
      destruct (reads_entries entries [] Hok ltac:(lia) r1 _ Hwf1 Hrest1)
        as (r2 & H2 & _ & _).
      run_reader. rewrite Hty. cbn [loose_eq loose_ne].
      change (SftpPacketType.NAME =? SftpPacketType.STATUS) with false.
      cbv beta iota. unfold loose_ne, loose_eq. rewrite Z.eqb_refl.
      cbn [negb]. cbv beta iota. cbn [negb]. cbv beta iota. rewrite H1. cbv beta iota.
      rewrite Nat2Z.id, H2. reflexivity.
  - destruct p; try discriminate. cbn [outcome] in Hout. injection Hout as <-.
    cbn [reply_body reply_type reply_ok] in *.
    destruct (reads_wire_attrs a Hok r [] Hwf Hrest) as (r1 & H1 & _ & _).
    run_reader. rewrite Hty. cbn [loose_eq loose_ne].
    change (SftpPacketType.ATTRS =? SftpPacketType.STATUS) with false.
    cbv beta iota. unfold loose_ne, loose_eq. rewrite Z.eqb_refl.
    cbn [negb]. cbv beta iota. cbn [negb]. cbv beta iota. rewrite H1. reflexivity.
Qed.

(** The reader that [_process] builds from the packet of an answer. *)
Lemma reply_reader a :
  deliverable a ->
  exists r, response_of (reply_packet a) = Some r
    /\ type_ r = TNum (reply_type a.2) /\ id_ r = Some a.1
    /\ wf r /\ rest r = reply_body a.2.
Proof.
  intros (Hid & _ & Hlen).
  assert (Ht : 0 <= reply_type a.2 < 256
               /\ reply_type a.2 <> SftpPacketType.EXTENDED
               /\ unnumbered (reply_type a.2) = false).
  { destruct a.2;
      cbv [reply_type SftpPacketType.STATUS SftpPacketType.HANDLE
           SftpPacketType.DATA SftpPacketType.NAME SftpPacketType.ATTRS
           SftpPacketType.EXTENDED];
      (split; [lia|split; [lia|reflexivity]]). }
  destruct Ht as (Ht & Hext & Hun).
  pose proof (reader_new_spec (reply_type a.2) a.1 (reply_body a.2) Ht Hext) as H.
  cbv zeta in H. rewrite Hun in H.
  assert (Hp : bytes32 (1 + len (bytes32 a.1) + len (reply_body a.2))
               ++ [reply_type a.2] ++ bytes32 a.1 ++ reply_body a.2
               = reply_packet a).
  { unfold reply_packet. cbv zeta. rewrite !bytes32_be32. f_equal. f_equal.
    rewrite !len_app. change (len [reply_type a.2]) with 1. lia. }
  rewrite Hp in H. destruct (H Hlen) as (r & Hr & Hty & Hidr & Hwf & Hrest).
  exists r. unfold response_of. rewrite Hr.
  rewrite toInt32_small, int32_image_nonneg in Hidr by lia. auto.
Qed.

Lemma len_reply_body a :
  len (reply_packet a) = 9 + len (reply_body a.2).
Proof.
  unfold reply_packet. cbv zeta. rewrite !len_app, !len_be32.
  unfold len at 1. cbn [length]. lia.
Qed.

(** One answer: the entry under its id goes, and the callback registered
    there is called with the result of the reply. *)
Lemma process_reply fuel w a c :
  deliverable a -> completion w a = Some c ->
  _process fuel (reply_packet a) w
  = Ok tt (add_call c
             (upd_this (fun c => set_requests (delete (Some a.1) (_requests c)) c)
                (upd_this (fun c => set_bytesReceived
                                      (_bytesReceived c + len (reply_packet a)) c) w))).
Proof.
  intros Hd Hc. pose proof Hd as (Hid & Hok & Hlen).
  destruct (reply_reader a Hd) as (r & Hr & Hty & Hidr & Hwf & Hrest).
  unfold completion in Hc.
  destruct (_requests (this w) !! Some a.1) as [rq|] eqn:Hrq; [|discriminate].
  destruct (callback rq) as [k|] eqn:Hcb; [|discriminate].
  destruct (outcome _ _ _ _) as [[err v]|] eqn:Hout; [|discriminate].
  injection Hc as <-.
  rewrite <- Hidr in Hrq. rewrite (_process_dispatch fuel _ w r rq Hr Hrq).
  rewrite Hcb, Hidr. rewrite len_reply_body in Hlen.
  set (w1 := upd_this _ (upd_this _ w)).
  assert (Hsid : _sessionId (this w1) = _sessionId (this w)) by reflexivity.
  rewrite <- Hsid in Hout.
  destruct (a.2) as [code msg lang|h|d|entries|x] eqn:Ha.
  - apply (parser_status fuel (_sessionId (this w1)) (responseParser rq) (rinfo rq)
             code msg lang (err, v) k _ w1 Hok).
    + cbn [reply_body] in Hlen. rewrite !len_app, !len_wire_string in Hlen.
      pose proof (strlen_nonneg lang). rewrite len_be32 in Hlen. lia.
    + exact Hout.
    + exact Hwf.
    + exact Hrest.
    + exact Hty.
    + reflexivity.
  - apply (parser_reply fuel (responseParser rq) (rinfo rq) (RHandle h) (err, v) k _ w1
             Hok); try assumption;
      [lia | discriminate].
  - apply (parser_reply fuel (responseParser rq) (rinfo rq) (RData d) (err, v) k _ w1
             Hok); try assumption;
      [lia | discriminate].
  - apply (parser_reply fuel (responseParser rq) (rinfo rq) (RName entries) (err, v) k _ w1
             Hok); try assumption;
      [lia | discriminate].
  - apply (parser_reply fuel (responseParser rq) (rinfo rq) (RAttrs x) (err, v) k _ w1
             Hok); try assumption;
      [lia | discriminate].
Qed.

Lemma completion_after w w1 (a0 a : Z * Reply) :
  _sessionId (this w1) = _sessionId (this w) ->
  _requests (this w1) = delete (Some a0.1) (_requests (this w)) ->
  a.1 <> a0.1 -> completion w1 a = completion w a.
Proof.
  intros Hsid Hreq Hne. unfold completion.
  rewrite Hsid, Hreq, lookup_delete_ne by congruence. reflexivity.
Qed.

Lemma completion_unchanged w w1 (a0 : Z * Reply) answers :
  _sessionId (this w1) = _sessionId (this w) ->
  _requests (this w1) = delete (Some a0.1) (_requests (this w)) ->
  a0.1 ∉ map fst answers ->
  Forall (fun a => completion w1 a = completion w a) answers.
Proof.
  intros Hsid Hreq Hnot. apply Forall_forall. intros a Ha.
  apply (completion_after w w1 a0 a Hsid Hreq). intros Heq.
  apply Hnot. rewrite <- Heq. apply (list_elem_of_fmap_2 fst), Ha.
Qed.

(** X27: answers with distinct request ids below 2^31, each a well-formed
    reply that completes the operation registered under its id, delivered
    in any order: every packet is accepted; the callbacks called are, answer
    by answer, the one registered under the answer's id with the result of
    that answer's reply; the entries of the answered requests leave the table
    and nothing is sent or scheduled. *)
Theorem X27_answers_reach_their_callbacks (fuel : nat) (w : World)
    (answers : list (Z * Reply)) :
  NoDup (map fst answers) ->
  Forall deliverable answers ->
  Forall (fun a => is_Some (completion w a)) answers ->
  exists w' cs,
    process_all fuel (map reply_packet answers) w = Ok tt w'
    /\ Forall2 (fun a c => completion w a = Some c) answers cs
    /\ calls w' = calls w ++ cs
    /\ _requests (this w') = answered (_requests (this w)) answers
    /\ sent w' = sent w /\ timers w' = timers w /\ closed w' = closed w.
Proof.
  revert w. induction answers as [|a l IH]; intros w Hnd Hd Hc.
  - exists w, []. cbn. rewrite app_nil_r. repeat split; constructor.
  - cbn [map] in Hnd. apply NoDup_cons in Hnd as [Hnot Hnd].
    inversion Hd as [|? ? Hd1 Hd2]; subst. inversion Hc as [|? ? [c Hc1] Hc2]; subst.
    pose proof (process_reply fuel w a c Hd1 Hc1) as Hstep.
    set (w1 := add_call c _) in Hstep.
    pose proof (completion_unchanged w w1 a l eq_refl eq_refl Hnot) as Hsame.
    destruct (IH w1 Hnd Hd2) as (w' & cs & Hrun & Hcs & Hcalls & Hreq & Hs & Ht & Hcl).
    { rewrite Forall_forall in *. intros x Hx. rewrite (Hsame x Hx). auto. }
    exists w', (c :: cs). cbn [map process_all]. unfold bind at 1. rewrite Hstep.
    split; [exact Hrun|]. split.
    { constructor; [exact Hc1|].
      clear -Hcs Hsame. induction Hcs as [|x y xs ys Hxy _ IHf]; [constructor|].
      inversion Hsame; subst. constructor; [congruence | auto]. }
    split; [rewrite Hcalls; cbn; rewrite <- app_assoc; reflexivity|].
    split; [rewrite Hreq; reflexivity|]. auto.
Qed.

Lemma X27_answers_reach_their_callbacks_witness :
  exists w' cs,
    process_all 0 (map reply_packet reverse_answers) three_pending = Ok tt w'
    /\ Forall2 (fun a c => completion three_pending a = Some c) reverse_answers cs
    /\ calls w' = calls three_pending ++ cs
    /\ _requests (this w') = answered (_requests (this three_pending)) reverse_answers
    /\ sent w' = sent three_pending /\ timers w' = timers three_pending
    /\ closed w' = closed three_pending.
Proof.
  apply X27_answers_reach_their_callbacks.
  - apply (bool_decide_unpack (NoDup (map fst reverse_answers))).
    vm_compute. exact I.
  - repeat constructor; vm_compute; congruence.
  - repeat constructor; eexists; vm_compute; reflexivity.
Defined.
